(** * A plasma time-stepping simulation: the two scripts and their properties

    The repository holds two Python scripts, [alien_weaponry.py] and
    [copyandpaste.py].  Each one binds a handful of module-level constants,
    allocates NumPy arrays, runs one [for] loop whose body is wrapped in a
    [try] statement, and then plots (and, for the first script, exports) the
    arrays.

    The scripts are embedded shallowly.  Python values carry their dynamic
    type, because the type decides which errors an operation can raise: the
    arithmetic of Python's [float] raises [OverflowError] and
    [ZeroDivisionError], that of [numpy.float64] only warns.  Doubles are
    Rocq's primitive binary64 floats, so every arithmetic step is the IEEE 754
    operation the interpreter performs.  The module globals are a store from
    names to values; statements are computations in a state-and-exception
    monad in which the store survives a raised exception, as it does in
    Python. *)

From Stdlib Require Import String ZArith List Bool Lia Floats.
Import ListNotations.

Set Warnings "-inexact-float,-abstract-large-number".

Local Open Scope Z_scope.

(** ** Exceptions and results *)

Inductive exn : Set :=
| OverflowError
| ZeroDivisionError
| TypeError
| IndexError
| NameError
| ValueError.

Scheme Equality for exn.

Definition res (A : Type) : Type := (exn + A)%type.

Definition ok {A : Type} (a : A) : res A := inr a.
Definition fail {A : Type} (e : exn) : res A := inl e.

Definition rbind {A B : Type} (r : res A) (k : A -> res B) : res B :=
  match r with
  | inl e => inl e
  | inr a => k a
  end.

(** ** Doubles *)

Module Double.

Local Open Scope float_scope.

(** Bitwise (Leibniz) equality of doubles: it tells [0.0] from [-0.0] and
    holds of a NaN with itself, unlike the IEEE comparison [=?]. *)
Definition same (x y : float) : bool := PrimFloat.Leibniz.eqb x y.

(** [float(z)] for a Python [int]: round to nearest, ties to even;
    [OverflowError] when the integer is beyond the double range. *)
Definition of_int (z : Z) : res float :=
  let f := SF2Prim (binary_normalize prec emax z 0%Z false) in
  if is_infinity f then fail OverflowError else ok f.

(** Exact comparison of an integer with a double, as Python performs it
    (no lossy conversion of the integer). *)
Definition compare_int (z : Z) (f : float) : option comparison :=
  match Prim2SF f with
  | S754_nan => None
  | S754_infinity s => Some (if s then Gt else Lt)
  | S754_zero _ => Some (z ?= 0)%Z
  | S754_finite s m e =>
      let v := if s then Zneg m else Zpos m in
      if (0 <=? e)%Z then Some (z ?= v * 2 ^ e)%Z
      else Some (z * 2 ^ (- e) ?= v)%Z
  end.

Definition compare (x y : float) : option comparison :=
  match (x ?= y) with
  | FEq => Some Eq
  | FLt => Some Lt
  | FGt => Some Gt
  | FNotComparable => None
  end.

(** [x ** n] for a positive integer exponent.  CPython and NumPy hand the
    operation to the C library's [pow]; for the exponents the scripts use
    (2 and 4) the model takes the product obtained by repeated squaring. *)
Fixpoint pow (x : float) (n : positive) : float :=
  match n with
  | xH => x
  | xO p => let y := pow x p in y * y
  | xI p => let y := pow x p in x * (y * y)
  end.

(** The ceiling of a double as an integer; [None] for NaN and infinities. *)
Definition ceil (f : float) : option Z :=
  match Prim2SF f with
  | S754_nan | S754_infinity _ => None
  | S754_zero _ => Some 0%Z
  | S754_finite s m e =>
      let v := if s then Zneg m else Zpos m in
      if (0 <=? e)%Z then Some (v * 2 ^ e)%Z
      else Some (- ((- v) / 2 ^ (- e)))%Z
  end.

End Double.

(** ** Python values *)

Inductive value : Set :=
| VInt (z : Z)          (* a Python [int] *)
| VFloat (f : float)    (* a Python [float] *)
| VNp (f : float).      (* a [numpy.float64] scalar *)

Module Py.

Local Open Scope float_scope.

Definition is_np (v : value) : bool :=
  match v with VNp _ => true | _ => false end.

(** The double an operand contributes to a floating-point operation. *)
Definition to_double (v : value) : res float :=
  match v with
  | VInt z => Double.of_int z
  | VFloat f | VNp f => ok f
  end.

(** A binary arithmetic operator.  Two [int]s use integer arithmetic.  As
    soon as one operand is a [numpy.float64] the NumPy scalar's (reflected)
    method runs: it yields a [numpy.float64] and never raises.  Otherwise
    the operation is Python's own on [float]. *)
Definition binop (zop : Z -> Z -> res value)
    (pyop : float -> float -> res float) (npop : float -> float -> float)
    (a b : value) : res value :=
  match a, b with
  | VInt x, VInt y => zop x y
  | _, _ =>
      rbind (to_double a) (fun x =>
      rbind (to_double b) (fun y =>
      if is_np a || is_np b then ok (VNp (npop x y))
      else rbind (pyop x y) (fun r => ok (VFloat r))))
  end.

Definition float_div (x y : float) : res float :=
  if y =? 0 then fail ZeroDivisionError else ok (x / y).

(** [int / int]: true division (through the doubles of the operands, which
    is exact for operands below 2^53). *)
Definition int_truediv (x y : Z) : res value :=
  if (y =? 0)%Z then fail ZeroDivisionError
  else rbind (Double.of_int x) (fun fx =>
       rbind (Double.of_int y) (fun fy => ok (VFloat (fx / fy)))).

Definition add : value -> value -> res value :=
  binop (fun x y => ok (VInt (x + y))) (fun x y => ok (x + y)) PrimFloat.add.
Definition sub : value -> value -> res value :=
  binop (fun x y => ok (VInt (x - y))) (fun x y => ok (x - y)) PrimFloat.sub.
Definition mul : value -> value -> res value :=
  binop (fun x y => ok (VInt (x * y))) (fun x y => ok (x * y)) PrimFloat.mul.
Definition truediv : value -> value -> res value :=
  binop int_truediv float_div PrimFloat.div.

(** [a % b] on [int]s; the scripts apply it to the loop index only. *)
Definition mod_ (a b : value) : res value :=
  match a, b with
  | VInt x, VInt y =>
      if (y =? 0)%Z then fail ZeroDivisionError else ok (VInt (x mod y))
  | _, _ => fail TypeError
  end.

(** [a ** n] for a literal positive integer [n].  Python's [float] raises
    [OverflowError] when a finite base gives an infinite result. *)
Definition pow (a : value) (n : positive) : res value :=
  match a with
  | VInt x => ok (VInt (x ^ Zpos n))
  | VFloat x =>
      let r := Double.pow x n in
      if is_finite x && is_infinity r then fail OverflowError
      else ok (VFloat r)
  | VNp x => ok (VNp (Double.pow x n))
  end.

Definition neg (a : value) : value :=
  match a with
  | VInt x => VInt (- x)
  | VFloat x => VFloat (- x)
  | VNp x => VNp (- x)
  end.

Definition compare (a b : value) : option comparison :=
  match a, b with
  | VInt x, VInt y => Some (x ?= y)%Z
  | VInt x, (VFloat y | VNp y) => Double.compare_int x y
  | (VFloat x | VNp x), VInt y => option_map CompOpp (Double.compare_int y x)
  | (VFloat x | VNp x), (VFloat y | VNp y) => Double.compare x y
  end.

Definition lt (a b : value) : bool :=
  match compare a b with Some Lt => true | _ => false end.
Definition gt (a b : value) : bool :=
  match compare a b with Some Gt => true | _ => false end.
Definition le (a b : value) : bool :=
  match compare a b with Some (Lt | Eq) => true | _ => false end.
Definition ge (a b : value) : bool :=
  match compare a b with Some (Gt | Eq) => true | _ => false end.
Definition eq (a b : value) : bool :=
  match compare a b with Some Eq => true | _ => false end.

(** The builtin [min(a, b)]: the first argument unless the second is
    strictly smaller. *)
Definition min (a b : value) : value := if lt b a then b else a.

(** A NumPy universal function applied to a scalar. *)
Definition ufunc (f : float -> float) (a : value) : res value :=
  rbind (to_double a) (fun x => ok (VNp (f x))).

End Py.

(** ** NumPy arrays of doubles *)

Module Np.

Local Open Scope float_scope.

(** The position an index denotes in an array of [n] cells: negative
    indices count from the end, anything else is an [IndexError]. *)
Definition index (n : nat) (i : Z) : res nat :=
  if ((0 <=? i) && (i <? Z.of_nat n))%Z then ok (Z.to_nat i)
  else if ((- Z.of_nat n <=? i) && (i <? 0))%Z
       then ok (Z.to_nat (Z.of_nat n + i))
       else fail IndexError.

Fixpoint update (l : list float) (k : nat) (x : float) : list float :=
  match l, k with
  | [], _ => []
  | _ :: t, O => x :: t
  | h :: t, S k' => h :: update t k' x
  end.

(** [a[i]], a [numpy.float64]. *)
Definition getitem (a : list float) (i : Z) : res value :=
  rbind (index (length a) i) (fun k => ok (VNp (nth k a 0))).

(** [a[i] = v]: the value is converted to a double and stored. *)
Definition setitem (a : list float) (i : Z) (v : value) : res (list float) :=
  rbind (Py.to_double v) (fun x =>
  rbind (index (length a) i) (fun k => ok (update a k x))).

Definition zeros (n : nat) : list float := repeat 0 n.

(** The [k]-th cell of [np.arange(start, stop, step)]: the first two cells
    are [start] and [start + step], the others are filled from their
    difference. *)
Definition arange_cell (s st : float) (k : Z) : float :=
  if (k =? 0)%Z then s
  else if (k =? 1)%Z then s + st
  else
    let delta := (s + st) - s in
    s + SF2Prim (binary_normalize prec emax k 0%Z false) * delta.

(** The integers [lo], [lo + 1], ..., [n] of them. *)
Fixpoint iota (lo : Z) (n : nat) : list Z :=
  match n with
  | O => []
  | S m => lo :: iota (lo + 1) m
  end.

(** [np.arange(start, stop, step)] with a floating-point step: the length
    is the ceiling of [(stop - start) / step], at least 0. *)
Definition arange (start stop step : value) : res (list float) :=
  rbind (Py.sub stop start) (fun d =>
  rbind (Py.truediv d step) (fun q =>
  rbind (Py.to_double q) (fun qf =>
  match Double.ceil qf with
  | None => fail ValueError
  | Some n =>
      rbind (Py.to_double start) (fun s =>
      rbind (Py.to_double step) (fun st =>
      ok (map (arange_cell s st) (iota 0 (Z.to_nat n)))))
  end))).

(** The transcendental functions NumPy takes from the C library.  They are
    not part of the repository; the development is parametric in them. *)
Class Libm : Type := {
  log1p : float -> float;
  exp : float -> float;
  tanh : float -> float
}.

Definition pi : float := 3.141592653589793.

End Np.

(** ** The module globals and the state monad *)

Module Name.

(** The scalar names the two scripts bind. *)
Inductive var : Set :=
| c | B | initial_acceleration | max_acceleration | acceleration
| damping_factor | mass_particle | num_particles | cap_value
| observer_influence_factor | observer_interval | initial_observers
| volume_per_observer | total_time | time_steps | dt
| plasma_velocity | lorentz_factor | energy_density | field_strength
| temperature | pressure | quantum_tunneling_probability
| spacetime_curvature | current_observers | mu_0 | current_time
| observer_factor | volume | time_dilation | dimension_portal_probability.

(** The names bound to NumPy arrays. *)
Inductive arr : Set :=
| time_array | plasma_velocity_array | lorentz_factor_array
| energy_density_array | field_strength_array | temperature_array
| pressure_array | quantum_tunneling_probability_array
| spacetime_curvature_array | volume_array | time_dilation_array
| dimension_portal_probability_array.

Scheme Equality for var.
Scheme Equality for arr.

End Name.

Record state : Type := {
  vars : Name.var -> option value;
  arrs : Name.arr -> option (list float)
}.

Definition empty : state := {| vars := fun _ => None; arrs := fun _ => None |}.

Definition bind_var (x : Name.var) (v : value) (s : state) : state :=
  {| vars := fun y => if Name.var_beq x y then Some v else vars s y;
     arrs := arrs s |}.

Definition bind_arr (a : Name.arr) (l : list float) (s : state) : state :=
  {| vars := vars s;
     arrs := fun b => if Name.arr_beq a b then Some l else arrs s b |}.

(** A statement or expression: it may change the store and it either
    returns a value or raises.  The store it leaves is kept in both cases. *)
Definition M (A : Type) : Type := state -> state * res A.

Definition ret {A : Type} (a : A) : M A := fun s => (s, ok a).
Definition raise {A : Type} (e : exn) : M A := fun s => (s, fail e).
Definition lift {A : Type} (r : res A) : M A := fun s => (s, r).

Definition bind {A C : Type} (m : M A) (k : A -> M C) : M C :=
  fun s =>
    let (s', r) := m s in
    match r with
    | inl e => (s', inl e)
    | inr a => k a s'
    end.

Declare Scope py_scope.
Delimit Scope py_scope with py.

Notation "x <- m ;; k" := (bind m (fun x => k))
  (at level 100, m at next level, right associativity) : py_scope.
Notation "m ;; k" := (bind m (fun _ => k))
  (at level 100, right associativity) : py_scope.

Local Open Scope py_scope.

(** Reading a name; an unbound one raises [NameError]. *)
Definition load (x : Name.var) : M value :=
  fun s => match vars s x with
           | Some v => (s, ok v)
           | None => (s, fail NameError)
           end.

Definition load_arr (a : Name.arr) : M (list float) :=
  fun s => match arrs s a with
           | Some l => (s, ok l)
           | None => (s, fail NameError)
           end.

Definition store (x : Name.var) (v : value) : M unit :=
  fun s => (bind_var x v s, ok tt).

Definition store_arr (a : Name.arr) (l : list float) : M unit :=
  fun s => (bind_arr a l s, ok tt).

(** [x = e] *)
Definition assign (x : Name.var) (e : M value) : M unit :=
  v <- e ;; store x v.

(** [a[i] = e]: the right-hand side is evaluated first. *)
Definition setitem (a : Name.arr) (i : Z) (e : M value) : M unit :=
  v <- e ;; l <- load_arr a ;; l' <- lift (Np.setitem l i v) ;; store_arr a l'.

(** [a[i]] *)
Definition getitem (a : Name.arr) (i : Z) : M value :=
  l <- load_arr a ;; lift (Np.getitem l i).

(** [len(a)] *)
Definition len (a : Name.arr) : M nat :=
  l <- load_arr a ;; ret (length l).

(** Operators on expressions: operands are evaluated left to right. *)
Definition op2 (f : value -> value -> res value) (e1 e2 : M value) : M value :=
  a <- e1 ;; b <- e2 ;; lift (f a b).

Definition cmp2 (f : value -> value -> bool) (e1 e2 : M value) : M bool :=
  a <- e1 ;; b <- e2 ;; ret (f a b).

Definition op1 (f : value -> res value) (e : M value) : M value :=
  a <- e ;; lift (f a).

(** [e1 and e2] on conditions, with Python's short circuit. *)
Definition and_ (e1 e2 : M bool) : M bool :=
  a <- e1 ;; if a then e2 else ret false.

(** [if cond: body] *)
Definition when (cond : M bool) (body : M unit) : M unit :=
  b <- cond ;; if b then body else ret tt.

(** [e1 if cond else e2] *)
Definition ifexp {A : Type} (cond : M bool) (e1 e2 : M A) : M A :=
  b <- cond ;; if b then e1 else e2.

(** A [try] statement with its [except] clauses.  An exception raised by a
    handler is not looked up again: it leaves the statement. *)
Definition try_except (body : M unit) (handlers : list (exn * M unit)) : M unit :=
  fun s =>
    match body s with
    | (s', inr u) => (s', inr u)
    | (s', inl e) =>
        match find (fun h => exn_beq (fst h) e) handlers with
        | Some h => snd h s'
        | None => (s', inl e)
        end
    end.

(** [range(lo, hi)] *)
Definition range (lo hi : Z) : list Z := Np.iota lo (Z.to_nat (hi - lo)).

(** [for i in l: body].  The result counts the iterations carried out. *)
Fixpoint for_in (l : list Z) (body : Z -> M unit) : M nat :=
  match l with
  | [] => ret O
  | i :: l' => body i ;; n <- for_in l' body ;; ret (S n)
  end.

(** Literals. *)
Definition int_ (n : Z) : M value := ret (VInt n).
Definition flt (x : float) : M value := ret (VFloat x).

Notation "$ x" := (load x) (at level 9, x at level 9, format "$ x") : py_scope.
Notation "a .+ b" := (op2 Py.add a b) (at level 50, left associativity) : py_scope.
Notation "a .- b" := (op2 Py.sub a b) (at level 50, left associativity) : py_scope.
Notation "a .* b" := (op2 Py.mul a b) (at level 40, left associativity) : py_scope.
Notation "a ./ b" := (op2 Py.truediv a b) (at level 40, left associativity) : py_scope.
Notation "a .% b" := (op2 Py.mod_ a b) (at level 40, left associativity) : py_scope.
Notation "a .** n" := (op1 (fun v => Py.pow v n) a) (at level 30, right associativity) : py_scope.
Notation ".- a" := (op1 (fun v => ok (Py.neg v)) a) (at level 35, right associativity) : py_scope.
Notation "a .< b" := (cmp2 Py.lt a b) (at level 70, no associativity) : py_scope.
Notation "a .> b" := (cmp2 Py.gt a b) (at level 70, no associativity) : py_scope.
Notation "a .>= b" := (cmp2 Py.ge a b) (at level 70, no associativity) : py_scope.
Notation "a .== b" := (cmp2 Py.eq a b) (at level 70, no associativity) : py_scope.
Notation "x ::= e" := (assign x e) (at level 75, no associativity) : py_scope.

Definition min_ (e1 e2 : M value) : M value :=
  op2 (fun a b => ok (Py.min a b)) e1 e2.

Definition np_sqrt (e : M value) : M value := op1 (Py.ufunc PrimFloat.sqrt) e.

(** Subscripting a scalar, as in [cap_value[i-1]]: a [float] or an [int] is
    not subscriptable, a NumPy scalar rejects the index. *)
Definition subscript_scalar (x : Name.var) (i : Z) : M value :=
  v <- $x ;;
  match v with
  | VNp _ => raise IndexError
  | _ => raise TypeError
  end.

(** [a[i] = a[i-1]], the statement the handlers are made of. *)
Definition copy_previous (a : Name.arr) (i : Z) : M unit :=
  setitem a i (getitem a (i - 1)).

(** [x = np.zeros(len(time_array))] *)
Definition zeros_like_time (a : Name.arr) : M unit :=
  n <- len Name.time_array ;; store_arr a (Np.zeros n).

(** ** Files a script writes *)

(** What is handed to [json.dump] or to a CSV writer: the numbers, before
    they are printed. *)
Inductive document : Type :=
| Json (fields : list (string * list float))
| Csv (header : list string) (rows : list (list float)).

(** [[a[i] for a in cols]] *)
Fixpoint row (cols : list Name.arr) (i : Z) : M (list float) :=
  match cols with
  | [] => ret []
  | a :: cols' =>
      v <- getitem a i ;; x <- lift (Py.to_double v) ;;
      r <- row cols' i ;; ret (x :: r)
  end.

(** One row per index of [l]. *)
Fixpoint rows (cols : list Name.arr) (l : list Z) : M (list (list float)) :=
  match l with
  | [] => ret []
  | i :: l' => r <- row cols i ;; rs <- rows cols l' ;; ret (r :: rs)
  end.

(** [{key: a.tolist(), ...}] *)
Fixpoint tolists (keys : list (string * Name.arr))
  : M (list (string * list float)) :=
  match keys with
  | [] => ret []
  | (k, a) :: keys' =>
      l <- load_arr a ;; r <- tolists keys' ;; ret ((k, l) :: r)
  end.

(** ** copyandpaste.py *)

Module Copy.

Import Name.

Section Script.

Context {libm : Np.Libm}.

Definition np_log1p (e : M value) : M value := op1 (Py.ufunc Np.log1p) e.
Definition np_exp (e : M value) : M value := op1 (Py.ufunc Np.exp) e.

(** Lines 5-44: constants, time parameters, arrays, initial conditions. *)
Definition prelude : M unit :=
  c ::= flt 3e8 ;;
  B ::= int_ 30 ;;
  acceleration ::= flt 9.81 ;;
  damping_factor ::= flt 0.00001 ;;
  mass_particle ::= flt 1.67e-27 ;;
  num_particles ::= flt 1e30 ;;
  cap_value ::= flt 1e24 ;;
  observer_influence_factor ::= flt 1.1 ;;
  observer_interval ::= int_ 45 ;;
  initial_observers ::= int_ 1 ;;
  volume_per_observer ::= flt 1.0 ;;
  total_time ::= int_ 9600 ;;
  time_steps ::= int_ 96000 ;;
  dt ::= $total_time ./ $time_steps ;;
  (t <- $total_time ;; d <- $dt ;;
   a <- lift (Np.arange (VInt 0) t d) ;; store_arr time_array a) ;;
  zeros_like_time plasma_velocity_array ;;
  zeros_like_time lorentz_factor_array ;;
  zeros_like_time energy_density_array ;;
  zeros_like_time field_strength_array ;;
  zeros_like_time temperature_array ;;
  zeros_like_time pressure_array ;;
  zeros_like_time quantum_tunneling_probability_array ;;
  zeros_like_time spacetime_curvature_array ;;
  zeros_like_time volume_array ;;
  plasma_velocity ::= flt 0.0 ;;
  lorentz_factor ::= flt 1.0 ;;
  energy_density ::= flt 0.0 ;;
  field_strength ::= flt 1e20 ;;
  temperature ::= flt 1e7 ;;
  pressure ::= flt 100000.0 ;;
  quantum_tunneling_probability ::= flt 0.1 ;;
  spacetime_curvature ::= flt 1e-35 ;;
  current_observers ::= $initial_observers.

(** Lines 49-92: the statements under [try]. *)
Definition body (i : Z) : M unit :=
  plasma_velocity ::=
    $plasma_velocity
    .+ ($acceleration .- $damping_factor .* $plasma_velocity) .* $dt ;;
  lorentz_factor ::=
    ifexp ($plasma_velocity .< $c)
      (int_ 1 ./ np_sqrt (int_ 1 .- ($plasma_velocity ./ $c) .** 2))
      ($plasma_velocity ./ $c) ;;
  when (int_ i .% $observer_interval .== int_ 0)
    (current_observers ::= $current_observers .* int_ 2 ;;
     when ($current_observers .> flt 1e6)
       (current_observers ::= flt 1e6)) ;;
  observer_factor ::=
    np_log1p ($observer_influence_factor .* $current_observers) ;;
  field_strength ::= $field_strength .* $observer_factor ;;
  when ($field_strength .> $cap_value)
    (field_strength ::= $cap_value) ;;
  energy_density ::=
    min_ (flt 0.5 .* ($field_strength .** 2) .* ($plasma_velocity .** 2))
         $cap_value ;;
  volume ::= $current_observers .* $volume_per_observer ;;
  temperature ::= $temperature .+ flt 1e5 .* $dt ;;
  pressure ::= $pressure .+ flt 500.0 .* $dt ;;
  quantum_tunneling_probability ::=
    int_ 1 .- np_exp ((.- $field_strength) ./ $cap_value) ;;
  spacetime_curvature ::= int_ 2 .* $energy_density ./ ($c .** 4) ;;
  setitem plasma_velocity_array i $plasma_velocity ;;
  setitem lorentz_factor_array i $lorentz_factor ;;
  setitem energy_density_array i $energy_density ;;
  setitem field_strength_array i $field_strength ;;
  setitem temperature_array i $temperature ;;
  setitem pressure_array i $pressure ;;
  setitem quantum_tunneling_probability_array i $quantum_tunneling_probability ;;
  setitem spacetime_curvature_array i $spacetime_curvature ;;
  setitem volume_array i $volume.

(** Lines 94-104: the [except OverflowError] clause (its [print] writes
    to the terminal only). *)
Definition on_overflow (i : Z) : M unit :=
  copy_previous plasma_velocity_array i ;;
  copy_previous lorentz_factor_array i ;;
  setitem energy_density_array i $cap_value ;;
  copy_previous field_strength_array i ;;
  copy_previous temperature_array i ;;
  copy_previous pressure_array i ;;
  copy_previous quantum_tunneling_probability_array i ;;
  copy_previous spacetime_curvature_array i ;;
  copy_previous volume_array i.

Definition handlers (i : Z) : list (exn * M unit) :=
  [(OverflowError, on_overflow i)].

Definition iteration (i : Z) : M unit :=
  try_except (body i) (handlers i).

(** Lines 47-104: [for i in range(1, len(time_array))]. *)
Definition loop : M nat :=
  n <- len time_array ;; for_in (range 1 (Z.of_nat n)) iteration.

(** Lines 106-256 define [remove_non_finite] and draw the figures; the
    script opens no file. *)
Definition exports : M (list (string * document)) := ret [].

Definition script : M (list (string * document)) :=
  prelude ;; loop ;; exports.

End Script.

End Copy.

(** ** alien_weaponry.py *)

Module Alien.

Import Name.

Section Script.

Context {libm : Np.Libm}.

Definition np_log1p (e : M value) : M value := op1 (Py.ufunc Np.log1p) e.
Definition np_exp (e : M value) : M value := op1 (Py.ufunc Np.exp) e.
Definition np_tanh (e : M value) : M value := op1 (Py.ufunc Np.tanh) e.

(** Lines 51-52.  The parameters [total_time] and [max_acceleration]
    shadow the globals of the same names; [initial_acceleration] is the
    global. *)
Definition increasing_acceleration (t total_time' max_acceleration' : value)
  : M value :=
  $initial_acceleration
  .+ (ret max_acceleration' .- $initial_acceleration)
     .* (ret t ./ ret total_time').

(** Lines 55-56. *)
Definition magnetic_pressure_effect (B' : value) : M value :=
  ret B' .** 2 ./ (int_ 2 .* $mu_0).

(** Lines 6-59: constants, time parameters, arrays, initial conditions
    and [mu_0]. *)
Definition prelude : M unit :=
  c ::= flt 3e8 ;;
  B ::= int_ 40 ;;
  initial_acceleration ::= flt 2.2 ;;
  max_acceleration ::= flt 13.81 ;;
  damping_factor ::= flt 0.00001 ;;
  mass_particle ::= flt 1.70e-27 ;;
  num_particles ::= flt 1e45 ;;
  cap_value ::= flt 1e35 ;;
  observer_influence_factor ::= flt 1.1 ;;
  observer_interval ::= int_ 100 ;;
  initial_observers ::= int_ 1 ;;
  volume_per_observer ::= flt 1.0 ;;
  total_time ::= int_ 6900 ;;
  time_steps ::= int_ 69000 ;;
  dt ::= $total_time ./ $time_steps ;;
  (t <- $total_time ;; d <- $dt ;;
   a <- lift (Np.arange (VInt 0) t d) ;; store_arr time_array a) ;;
  zeros_like_time plasma_velocity_array ;;
  zeros_like_time lorentz_factor_array ;;
  zeros_like_time energy_density_array ;;
  zeros_like_time field_strength_array ;;
  zeros_like_time temperature_array ;;
  zeros_like_time pressure_array ;;
  zeros_like_time quantum_tunneling_probability_array ;;
  zeros_like_time spacetime_curvature_array ;;
  zeros_like_time volume_array ;;
  zeros_like_time time_dilation_array ;;
  zeros_like_time dimension_portal_probability_array ;;
  plasma_velocity ::= flt 0.0 ;;
  lorentz_factor ::= flt 1.0 ;;
  energy_density ::= flt 1e-12 ;;
  field_strength ::= flt 1e-20 ;;
  temperature ::= flt 1e7 ;;
  pressure ::= flt 100000.0 ;;
  quantum_tunneling_probability ::= flt 0.1 ;;
  spacetime_curvature ::= flt 1e23 ;;
  current_observers ::= $initial_observers ;;
  mu_0 ::= int_ 4 .* flt Np.pi .* flt 1e-7.

(** Lines 64-121: the statements under [try]. *)
Definition body (i : Z) : M unit :=
  current_time ::= getitem time_array i ;;
  acceleration ::=
    (t <- $current_time ;; tt' <- $total_time ;; m <- $max_acceleration ;;
     increasing_acceleration t tt' m) ;;
  plasma_velocity ::=
    $plasma_velocity
    .+ ($acceleration .- $damping_factor .* $plasma_velocity) .* $dt ;;
  when ($plasma_velocity .>= $c)
    (plasma_velocity ::= $c .- flt 1e-10) ;;
  lorentz_factor ::=
    int_ 1 ./ np_sqrt (int_ 1 .- ($plasma_velocity ./ $c) .** 2) ;;
  pressure ::= (b <- $B ;; magnetic_pressure_effect b) ;;
  setitem pressure_array i $pressure ;;
  when (and_ (int_ i .% $observer_interval .== int_ 0)
             ($current_observers .< flt 1e6))
    (current_observers ::= $current_observers .+ int_ 2) ;;
  observer_factor ::=
    np_log1p ($observer_influence_factor .* $current_observers) ;;
  field_strength ::= $field_strength .* $observer_factor ;;
  when ($field_strength .> $cap_value)
    (field_strength ::= $cap_value) ;;
  energy_density ::=
    min_ (flt 0.5 .* ($field_strength .** 2) .* ($plasma_velocity .** 2))
         $cap_value ;;
  volume ::= $current_observers .* $volume_per_observer ;;
  temperature ::= $temperature .+ flt 1e5 .* $dt ;;
  quantum_tunneling_probability ::=
    int_ 1 .- np_exp ((.- $field_strength) ./ $cap_value) ;;
  spacetime_curvature ::= int_ 2 .* $energy_density ./ ($c .** 4) ;;
  time_dilation ::=
    $lorentz_factor
    .* np_sqrt (int_ 1
                .- (int_ 2 .* $spacetime_curvature .* $mass_particle)
                   ./ ($c .** 2)) ;;
  dimension_portal_probability ::=
    np_tanh ($spacetime_curvature ./ $cap_value) ;;
  setitem plasma_velocity_array i $plasma_velocity ;;
  setitem lorentz_factor_array i $lorentz_factor ;;
  setitem energy_density_array i $energy_density ;;
  setitem field_strength_array i $field_strength ;;
  setitem temperature_array i $temperature ;;
  setitem pressure_array i $pressure ;;
  setitem quantum_tunneling_probability_array i $quantum_tunneling_probability ;;
  setitem spacetime_curvature_array i $spacetime_curvature ;;
  setitem volume_array i $volume ;;
  setitem time_dilation_array i $time_dilation ;;
  setitem dimension_portal_probability_array i $dimension_portal_probability.

(** Lines 123-135: the [except OverflowError] clause.  Line 127 reads
    [cap_value[i-1]]. *)
Definition on_overflow (i : Z) : M unit :=
  copy_previous plasma_velocity_array i ;;
  copy_previous lorentz_factor_array i ;;
  setitem energy_density_array i (subscript_scalar cap_value (i - 1)) ;;
  copy_previous field_strength_array i ;;
  copy_previous temperature_array i ;;
  copy_previous pressure_array i ;;
  copy_previous quantum_tunneling_probability_array i ;;
  copy_previous spacetime_curvature_array i ;;
  copy_previous volume_array i ;;
  copy_previous time_dilation_array i ;;
  copy_previous dimension_portal_probability_array i.

(** Lines 137-143: the [except ZeroDivisionError] clause. *)
Definition on_zero_division (i : Z) : M unit :=
  lorentz_factor ::= flt infinity ;;
  time_dilation ::= flt infinity ;;
  setitem plasma_velocity_array i $plasma_velocity ;;
  setitem lorentz_factor_array i $lorentz_factor ;;
  setitem time_dilation_array i $time_dilation.

Definition handlers (i : Z) : list (exn * M unit) :=
  [(OverflowError, on_overflow i); (ZeroDivisionError, on_zero_division i)].

Definition iteration (i : Z) : M unit :=
  try_except (body i) (handlers i).

(** Lines 62-143: [for i in range(1, len(time_array))]. *)
Definition loop : M nat :=
  n <- len time_array ;; for_in (range 1 (Z.of_nat n)) iteration.

(** Lines 150-163: the keys of [simulation_data]. *)
Definition json_keys : list (string * arr) :=
  [("time_array", time_array);
   ("plasma_velocity_array", plasma_velocity_array);
   ("lorentz_factor_array", lorentz_factor_array);
   ("energy_density_array", energy_density_array);
   ("field_strength_array", field_strength_array);
   ("temperature_array", temperature_array);
   ("pressure_array", pressure_array);
   ("quantum_tunneling_probability_array",
    quantum_tunneling_probability_array);
   ("spacetime_curvature_array", spacetime_curvature_array);
   ("volume_array", volume_array);
   ("time_dilation_array", time_dilation_array);
   ("dimension_portal_probability_array",
    dimension_portal_probability_array)]%string.

(** Lines 314-319. *)
Definition header : list string :=
  ["Time (s)"; "Plasma Velocity (m/s)"; "Lorentz Factor (γ)";
   "Energy Density (J/m³)"; "Field Strength (J/m³)"; "Temperature (K)";
   "Pressure (Pa)"; "Quantum Tunneling Probability";
   "Spacetime Curvature (m^-2)"; "Time Dilation Factor";
   "Dimension Portal Probability"]%string.

(** Lines 330-336: the cells of one CSV row. *)
Definition csv_columns : list arr :=
  [time_array; plasma_velocity_array; lorentz_factor_array;
   energy_density_array; field_strength_array; temperature_array;
   pressure_array; quantum_tunneling_probability_array;
   spacetime_curvature_array; time_dilation_array;
   dimension_portal_probability_array].

(** Lines 343-355: the columns of the data frame. *)
Definition frame_keys : list (string * arr) :=
  [("time_array", time_array);
   ("plasma_velocity_array", plasma_velocity_array);
   ("lorentz_factor_array", lorentz_factor_array);
   ("energy_density_array", energy_density_array);
   ("field_strength_array", field_strength_array);
   ("temperature_array", temperature_array);
   ("pressure_array", pressure_array);
   ("quantum_tunneling_probability_array",
    quantum_tunneling_probability_array);
   ("spacetime_curvature_array", spacetime_curvature_array);
   ("time_dilation_array", time_dilation_array);
   ("dimension_portal_probability_array",
    dimension_portal_probability_array)]%string.

(** Lines 150-166, 308-336 and 340-361: the three files written after
    the loop (the figures in between write nothing). *)
Definition exports : M (list (string * document)) :=
  data <- tolists json_keys ;;
  n <- len time_array ;;
  table <- rows csv_columns (range 0 (Z.of_nat n)) ;;
  frame <- rows (map snd frame_keys) (range 0 (Z.of_nat n)) ;;
  ret [("simulation_data.json", Json data);
       ("simulation_results.csv", Csv header table);
       ("simulation_data.csv", Csv (map fst frame_keys) frame)]%string.

Definition script : M (list (string * document)) :=
  prelude ;; loop ;; exports.

End Script.

End Alien.

(** ** Expressions *)

(** An expression leaves the store as it found it. *)
Definition pure {A : Type} (e : M A) : Prop := forall s, fst (e s) = s.

(** The value of an expression in a store. *)
Definition eval {A : Type} (e : M A) (s : state) : res A := snd (e s).

(** The arrays the loops fill ([copyandpaste.py] has the first nine). *)
Definition result_arrays : list Name.arr :=
  [Name.plasma_velocity_array; Name.lorentz_factor_array;
   Name.energy_density_array; Name.field_strength_array;
   Name.temperature_array; Name.pressure_array;
   Name.quantum_tunneling_probability_array; Name.spacetime_curvature_array;
   Name.volume_array; Name.time_dilation_array;
   Name.dimension_portal_probability_array].

(** ** Small stores to run the scripts on *)

Module Demo.

Import Name.
Local Open Scope float_scope.

(** A stand-in for the C library, to run the model on concrete stores.  Any
    three functions do: every theorem below holds for all of them. *)
Definition staircase : Np.Libm :=
  {| Np.log1p := fun x => if x <? 1 then x else 1;
     Np.exp := fun x => 1 + x;
     Np.tanh := fun x => x |}.

Fixpoint bind_vars (l : list (var * value)) (s : state) : state :=
  match l with
  | [] => s
  | (x, v) :: l' => bind_var x v (bind_vars l' s)
  end.

Fixpoint bind_arrs (l : list arr) (a : list float) (s : state) : state :=
  match l with
  | [] => s
  | x :: l' => bind_arr x a (bind_arrs l' a s)
  end.

(** The names the two scripts share get one value each; four time steps. *)
Definition store : state :=
  bind_vars
    [(c, VFloat 3e8); (B, VInt 40); (acceleration, VFloat 9.81);
     (initial_acceleration, VFloat 9.81); (max_acceleration, VFloat 9.81);
     (damping_factor, VFloat 0.00001); (mass_particle, VFloat 1.70e-27);
     (num_particles, VFloat 1e45); (cap_value, VFloat 1e35);
     (observer_influence_factor, VFloat 1.1); (observer_interval, VInt 2);
     (initial_observers, VInt 1); (volume_per_observer, VFloat 1.0);
     (total_time, VInt 4); (time_steps, VInt 40); (dt, VFloat 0.1);
     (plasma_velocity, VFloat 0.0); (lorentz_factor, VFloat 1.0);
     (energy_density, VFloat 0.0); (field_strength, VFloat 1e20);
     (temperature, VFloat 1e7); (pressure, VFloat 100000.0);
     (quantum_tunneling_probability, VFloat 0.1);
     (spacetime_curvature, VFloat 1e-35); (current_observers, VInt 1);
     (mu_0, VFloat 1.2566370614359173e-06)]
    (bind_arr time_array [0; 0.1; 0.2; 0.30000000000000004]
       (bind_arrs result_arrays (Np.zeros 4) empty)).

(** The same store with a velocity whose square is beyond the doubles. *)
Definition fast : state := bind_var plasma_velocity (VFloat 1e200) store.

(** The same store with an observer interval of zero. *)
Definition no_interval : state := bind_var observer_interval (VInt 0) store.

End Demo.

(** ** Properties of one iteration, stated on the store it leaves *)

Module Spec.

Import Name.

(** Cell [i] of [spacetime_curvature_array] holds [2 * e / c**4], where
    [e] is the energy density the iteration computed (bound to
    [energy_density] and stored in cell [i] of its array) and [cv] is the
    value of [c]. *)
Definition curvature_stored (cv : value) (s' : state) (i : Z) : Prop :=
  exists e ex el x l,
    vars s' energy_density = Some e /\
    Py.to_double e = ok ex /\
    arrs s' energy_density_array = Some el /\
    Np.getitem el i = ok (VNp ex) /\
    rbind (Py.mul (VInt 2) e) (fun m =>
      rbind (Py.pow cv 4) (fun c4 =>
        rbind (Py.truediv m c4) Py.to_double)) = ok x /\
    arrs s' spacetime_curvature_array = Some l /\
    Np.getitem l i = ok (VNp x).

End Spec.

(** Whether the clauses of a [try] statement catch an exception. *)
Definition catches (handlers : list (exn * M unit)) (e : exn) : bool :=
  existsb (fun h => exn_beq (fst h) e) handlers.

(** Cell [i] of the array bound to [a] holds the double [x]. *)
Definition cell (s : state) (a : Name.arr) (i : Z) (x : float) : Prop :=
  exists l, arrs s a = Some l /\ Np.getitem l i = ok (VNp x).

Module Handler.

Import Name.

(** The arrays whose cell [i] the [except OverflowError] clause of
    [copyandpaste.py] fills from cell [i - 1]. *)
Definition copied : list arr :=
  [plasma_velocity_array; lorentz_factor_array; field_strength_array;
   temperature_array; pressure_array; quantum_tunneling_probability_array;
   spacetime_curvature_array; volume_array].

(** A store in which the observers are too many for a double. *)
Definition crowded : state :=
  bind_var current_observers (VInt (2 ^ 1024)) Demo.store.

End Handler.

Module Export_.

(** The cells of row [i] are cell [i] of each column. *)
Definition row_of (s : state) (cols : list Name.arr) (i : Z)
    (r : list float) : Prop :=
  Forall2 (fun a x => cell s a i x) cols r.

(** A key of the JSON object holds the whole array bound to its name. *)
Definition field_of (s : state) (k : string * Name.arr)
    (f : string * list float) : Prop :=
  fst f = fst k /\ arrs s (snd k) = Some (snd f).

End Export_.

Module Drift.

Import Name.

(** What the two loop bodies share on the temperature: the two stores
    bind [temperature], [dt] and [temperature_array] alike. *)
Definition agree (s1 s2 : state) : Prop :=
  vars s1 temperature = vars s2 temperature /\
  vars s1 dt = vars s2 dt /\
  arrs s1 temperature_array = arrs s2 temperature_array.

End Drift.

(** ** Orbits and sweeps *)

(** The scalars of a run follow an orbit: the value after iteration [k] is
    obtained from the one after iteration [k - 1] by [next k].  A sweep
    checks a decidable property along the first [n] points of an orbit in
    one pass. *)
Section Sweep.

Context {A : Type}.
Variable next : Z -> A -> A.
Variable good : Z -> A -> bool.

Fixpoint orbit (a0 : A) (k : nat) : A :=
  match k with
  | O => a0
  | S k' => next (Z.of_nat (S k')) (orbit a0 k')
  end.

Fixpoint sweep (n : nat) (i : Z) (a : A) : bool :=
  match n with
  | O => true
  | S n' => good i a && sweep n' (i + 1) (next (i + 1) a)
  end.

End Sweep.

(** ** The run of copyandpaste.py *)

(** Whether a result is a Python [float]. *)
Definition is_vfloat (r : res value) : bool :=
  match r with inr (VFloat _) => true | _ => false end.

Definition is_float (v : value) : bool :=
  match v with VInt _ => false | _ => true end.

Module CopyRun.

Import Name.
Local Open Scope float_scope.

(** The number of cells of every array: [len(time_array)]. *)
Definition cells : nat := Z.to_nat 96000.

(** The arrays of [copyandpaste.py]. *)
Definition arrays : list arr :=
  [plasma_velocity_array; lorentz_factor_array; energy_density_array;
   field_strength_array; temperature_array; pressure_array;
   quantum_tunneling_probability_array; spacetime_curvature_array;
   volume_array].

(** Line 50 on doubles, with the constants of the script. *)
Definition euler (v : float) : float := v + (9.81 - 0.00001 * v) * 0.1.

(** Lines 54-57 on the number of observers. *)
Definition crowd (i : Z) (o : value) : res value :=
  rbind (Py.mod_ (VInt i) (VInt 45)) (fun m =>
    if Py.eq m (VInt 0)
    then rbind (Py.mul o (VInt 2)) (fun o2 =>
           ok (if Py.gt o2 (VFloat 1e6) then VFloat 1e6 else o2))
    else ok o).

(** What iteration [i] needs of the velocity and of the observers it
    starts from, so as not to raise. *)
Definition ready (i : Z) (v : float) (o : value) : bool :=
  let v' := euler v in
  Py.lt (VFloat v') (VFloat 3e8)
  && is_vfloat (Py.pow (VFloat (v' / 3e8)) 2)
  && is_vfloat (Py.pow (VFloat v') 2)
  && match crowd i o with
     | inr o' =>
         is_vfloat (Py.mul (VFloat 1.1) o')
         && is_vfloat (Py.mul o' (VFloat 1.0))
     | inl _ => false
     end.

(** The Lorentz factor of line 51 when the first branch is taken. *)
Definition gamma (v : float) : float :=
  1 / sqrt (1 - Double.pow (v / 3e8) 2).

(** The scalars an iteration reads before it writes them, and the arrays,
    between two iterations: [v], [T], [P] and [o] are the velocity, the
    temperature, the pressure and the number of observers, [lT] is the
    temperature array. *)
Record Inv (v T P : float) (o : value) (lT : list float) (s : state)
  : Prop := {
  inv_c : vars s c = Some (VFloat 3e8);
  inv_acceleration : vars s acceleration = Some (VFloat 9.81);
  inv_damping_factor : vars s damping_factor = Some (VFloat 0.00001);
  inv_cap_value : vars s cap_value = Some (VFloat 1e24);
  inv_influence : vars s observer_influence_factor = Some (VFloat 1.1);
  inv_interval : vars s observer_interval = Some (VInt 45);
  inv_volume_per_observer : vars s volume_per_observer = Some (VFloat 1.0);
  inv_total_time : vars s total_time = Some (VInt 9600);
  inv_time_steps : vars s time_steps = Some (VInt 96000);
  inv_dt : vars s dt = Some (VFloat 0.1);
  inv_plasma_velocity : vars s plasma_velocity = Some (VFloat v);
  inv_temperature : vars s temperature = Some (VFloat T);
  inv_pressure : vars s pressure = Some (VFloat P);
  inv_observers : vars s current_observers = Some o;
  inv_field_strength :
    exists fs, vars s field_strength = Some fs /\ is_float fs = true;
  inv_time_array :
    exists l, arrs s time_array = Some l /\ length l = cells;
  inv_temperature_array :
    arrs s temperature_array = Some lT /\ length lT = cells;
  inv_arrays :
    forall a, In a arrays ->
              exists l, arrs s a = Some l /\ length l = cells
}.

(** The scalars whose values do not depend on the C library. *)
Record scalars : Set := {
  velocity : float;
  observers : value;
  temperature_ : float;
  pressure_ : float
}.

(** Lines 40-44: the initial conditions. *)
Definition start : scalars :=
  {| velocity := 0; observers := VInt 1;
     temperature_ := 1e7; pressure_ := 100000 |}.

(** Lines 50, 54-57, 74 and 77 on these scalars, in iteration [i]. *)
Definition next (i : Z) (a : scalars) : scalars :=
  {| velocity := euler (velocity a);
     observers := match crowd i (observers a) with
                  | inr o' => o'
                  | inl _ => observers a
                  end;
     temperature_ := temperature_ a + 1e5 * 0.1;
     pressure_ := pressure_ a + 500 * 0.1 |}.

(** The scalars after [k] iterations. *)
Definition at_ (k : nat) : scalars := orbit next start k.

(** Iteration [k + 1] can run from the scalars after [k] iterations. *)
Definition ready_at (k : Z) (a : scalars) : bool :=
  ready (k + 1) (velocity a) (observers a).

(** [np.arange(0, total_time, dt)]. *)
Definition times : list float :=
  map (Np.arange_cell 0 0.1) (Np.iota 0 cells).

(** The store the prelude leaves. *)
Definition initial {libm : Np.Libm} : state := fst (Copy.prelude empty).

(** The first [k] iterations of the loop. *)
Definition first {libm : Np.Libm} (k : nat) : M nat :=
  for_in (range 1 (1 + Z.of_nat k)) Copy.iteration.

End CopyRun.

(** ** The temperature update *)

Section Heats.

Import Name.

(** The temperature update of one iteration, as a relation between the
    store before and the store after. *)
Definition heats (i : Z) (s s' : state) : Prop :=
  exists T t m T' l l',
    vars s temperature = Some T /\ vars s dt = Some t /\
    Py.mul (VFloat 1e5) t = ok m /\ Py.add T m = ok T' /\
    vars s' temperature = Some T' /\ vars s' dt = Some t /\
    arrs s temperature_array = Some l /\
    Np.setitem l i T' = ok l' /\
    arrs s' temperature_array = Some l'.

End Heats.

Module CopyLoop.

(** The number of iterations of the loop of [copyandpaste.py]. *)
Definition steps : nat := Z.to_nat 95999.

(** What holds of the store after [k] iterations of the run. *)
Definition reached {libm : Np.Libm} (k : nat) (s : state) : Prop :=
  exists lT,
    CopyRun.first k CopyRun.initial = (s, inr k) /\
    CopyRun.Inv (CopyRun.velocity (CopyRun.at_ k))
                (CopyRun.temperature_ (CopyRun.at_ k))
                (CopyRun.pressure_ (CopyRun.at_ k))
                (CopyRun.observers (CopyRun.at_ k)) lT s /\
    (forall j, (1 <= j <= k)%nat ->
               nth j lT 0%float = CopyRun.temperature_ (CopyRun.at_ j)) /\
    ((1 <= k)%nat ->
     vars s Name.lorentz_factor
       = Some (VNp (CopyRun.gamma (CopyRun.velocity (CopyRun.at_ k))))) /\
    nth 0 lT 0%float = 0%float.

End CopyLoop.

(** ** The run of alien_weaponry.py *)

Module AlienRun.

Import Name.
Local Open Scope float_scope.

(** The number of cells of every array: [len(time_array)]. *)
Definition cells : nat := Z.to_nat 69000.

(** [np.arange(0, total_time, dt)]. *)
Definition times : list float :=
  map (Np.arange_cell 0 0.1) (Np.iota 0 cells).

(** Lines 52 and 67: the acceleration at [time_array[i]]. *)
Definition ramp (i : Z) : float :=
  2.2 + (13.81 - 2.2) * (Np.arange_cell 0 0.1 i / 6900).

(** Line 70 on doubles, with the constants of the script. *)
Definition euler (i : Z) (v : float) : float :=
  v + (ramp i - 0.00001 * v) * 0.1.

(** The Lorentz factor of line 73. *)
Definition gamma (v : float) : float :=
  1 / sqrt (1 - Double.pow (v / 3e8) 2).

(** Line 76: the magnetic pressure. *)
Definition squeeze : float := 1600 / (2 * 1.2566370614359173e-06).

(** Lines 80-81 on the number of observers. *)
Definition crowd (i : Z) (o : value) : res value :=
  rbind (Py.mod_ (VInt i) (VInt 100)) (fun m =>
    if Py.eq m (VInt 0) && Py.lt o (VFloat 1e6)
    then Py.add o (VInt 2)
    else ok o).

(** What iteration [i] needs of the velocity and of the observers it
    starts from, so that the velocity is not capped and no operation
    raises. *)
Definition ready (i : Z) (v : float) (o : value) : bool :=
  negb (Py.ge (VNp (euler i v)) (VFloat 3e8))
  && match crowd i o with
     | inr o' =>
         is_vfloat (Py.mul (VFloat 1.1) o')
         && is_vfloat (Py.mul o' (VFloat 1.0))
     | inl _ => false
     end.

(** The plasma velocity is a Python [float] before the first iteration
    and a NumPy scalar afterwards. *)
Definition speed (np : bool) (v : float) : value :=
  if np then VNp v else VFloat v.

(** The scalars an iteration reads before it writes them, and the arrays,
    between two iterations. *)
Record Inv (np : bool) (v T : float) (o : value) (lT : list float)
    (s : state) : Prop := {
  inv_c : vars s c = Some (VFloat 3e8);
  inv_B : vars s B = Some (VInt 40);
  inv_initial_acceleration :
    vars s initial_acceleration = Some (VFloat 2.2);
  inv_max_acceleration : vars s max_acceleration = Some (VFloat 13.81);
  inv_damping_factor : vars s damping_factor = Some (VFloat 0.00001);
  inv_mass_particle : vars s mass_particle = Some (VFloat 1.70e-27);
  inv_cap_value : vars s cap_value = Some (VFloat 1e35);
  inv_influence : vars s observer_influence_factor = Some (VFloat 1.1);
  inv_interval : vars s observer_interval = Some (VInt 100);
  inv_volume_per_observer : vars s volume_per_observer = Some (VFloat 1.0);
  inv_total_time : vars s total_time = Some (VInt 6900);
  inv_time_steps : vars s time_steps = Some (VInt 69000);
  inv_dt : vars s dt = Some (VFloat 0.1);
  inv_mu_0 : vars s mu_0 = Some (VFloat 1.2566370614359173e-06);
  inv_plasma_velocity : vars s plasma_velocity = Some (speed np v);
  inv_temperature : vars s temperature = Some (VFloat T);
  inv_observers : vars s current_observers = Some o;
  inv_field_strength :
    exists fs, vars s field_strength = Some fs /\ is_float fs = true;
  inv_time_array : arrs s time_array = Some times;
  inv_temperature_array :
    arrs s temperature_array = Some lT /\ length lT = cells;
  inv_arrays :
    forall a, In a result_arrays ->
              exists l, arrs s a = Some l /\ length l = cells
}.

(** The scalars whose values do not depend on the C library. *)
Record scalars : Set := {
  velocity : float;
  observers : value;
  temperature_ : float
}.

(** Lines 40-48: the initial conditions. *)
Definition start : scalars :=
  {| velocity := 0; observers := VInt 1; temperature_ := 1e7 |}.

(** Lines 70, 80-81 and 98 on these scalars, in iteration [i]. *)
Definition next (i : Z) (a : scalars) : scalars :=
  {| velocity := euler i (velocity a);
     observers := match crowd i (observers a) with
                  | inr o' => o'
                  | inl _ => observers a
                  end;
     temperature_ := temperature_ a + 1e5 * 0.1 |}.

(** The scalars after [k] iterations. *)
Definition at_ (k : nat) : scalars := orbit next start k.

(** Iteration [k + 1] can run from the scalars after [k] iterations. *)
Definition ready_at (k : Z) (a : scalars) : bool :=
  ready (k + 1) (velocity a) (observers a).

(** The store the prelude leaves. *)
Definition initial {libm : Np.Libm} : state := fst (Alien.prelude empty).

(** The first [k] iterations of the loop. *)
Definition first {libm : Np.Libm} (k : nat) : M nat :=
  for_in (range 1 (1 + Z.of_nat k)) Alien.iteration.

End AlienRun.

Module AlienLoop.

(** The number of iterations of the loop of [alien_weaponry.py]. *)
Definition steps : nat := Z.to_nat 68999.

(** What holds of the store after [k] iterations of the run. *)
Definition reached {libm : Np.Libm} (k : nat) (s : state) : Prop :=
  exists lT,
    AlienRun.first k AlienRun.initial = (s, inr k) /\
    AlienRun.Inv (negb (Nat.eqb k 0))
                 (AlienRun.velocity (AlienRun.at_ k))
                 (AlienRun.temperature_ (AlienRun.at_ k))
                 (AlienRun.observers (AlienRun.at_ k)) lT s /\
    (forall j, (1 <= j <= k)%nat ->
               nth j lT 0%float = AlienRun.temperature_ (AlienRun.at_ j)) /\
    ((1 <= k)%nat ->
     vars s Name.lorentz_factor
       = Some (VNp (AlienRun.gamma (AlienRun.velocity (AlienRun.at_ k))))) /\
    nth 0 lT 0%float = 0%float.

End AlienLoop.

(** ** Formulas of the runs, in Python's terms *)

Module Claim.

Import Name.
Local Open Scope float_scope.

(** [v + (a - d * v) * t] *)
Definition forward_euler (v a d t : value) : res value :=
  rbind (Py.mul d v) (fun dv =>
  rbind (Py.sub a dv) (fun r =>
  rbind (Py.mul r t) (fun inc => Py.add v inc))).

(** [a0 + (a1 - a0) * (t / total)] *)
Definition interpolate (a0 a1 t total : value) : res value :=
  rbind (Py.sub a1 a0) (fun span =>
  rbind (Py.truediv t total) (fun frac =>
  rbind (Py.mul span frac) (fun x => Py.add a0 x))).

(** Between the stores [s] and [s'] the plasma velocity has advanced by
    one forward-Euler step under the acceleration [a], with the
    [damping_factor] and the [dt] of [s]. *)
Definition euler_step (s s' : state) (a : value) : Prop :=
  exists v d h v',
    vars s plasma_velocity = Some v /\
    vars s damping_factor = Some d /\ vars s dt = Some h /\
    forward_euler v a d h = ok v' /\
    vars s' plasma_velocity = Some v'.

(** [a] is the acceleration interpolated at [time_array[i]], between the
    [initial_acceleration] and the [max_acceleration] of [s]. *)
Definition ramp_at (s : state) (i : Z) (a : value) : Prop :=
  exists ta t a0 a1 total,
    arrs s time_array = Some ta /\ Np.getitem ta i = ok t /\
    vars s initial_acceleration = Some a0 /\
    vars s max_acceleration = Some a1 /\
    vars s total_time = Some total /\
    interpolate a0 a1 t total = ok a.

(** [1e7 + k * 1e5 * dt] *)
Definition warmth (k : Z) (dt_ : value) : res value :=
  rbind (Py.mul (VInt k) (VFloat 1e5)) (fun x =>
  rbind (Py.mul x dt_) (fun y => Py.add (VFloat 1e7) y)).

(** The entries of [time_array] are as many as [time_steps], which is
    [total_time / dt]; the loop has carried out one iteration less. *)
Definition sized (s : state) (n : nat) (entries : Z) : Prop :=
  exists ta tt d q,
    arrs s time_array = Some ta /\
    Z.of_nat (length ta) = entries /\
    vars s time_steps = Some (VInt entries) /\
    vars s total_time = Some tt /\ vars s dt = Some d /\
    Py.truediv tt d = ok q /\ Py.eq q (VInt entries) = true /\
    (Z.of_nat n = entries - 1)%Z.

End Claim.

(** ** Lines of the loop body, on values *)

Module Capping.

Local Open Scope float_scope.

(** [if x > cap: x = cap] *)
Definition clamp (x cap : value) : value :=
  if Py.gt x cap then cap else x.

Section Field.

Context {libm : Np.Libm}.

(** The field strength after the update of this iteration and its cap:
    [fs * np.log1p(influence * observers)], then clamped. *)
Definition field (influence observers fs cap : value) : res value :=
  rbind (Py.mul influence observers) (fun x =>
  rbind (Py.ufunc Np.log1p x) (fun factor =>
  rbind (Py.mul fs factor) (fun p => ok (clamp p cap)))).

End Field.

(** [min(0.5 * (fs**2) * (pv**2), cap)] *)
Definition energy (fs pv cap : value) : res value :=
  rbind (Py.pow fs 2) (fun f2 =>
  rbind (Py.mul (VFloat 0.5) f2) (fun h =>
  rbind (Py.pow pv 2) (fun v2 =>
  rbind (Py.mul h v2) (fun e => ok (Py.min e cap))))).

(** An iteration from [s] to [s'] has updated the field strength and the
    energy density as lines 60-68 say: [fs'] and [e'] are their values
    in [s'] and [cap] is [cap_value]. *)
Definition updated {libm : Np.Libm} (s s' : state) (fs' e' cap : value)
  : Prop :=
  exists fs influence observers pv,
    vars s Name.field_strength = Some fs /\
    vars s' Name.observer_influence_factor = Some influence /\
    vars s' Name.cap_value = Some cap /\
    vars s' Name.current_observers = Some observers /\
    vars s' Name.plasma_velocity = Some pv /\
    field influence observers fs cap = ok fs' /\
    energy fs' pv cap = ok e' /\
    vars s' Name.field_strength = Some fs' /\
    vars s' Name.energy_density = Some e'.

(** After the iteration both are at most [cap_value], which is
    [bound]. *)
Definition capped_step {libm : Np.Libm} (bound : float) (s s' : state)
  : Prop :=
  exists fs' e',
    updated s s' fs' e' (VFloat bound) /\
    Py.le fs' (VFloat bound) = true /\ Py.le e' (VFloat bound) = true.

(** The C library's [log1p] maps the finite doubles from 0 on to finite
    doubles from 0 on. *)
Definition sane (libm : Np.Libm) : Prop :=
  forall x, (0 <=? x) = true -> (x <? infinity) = true ->
            (0 <=? Np.log1p x) = true /\ (Np.log1p x <? infinity) = true.

(** The field strength lies between 0 and [cap]. *)
Definition within (cap : value) (s : state) : Prop :=
  exists fs, vars s Name.field_strength = Some fs /\
             is_float fs = true /\
             Py.le (VFloat 0) fs = true /\ Py.le fs cap = true.

End Capping.

(** ** The Lorentz factor of copyandpaste.py, on values *)

Module Lorentz.

Import Name.

(** [1 - (v / c)**2] *)
Definition root_argument (v cv : value) : res value :=
  rbind (Py.truediv v cv) (fun q =>
  rbind (Py.pow q 2) (fun q2 => Py.sub (VInt 1) q2)).

(** [1 / np.sqrt(x)] *)
Definition factor (x : value) : res value :=
  rbind (Py.ufunc PrimFloat.sqrt x) (fun r => Py.truediv (VInt 1) r).

(** The velocity is below [c] and at most the terminal velocity
    [acceleration / damping_factor]; the argument of the square root is
    positive; [lorentz_factor] holds the value of the first branch. *)
Definition subluminal (s : state) : Prop :=
  exists v cv a d vt x g,
    vars s plasma_velocity = Some v /\ vars s c = Some cv /\
    Py.eq cv (VFloat 3e8) = true /\
    vars s acceleration = Some a /\ vars s damping_factor = Some d /\
    Py.truediv a d = ok vt /\ Py.eq vt (VFloat 9.81e5) = true /\
    Py.le v vt = true /\ Py.lt v cv = true /\
    root_argument v cv = ok x /\ Py.gt x (VInt 0) = true /\
    factor x = ok g /\ vars s lorentz_factor = Some g.

End Lorentz.

(** ** The temperature, on values *)

Module Warmth.

Import Name.
Local Open Scope float_scope.

(** After [k] iterations [temperature] is [1e7 + k * 1e5 * dt], each
    iteration having added [1e5 * dt = 1e4]; the cells of
    [temperature_array] written so far increase strictly with the
    index. *)
Definition closed_form (s : state) (k : nat) : Prop :=
  exists T d w inc lT,
    vars s temperature = Some T /\ vars s dt = Some d /\
    Claim.warmth (Z.of_nat k) d = ok w /\ Py.eq T w = true /\
    Py.mul (VFloat 1e5) d = ok inc /\ Py.eq inc (VFloat 1e4) = true /\
    arrs s temperature_array = Some lT /\
    forall i j, (i < j <= k)%nat -> (nth i lT 0 <? nth j lT 0) = true.

End Warmth.

(** ** What is computed for every iteration *)

Module Facts.

Local Open Scope float_scope.

(** The velocity [v] an iteration of [copyandpaste.py] has computed. *)
Definition subluminal (v : float) : bool :=
  Py.lt (VFloat v) (VFloat 3e8) && Py.le (VFloat v) (VFloat 9.81e5)
  && match Lorentz.root_argument (VFloat v) (VFloat 3e8) with
     | inr x => Py.gt x (VInt 0)
     | inl _ => false
     end.

(** The temperature [T'] an iteration has computed from [T], [k]
    iterations in all having run. *)
Definition warm (k : Z) (T T' : float) : bool :=
  match Claim.warmth k (VFloat 0.1) with
  | inr w => Py.eq (VFloat T') w
  | inl _ => false
  end
  && (T <? T') && (0 <? T').

(** The velocity [v] and the observers [o] an iteration has computed:
    the argument of [log1p] is a finite double from 0 on, the square of
    the velocity a finite double above 0. *)
Definition calm (v : float) (o : value) : bool :=
  match Py.mul (VFloat 1.1) o with
  | inr (VFloat x) => (0 <=? x) && (x <? infinity)
  | _ => false
  end
  && (0 <? Double.pow v 2) && (Double.pow v 2 <? infinity).

Definition copy_subluminal_at (k : Z) (a : CopyRun.scalars) : bool :=
  subluminal (CopyRun.velocity (CopyRun.next (k + 1) a)).

Definition copy_warm_at (k : Z) (a : CopyRun.scalars) : bool :=
  warm (k + 1) (CopyRun.temperature_ a)
       (CopyRun.temperature_ (CopyRun.next (k + 1) a)).

Definition copy_calm_at (k : Z) (a : CopyRun.scalars) : bool :=
  calm (CopyRun.velocity (CopyRun.next (k + 1) a))
       (CopyRun.observers (CopyRun.next (k + 1) a)).

Definition alien_warm_at (k : Z) (a : AlienRun.scalars) : bool :=
  warm (k + 1) (AlienRun.temperature_ a)
       (AlienRun.temperature_ (AlienRun.next (k + 1) a)).

Definition alien_calm_at (k : Z) (a : AlienRun.scalars) : bool :=
  calm (AlienRun.velocity (AlienRun.next (k + 1) a))
       (AlienRun.observers (AlienRun.next (k + 1) a)).

End Facts.

(** ** The observers and the time axis of the two runs *)

Module Observers.

Local Open Scope float_scope.

(** Whether two values are the same value of the same type. *)
Definition same_value (a b : value) : bool :=
  match a, b with
  | VInt x, VInt y => (x =? y)%Z
  | VFloat x, VFloat y => Double.same x y
  | VNp x, VNp y => Double.same x y
  | _, _ => false
  end.

(** [copyandpaste.py], after [k] iterations: the observers have doubled
    once per 45 iterations, as an [int], until the double exceeded [1e6];
    from then on they are the [float] [1e6]. *)
Definition doubled (k : Z) : value :=
  if (k / 45 <? 20)%Z then VInt (2 ^ (k / 45)) else VFloat 1e6.

(** [alien_weaponry.py], after [k] iterations: two observers have been
    added once per 100 iterations. *)
Definition added (k : Z) : value := VInt (1 + 2 * (k / 100)).

Definition copy_doubled_at (k : Z) (a : CopyRun.scalars) : bool :=
  same_value (CopyRun.observers (CopyRun.next (k + 1) a)) (doubled (k + 1))
  && Py.le (CopyRun.observers (CopyRun.next (k + 1) a)) (VFloat 1e6).

Definition alien_added_at (k : Z) (a : AlienRun.scalars) : bool :=
  same_value (AlienRun.observers (AlienRun.next (k + 1) a)) (added (k + 1))
  && Py.lt (AlienRun.observers (AlienRun.next (k + 1) a)) (VFloat 1e6).

End Observers.

Module TimeAxis.

Local Open Scope float_scope.

(** Two neighbouring cells of [np.arange(0, total_time, dt)] with
    [dt = 0.1]: cells [0] and [1], and from cells [k - 1] and [k] the
    cells [k] and [k + 1]. *)
Definition start : float * float :=
  (Np.arange_cell 0 0.1 0, Np.arange_cell 0 0.1 1).

Definition shift (k : Z) (a : float * float) : float * float :=
  (snd a, Np.arange_cell 0 0.1 (k + 1)).

Definition rising (_ : Z) (a : float * float) : bool := fst a <? snd a.

(** The time axis a prelude has left in the store [s]: [entries] cells,
    the first one 0, strictly increasing, all below [total_time]. *)
Definition laid_out (s : state) (entries : nat) : Prop :=
  exists ta total stop,
    arrs s Name.time_array = Some ta /\ length ta = entries /\
    vars s Name.total_time = Some total /\
    Py.to_double total = ok stop /\
    nth 0 ta 0 = 0 /\
    (forall i j, (i < j < entries)%nat ->
                 (nth i ta 0 <? nth j ta 0) = true) /\
    (forall i, (i < entries)%nat -> (nth i ta 0 <? stop) = true).

End TimeAxis.

(** ** The velocity cap of alien_weaponry.py *)

Module Cap.

Import Name.

(** [v1] is the velocity lines 67-70 compute in iteration [i] from the
    store [s], before the cap of lines 71-72 is applied. *)
Definition updated_velocity (s : state) (i : Z) (v1 : value) : Prop :=
  exists a v d h,
    Claim.ramp_at s i a /\
    vars s plasma_velocity = Some v /\
    vars s damping_factor = Some d /\ vars s dt = Some h /\
    Claim.forward_euler v a d h = ok v1.

End Cap.

(** ** remove_non_finite *)

(** [remove_non_finite(data)]: [data[np.isfinite(data)]], the cells that are
    neither NaN nor an infinity, in their order. *)
Definition remove_non_finite (data : list float) : list float :=
  filter is_finite data.

Module Plotted.

Import Name.

(** The arrays the histograms and the box plots take through
    [remove_non_finite]. *)
Definition arrays : list arr :=
  [plasma_velocity_array; lorentz_factor_array; energy_density_array;
   field_strength_array].

(** Every cell of these arrays is finite. *)
Definition all_finite (s : state) : Prop :=
  forall a, In a arrays ->
            exists l, arrs s a = Some l /\ forallb is_finite l = true.

(** [remove_non_finite] gives these arrays back as they are. *)
Definition untouched (s : state) : Prop :=
  forall a, In a arrays ->
            exists l, arrs s a = Some l /\ remove_non_finite l = l.

(** What an iteration has stored in cell [i] of these arrays: the
    scalars of the same names. *)
Definition stored (i : Z) (s s' : state) : Prop :=
  Forall (fun ax : arr * var =>
            exists v l l',
              vars s' (snd ax) = Some v /\ arrs s (fst ax) = Some l /\
              Np.setitem l i v = ok l' /\ arrs s' (fst ax) = Some l')
    [(plasma_velocity_array, plasma_velocity);
     (lorentz_factor_array, lorentz_factor);
     (energy_density_array, energy_density);
     (field_strength_array, field_strength)].

(** The Lorentz factor an iteration has computed is finite. *)
Definition copy_gamma_at (k : Z) (a : CopyRun.scalars) : bool :=
  is_finite (CopyRun.gamma (CopyRun.velocity (CopyRun.next (k + 1) a))).

Definition alien_gamma_at (k : Z) (a : AlienRun.scalars) : bool :=
  is_finite (AlienRun.gamma (AlienRun.velocity (AlienRun.next (k + 1) a))).

End Plotted.

(** ** The surface of the last figure *)

Module Surface.

Import Name.

(** A two-dimensional NumPy array of doubles, row by row. *)
Definition grid : Type := list (list float).

(** [np.zeros_like(X)] for the [X] of [np.meshgrid(observer_factors,
    time_array)]: one row per time step, one column per factor. *)
Definition zeros (rows cols : nat) : grid := repeat (Np.zeros cols) rows.

Fixpoint put {A : Type} (l : list A) (k : nat) (x : A) : list A :=
  match l, k with
  | [], _ => []
  | _ :: t, O => x :: t
  | h :: t, S k' => h :: put t k' x
  end.

(** The cell [g[r, c]] (0 outside the array). *)
Definition get (g : grid) (r c : nat) : float := nth c (nth r g []) 0%float.

(** [g[i, j] = v]: both indices are checked against the shape. *)
Definition setitem (g : grid) (i j : Z) (v : value) : res grid :=
  rbind (Py.to_double v) (fun x =>
  rbind (Np.index (length g) i) (fun r =>
  rbind (Np.index (length (nth r g [])) j) (fun c =>
  ok (put g r (Np.update (nth r g []) c x))))).

(** [enumerate(a)] *)
Definition enumerate (a : list float) : list (Z * float) :=
  combine (Np.iota 0 (length a)) a.

(** [for x in l: body], the body updating the array [z] in place. *)
Fixpoint for_each {B A : Type} (l : list B) (body : B -> A -> M A) (z : A)
  : M A :=
  match l with
  | [] => ret z
  | x :: l' => z' <- body x z ;; for_each l' body z'
  end.

Section Loops.

Context {libm : Np.Libm}.

Definition np_log1p (e : M value) : M value := op1 (Py.ufunc Np.log1p) e.

(** The statements of the inner loop before the store, and the value
    they leave in [field_strength]; [bump] is the statement under the
    [if]. *)
Definition value_at (bump : M unit) (i : Z) : M value :=
  when (int_ i .% $observer_interval .== int_ 0) bump ;;
  observer_factor ::=
    np_log1p ($observer_influence_factor .* $current_observers) ;;
  field_strength ::= $field_strength .* $observer_factor ;;
  field_strength ::= np_log1p $field_strength ;;
  $field_strength.

(** One pass of the inner loop: the statements, then
    [Z[i, j] = field_strength]. *)
Definition cell (bump : M unit) (j i : Z) (z : grid) : M grid :=
  v <- value_at bump i ;; lift (setitem z i j v).

(** One pass of the outer loop, for the pair [(j, factor)] of
    [enumerate(observer_factors)]: [factor] is bound and never read. *)
Definition column (bump : M unit) (fs0 : float) (jf : Z * float)
    (z : grid) : M grid :=
  current_observers ::= $initial_observers ;;
  field_strength ::= flt fs0 ;;
  n <- len time_array ;;
  for_each (range 1 (Z.of_nat n)) (cell bump (fst jf)) z.

(** From [observer_factors = np.arange(1.0, 1.6, 0.1)] to the end of
    the two loops; the result is [Z]. *)
Definition surface (bump : M unit) (fs0 : float) : M grid :=
  factors <- lift (Np.arange (VFloat 1.0) (VFloat 1.6) (VFloat 0.1)) ;;
  n <- len time_array ;;
  for_each (enumerate factors) (column bump fs0)
           (zeros n (length factors)).

(** [copyandpaste.py], lines 235-248. *)
Definition copy_surface : M grid :=
  surface (current_observers ::= $current_observers .* int_ 1) 1e20.

(** [alien_weaponry.py], lines 229-242. *)
Definition alien_surface : M grid :=
  surface (current_observers ::= $current_observers .+ int_ 1) 1e-20.

(** The observers and the field strength after one pass of the inner
    loop, from the ones before it; [bump] is the operation under the
    [if]. *)
Definition advance (bump : value -> res value) (interval influence : value)
    (i : Z) (a : value * value) : res (value * value) :=
  rbind (Py.mod_ (VInt i) interval) (fun m =>
  rbind (if Py.eq m (VInt 0) then bump (fst a) else ok (fst a)) (fun o =>
  rbind (Py.mul influence o) (fun x =>
  rbind (Py.ufunc Np.log1p x) (fun f =>
  rbind (Py.mul (snd a) f) (fun p =>
  rbind (Py.ufunc Np.log1p p) (fun q => ok (o, q))))))).

(** The values the inner loop stores, pass by pass. *)
Fixpoint trace (bump : value -> res value) (interval influence : value)
    (l : list Z) (a : value * value) : res (list value) :=
  match l with
  | [] => ok []
  | i :: l' =>
      rbind (advance bump interval influence i a) (fun a' =>
      rbind (trace bump interval influence l' a') (fun vs =>
      ok (snd a' :: vs)))
  end.

End Loops.

(** Storing the values [vs] in column [j], at the rows [l]. *)
Fixpoint writes (z : grid) (j : Z) (l : list Z) (vs : list value)
  : res grid :=
  match l, vs with
  | [], _ => ok z
  | i :: l', v :: vs' =>
      rbind (setitem z i j v) (fun z' => writes z' j l' vs')
  | _ :: _, [] => fail IndexError
  end.

(** The double a value is stored as. *)
Definition double_of (v : value) : float :=
  match Py.to_double v with
  | inr x => x
  | inl _ => 0%float
  end.

(** The store [s'] has kept what the two loops only read. *)
Definition kept (s s' : state) : Prop :=
  vars s' initial_observers = vars s initial_observers /\
  vars s' observer_interval = vars s observer_interval /\
  vars s' observer_influence_factor = vars s observer_influence_factor /\
  arrs s' time_array = arrs s time_array.

(** An array of [rows] rows of [cols] cells each. *)
Definition shaped (rows cols : nat) (z : grid) : Prop :=
  length z = rows /\ Forall (fun row => length row = cols) z.

(** The cells of a row are all the same double. *)
Definition flat (row : list float) : Prop :=
  forall x y, In x row -> In y row -> x = y.

End Surface.

(** * Theory *)

(** ** Reasoning about computations *)

Lemma pure_ret {A} (a : A) : pure (ret a).
Proof. intro s; reflexivity. Qed.

Lemma pure_raise {A} (e : exn) : pure (@raise A e).
Proof. intro s; reflexivity. Qed.

Lemma pure_lift {A} (r : res A) : pure (lift r).
Proof. intro s; reflexivity. Qed.

Lemma pure_load x : pure (load x).
Proof. intro s; unfold load; destruct (vars s x); reflexivity. Qed.

Lemma pure_load_arr a : pure (load_arr a).
Proof. intro s; unfold load_arr; destruct (arrs s a); reflexivity. Qed.

Lemma pure_bind {A C} (m : M A) (k : A -> M C) :
  pure m -> (forall a, pure (k a)) -> pure (bind m k).
Proof.
  intros Hm Hk s. unfold bind. specialize (Hm s).
  destruct (m s) as [s1 [e | a]]; cbn in *; subst; [reflexivity | apply Hk].
Qed.

Lemma pure_if {A} (b : bool) (e1 e2 : M A) :
  pure e1 -> pure e2 -> pure (if b then e1 else e2).
Proof. destruct b; auto. Qed.

Ltac pure_tac :=
  repeat first
    [ apply pure_ret | apply pure_raise | apply pure_lift | apply pure_load
    | apply pure_load_arr | apply pure_if
    | apply pure_bind; [| intro]
    | match goal with |- pure (match ?v with _ => _ end) => destruct v end
    | progress unfold op2, op1, cmp2, and_, ifexp, getitem, len, int_, flt,
        min_, np_sqrt, subscript_scalar,
        Copy.np_log1p, Copy.np_exp, Alien.np_log1p, Alien.np_exp,
        Alien.np_tanh, Alien.increasing_acceleration,
        Alien.magnetic_pressure_effect ].

Lemma pure_run {A} (e : M A) s : pure e -> e s = (s, eval e s).
Proof. intro H. unfold eval. rewrite <- (H s) at 2. destruct (e s); reflexivity. Qed.

Lemma bind_inv {A C} (m : M A) (k : A -> M C) s s' c :
  bind m k s = (s', inr c) ->
  exists s1 a, m s = (s1, inr a) /\ k a s1 = (s', inr c).
Proof.
  unfold bind. destruct (m s) as [s1 [e | a]]; [discriminate |].
  intro H. exists s1, a. auto.
Qed.

Lemma assign_inv x e s s' u :
  pure e -> assign x e s = (s', inr u) ->
  exists v, eval e s = ok v /\ s' = bind_var x v s.
Proof.
  intros He H. apply bind_inv in H as (s1 & v & H1 & H2).
  rewrite (pure_run e s He) in H1. inversion H1; subst s1.
  exists v. split; [assumption |]. unfold store in H2. congruence.
Qed.

Lemma setitem_inv a i e s s' u :
  pure e -> setitem a i e s = (s', inr u) ->
  exists v l l', eval e s = ok v /\ arrs s a = Some l /\
    Np.setitem l i v = ok l' /\ s' = bind_arr a l' s.
Proof.
  intros He H. apply bind_inv in H as (s1 & v & Ev & K).
  rewrite (pure_run e s He) in Ev.
  assert (s1 = s) by congruence. assert (eval e s = ok v) by (unfold ok; congruence).
  subst s1. clear Ev.
  apply bind_inv in K as (s2 & l & El & K).
  unfold load_arr in El. destruct (arrs s a) as [l0 |] eqn:Ha; [| discriminate].
  assert (s2 = s) by congruence. assert (l0 = l) by (unfold ok in El; congruence).
  subst s2 l0. clear El.
  apply bind_inv in K as (s3 & l' & Es & K).
  unfold lift in Es. assert (s3 = s) by congruence.
  assert (Np.setitem l i v = ok l') by (unfold ok; congruence). subst s3.
  exists v, l, l'. unfold store_arr in K. repeat split; try assumption; congruence.
Qed.

Lemma when_inv cond body s s' u :
  pure cond -> when cond body s = (s', inr u) ->
  exists b, eval cond s = ok b /\
    (if b then body s = (s', inr u) else s' = s).
Proof.
  intros Hc H. apply bind_inv in H as (s1 & b & H1 & H2).
  rewrite (pure_run cond s Hc) in H1. inversion H1; subst s1.
  exists b. split; [assumption |]. destruct b; [assumption |].
  unfold ret in H2. congruence.
Qed.

(** Cells and their updates. *)
Lemma length_update l k x : length (Np.update l k x) = length l.
Proof.
  revert k; induction l as [| h t IH]; intros [| k]; cbn; auto.
Qed.

Lemma nth_update_same l k x d :
  (k < length l)%nat -> nth k (Np.update l k x) d = x.
Proof.
  revert k; induction l as [| h t IH]; intros [| k] Hk; cbn in *; try lia; auto.
  apply IH; lia.
Qed.

Lemma nth_update_other l k j x d :
  k <> j -> nth j (Np.update l k x) d = nth j l d.
Proof.
  revert k j; induction l as [| h t IH]; intros [| k] [| j] Hkj; cbn;
    try reflexivity; try congruence.
  apply IH; congruence.
Qed.

Lemma index_bound n i k : Np.index n i = ok k -> (k < n)%nat.
Proof.
  unfold Np.index, ok, fail.
  destruct ((0 <=? i) && (i <? Z.of_nat n)) eqn:E1.
  - intro H; inversion H; subst. apply andb_prop in E1 as [Ha Hb]. lia.
  - destruct ((- Z.of_nat n <=? i) && (i <? 0)) eqn:E2; [| discriminate].
    intro H; inversion H; subst. apply andb_prop in E2 as [Ha Hb]. lia.
Qed.

Lemma getitem_setitem l i v l' :
  Np.setitem l i v = ok l' ->
  exists x, Py.to_double v = ok x /\ Np.getitem l' i = ok (VNp x) /\
            length l' = length l.
Proof.
  unfold Np.setitem, Np.getitem, rbind, ok.
  destruct (Py.to_double v) as [e | x]; [discriminate |].
  destruct (Np.index (length l) i) as [e | k] eqn:Hk; [discriminate |].
  intro H; inversion H; subst l'. exists x.
  rewrite length_update, Hk.
  rewrite nth_update_same by (eapply index_bound; eassumption). auto.
Qed.

Ltac inv_seq H :=
  let s1 := fresh "s" in let H1 := fresh "St" in
  let v := fresh "v" in let E := fresh "E" in
  match type of H with
  | bind _ _ _ = (_, inr _) =>
      apply bind_inv in H as (s1 & [] & H1 & H); inv_seq H1; inv_seq H
  | assign _ _ _ = (_, inr _) =>
      apply assign_inv in H as (v & E & ->); [| pure_tac]
  | setitem _ _ _ _ = (_, inr _) =>
      let l := fresh "l" in let l' := fresh "l" in
      let Ea := fresh "Ea" in let Es := fresh "Es" in
      apply setitem_inv in H as (v & l & l' & E & Ea & Es & ->); [| pure_tac]
  | when _ _ _ = (_, inr _) =>
      let b := fresh "b" in
      apply when_inv in H as (b & E & H); [| pure_tac];
      destruct b; [inv_seq H | subst]
  end.

Ltac look :=
  cbn [vars arrs bind_var bind_arr Name.var_beq Name.arr_beq] in * |- *.

(** Inversion of the value of an expression. *)
Lemma load_inv x s v : eval (load x) s = ok v -> vars s x = Some v.
Proof.
  unfold eval, load, ok. destruct (vars s x); cbn; intro H; inversion H; reflexivity.
Qed.

Lemma ret_inv {A} (a v : A) s : eval (ret a) s = ok v -> v = a.
Proof. unfold eval, ret, ok; cbn. congruence. Qed.

Lemma lift_inv {A} (r : res A) v s : eval (lift r) s = ok v -> r = ok v.
Proof. unfold eval, lift; cbn. auto. Qed.

Lemma bind_eval_inv {A C} (m : M A) (k : A -> M C) s v :
  pure m -> eval (bind m k) s = ok v ->
  exists a, eval m s = ok a /\ eval (k a) s = ok v.
Proof.
  intros Hm. unfold eval, bind. rewrite (pure_run m s Hm). unfold eval.
  destruct (snd (m s)) as [e | a]; cbn; [discriminate |]. eauto.
Qed.

Lemma op2_inv f e1 e2 s v :
  pure e1 -> pure e2 -> eval (op2 f e1 e2) s = ok v ->
  exists a b, eval e1 s = ok a /\ eval e2 s = ok b /\ f a b = ok v.
Proof.
  intros H1 H2 H. unfold op2 in H.
  apply bind_eval_inv in H as (a & Ha & H); [| assumption].
  apply bind_eval_inv in H as (b & Hb & H); [| assumption].
  apply lift_inv in H. eauto.
Qed.

Lemma op1_inv f e s v :
  pure e -> eval (op1 f e) s = ok v ->
  exists a, eval e s = ok a /\ f a = ok v.
Proof.
  intros H1 H. unfold op1 in H.
  apply bind_eval_inv in H as (a & Ha & H); [| assumption].
  apply lift_inv in H. eauto.
Qed.

Lemma cmp2_inv f e1 e2 s v :
  pure e1 -> pure e2 -> eval (cmp2 f e1 e2) s = ok v ->
  exists a b, eval e1 s = ok a /\ eval e2 s = ok b /\ v = f a b.
Proof.
  intros H1 H2 H. unfold cmp2 in H.
  apply bind_eval_inv in H as (a & Ha & H); [| assumption].
  apply bind_eval_inv in H as (b & Hb & H); [| assumption].
  apply ret_inv in H. eauto.
Qed.

Lemma getitem_inv a i s v :
  eval (getitem a i) s = ok v ->
  exists l, arrs s a = Some l /\ Np.getitem l i = ok v.
Proof.
  unfold eval, getitem, bind, load_arr, lift.
  destruct (arrs s a) as [l |]; cbn; [| discriminate]. eauto.
Qed.

Ltac inv_expr H :=
  let a := fresh "a" in let b := fresh "b" in
  let Ha := fresh "Ha" in let Hb := fresh "Hb" in
  match type of H with
  | eval (load _) _ = ok _ => apply load_inv in H
  | eval (int_ _) _ = ok _ => apply ret_inv in H; try subst
  | eval (flt _) _ = ok _ => apply ret_inv in H; try subst
  | eval (ret _) _ = ok _ => apply ret_inv in H; try subst
  | eval (getitem _ _) _ = ok _ => apply getitem_inv in H as (a & Ha & H)
  | eval (op2 _ _ _) _ = ok _ =>
      apply op2_inv in H as (a & b & Ha & Hb & H);
      [inv_expr Ha; inv_expr Hb | pure_tac | pure_tac]
  | eval (min_ _ _) _ = ok _ =>
      unfold min_ in H; inv_expr H
  | eval (op1 _ _) _ = ok _ =>
      apply op1_inv in H as (a & Ha & H); [inv_expr Ha | pure_tac]
  | eval (np_sqrt _) _ = ok _ => unfold np_sqrt in H; inv_expr H
  | eval (Copy.np_log1p _) _ = ok _ => unfold Copy.np_log1p in H; inv_expr H
  | eval (Copy.np_exp _) _ = ok _ => unfold Copy.np_exp in H; inv_expr H
  | eval (Alien.np_log1p _) _ = ok _ => unfold Alien.np_log1p in H; inv_expr H
  | eval (Alien.np_exp _) _ = ok _ => unfold Alien.np_exp in H; inv_expr H
  | eval (Alien.np_tanh _) _ = ok _ => unfold Alien.np_tanh in H; inv_expr H
  | eval (cmp2 _ _ _) _ = ok _ =>
      apply cmp2_inv in H as (a & b & Ha & Hb & H);
      [inv_expr Ha; inv_expr Hb | pure_tac | pure_tac]
  | _ => idtac
  end.

(** ** One iteration, from any store *)

Ltac inv_loads :=
  repeat match goal with
         | H : eval (load _) _ = ok _ |- _ => apply load_inv in H
         end.

Ltac same_some :=
  repeat match goal with
         | H1 : ?t = Some ?a, H2 : ?t = Some ?b |- _ =>
             rewrite H1 in H2
         | H : Some _ = Some _ |- _ => inversion H; clear H; subst
         end.

Section Iteration.

Context {libm : Np.Libm}.
Import Name.

Lemma curvature_chain e cv m c4 sc x :
  Py.mul (VInt 2) e = ok m -> Py.pow cv 4 = ok c4 ->
  Py.truediv m c4 = ok sc -> Py.to_double sc = ok x ->
  rbind (Py.mul (VInt 2) e) (fun m =>
    rbind (Py.pow cv 4) (fun c4 =>
      rbind (Py.truediv m c4) Py.to_double)) = ok x.
Proof.
  intros H1 H2 H3 H4. rewrite H1. cbn [rbind ok].
  rewrite H2. cbn [rbind ok]. rewrite H3. exact H4.
Qed.

Ltac curvature_tac :=
  match goal with
  | H : eval (_ ./ $c .** 4) _ = _ |- _ => inv_expr H
  end;
  inv_loads; look; same_some;
  repeat match goal with
         | H : Np.setitem _ _ _ = ok _ |- _ =>
             apply getitem_setitem in H as (? & ? & ? & ?)
         end;
  do 5 eexists;
  repeat match goal with |- _ /\ _ => split end;
    [ reflexivity | eassumption | reflexivity | eassumption
    | eapply curvature_chain; eassumption
    | reflexivity | eassumption ].

Lemma copy_curvature i s s' cv :
  vars s c = Some cv -> Copy.body i s = (s', inr tt) ->
  vars s' c = Some cv /\ Spec.curvature_stored cv s' i.
Proof.
  unfold Copy.body, Spec.curvature_stored. intros Hc H.
  inv_seq H; (split; [look; assumption |]); curvature_tac.
Qed.

Lemma alien_curvature i s s' cv :
  vars s c = Some cv -> Alien.body i s = (s', inr tt) ->
  vars s' c = Some cv /\ Spec.curvature_stored cv s' i.
Proof.
  unfold Alien.body, Spec.curvature_stored. intros Hc H.
  inv_seq H; (split; [look; assumption |]); curvature_tac.
Qed.

End Iteration.

(** C2.  In both scripts, an iteration [i] that completes without an
    exception leaves in cell [i] of [spacetime_curvature_array] the value of
    [2 * energy_density / c**4], for the energy density computed in that
    iteration and [c = 3e8]. *)
Theorem curvature_is_twice_energy_over_c4 (libm : Np.Libm) (i : Z) (s : state) :
  vars s Name.c = Some (VFloat 3e8) ->
  (forall s', Alien.body i s = (s', inr tt) ->
              Spec.curvature_stored (VFloat 3e8) s' i) /\
  (forall s', Copy.body i s = (s', inr tt) ->
              Spec.curvature_stored (VFloat 3e8) s' i).
Proof.
  intro Hc. split; intros s' H.
  - exact (proj2 (alien_curvature i s s' _ Hc H)).
  - exact (proj2 (copy_curvature i s s' _ Hc H)).
Qed.

Lemma curvature_is_twice_energy_over_c4_witness :
  Spec.curvature_stored (VFloat 3e8)
    (fst (Alien.body (libm := Demo.staircase) 1 Demo.store)) 1 /\
  Spec.curvature_stored (VFloat 3e8)
    (fst (Copy.body (libm := Demo.staircase) 1 Demo.store)) 1.
Proof.
  destruct (curvature_is_twice_energy_over_c4 Demo.staircase 1 Demo.store)
    as [Ha Hc]; [reflexivity |].
  split; [apply Ha | apply Hc]; vm_compute; reflexivity.
Defined.

(** ** The [try] statements *)

Lemma try_except_ok body handlers s s' :
  body s = (s', inr tt) -> try_except body handlers s = (s', inr tt).
Proof. unfold try_except. intros ->. reflexivity. Qed.

Lemma try_except_uncaught body handlers s s' e :
  body s = (s', inl e) -> catches handlers e = false ->
  try_except body handlers s = (s', inl e).
Proof.
  unfold try_except, catches. intros -> Hc.
  destruct (find _ handlers) as [h |] eqn:Hf; [| reflexivity].
  apply find_some in Hf as [Hin Hh].
  assert (existsb (fun h => exn_beq (fst h) e) handlers = true)
    by (apply existsb_exists; eauto).
  congruence.
Qed.

Section Handlers.

Context {libm : Np.Libm}.

Lemma alien_catches i e :
  catches (Alien.handlers i) e = true <->
  e = OverflowError \/ e = ZeroDivisionError.
Proof.
  split.
  - destruct e; cbn; intro H; try discriminate; auto.
  - intros [-> | ->]; reflexivity.
Qed.

Lemma copy_catches i e :
  catches (Copy.handlers i) e = true <-> e = OverflowError.
Proof.
  split.
  - destruct e; cbn; intro H; try discriminate; auto.
  - intros ->; reflexivity.
Qed.

Lemma copy_uncaught i e s s' :
  Copy.body i s = (s', inl e) -> e <> OverflowError ->
  Copy.iteration i s = (s', inl e).
Proof.
  intros Hb He. apply try_except_uncaught; [assumption |].
  destruct (catches (Copy.handlers i) e) eqn:Hc; [| reflexivity].
  apply copy_catches in Hc. contradiction.
Qed.

Lemma alien_uncaught i e s s' :
  Alien.body i s = (s', inl e) ->
  e <> OverflowError -> e <> ZeroDivisionError ->
  Alien.iteration i s = (s', inl e).
Proof.
  intros Hb He1 He2. apply try_except_uncaught; [assumption |].
  destruct (catches (Alien.handlers i) e) eqn:Hc; [| reflexivity].
  apply alien_catches in Hc. tauto.
Qed.

Lemma alien_caught_zero_division i s s' :
  Alien.body i s = (s', inl ZeroDivisionError) ->
  Alien.iteration i s = Alien.on_zero_division i s'.
Proof. unfold Alien.iteration, try_except. intros ->. reflexivity. Qed.

Lemma alien_caught_overflow i s s' :
  Alien.body i s = (s', inl OverflowError) ->
  Alien.iteration i s = Alien.on_overflow i s'.
Proof. unfold Alien.iteration, try_except. intros ->. reflexivity. Qed.

Lemma copy_caught_overflow i s s' :
  Copy.body i s = (s', inl OverflowError) ->
  Copy.iteration i s = Copy.on_overflow i s'.
Proof. unfold Copy.iteration, try_except. intros ->. reflexivity. Qed.

End Handlers.

(** C5, as amended.  The [try] statement of [alien_weaponry.py] catches
    [OverflowError] and [ZeroDivisionError] and nothing else; the one of
    [copyandpaste.py] catches [OverflowError] only, so that any other
    exception its body raises, [ZeroDivisionError] included, leaves the
    loop. *)
Theorem exceptions_caught (libm : Np.Libm) (i : Z) (e : exn) :
  (catches (Alien.handlers i) e = true <->
   e = OverflowError \/ e = ZeroDivisionError) /\
  (catches (Copy.handlers i) e = true <-> e = OverflowError) /\
  (forall s s', Alien.body i s = (s', inl e) ->
     Alien.iteration i s =
       match e with
       | OverflowError => Alien.on_overflow i s'
       | ZeroDivisionError => Alien.on_zero_division i s'
       | _ => (s', inl e)
       end) /\
  (forall s s', Copy.body i s = (s', inl e) ->
     Copy.iteration i s =
       match e with
       | OverflowError => Copy.on_overflow i s'
       | _ => (s', inl e)
       end).
Proof.
  split; [apply alien_catches |]. split; [apply copy_catches |].
  split; intros s s' H.
  - destruct e;
      first [ now apply alien_caught_overflow
            | now apply alien_caught_zero_division
            | apply alien_uncaught; [assumption | discriminate | discriminate] ].
  - destruct e;
      first [ now apply copy_caught_overflow
            | apply copy_uncaught; [assumption | discriminate] ].
Qed.

(** C5 as stated fails on [copyandpaste.py]: its [try] has no clause for
    [ZeroDivisionError], and with an observer interval of zero the error
    raised by [i % observer_interval] leaves the iteration. *)
Lemma copy_does_not_catch_zero_division :
  catches (Copy.handlers 1) ZeroDivisionError = false /\
  snd (Copy.body (libm := Demo.staircase) 1 Demo.no_interval)
    = inl ZeroDivisionError /\
  snd (Copy.iteration (libm := Demo.staircase) 1 Demo.no_interval)
    = inl ZeroDivisionError.
Proof. repeat split; vm_compute; reflexivity. Qed.

(** ** The [except OverflowError] clauses *)

Lemma getitem_np l i v : Np.getitem l i = ok v -> exists x, v = VNp x.
Proof.
  unfold Np.getitem, rbind, ok.
  destruct (Np.index (length l) i); [discriminate |].
  intro H; inversion H. eauto.
Qed.

Lemma copy_previous_inv a i s s' :
  copy_previous a i s = (s', inr tt) ->
  exists l l' x,
    arrs s a = Some l /\ Np.getitem l (i - 1) = ok (VNp x) /\
    Np.getitem l' i = ok (VNp x) /\ s' = bind_arr a l' s.
Proof.
  unfold copy_previous. intro H.
  apply setitem_inv in H as (v & l & l' & E & Ea & Es & ->); [| pure_tac].
  apply getitem_inv in E as (l0 & Ea' & E).
  rewrite Ea in Ea'. inversion Ea'; subst l0.
  destruct (getitem_np _ _ _ E) as [x ->].
  apply getitem_setitem in Es as (x' & Hx & Hg & _).
  cbn in Hx. inversion Hx; subst x'.
  exists l, l', x. auto.
Qed.

Ltac inv_handler H :=
  let s1 := fresh "s" in let H1 := fresh "St" in
  match type of H with
  | bind _ _ _ = (_, inr _) =>
      apply bind_inv in H as (s1 & [] & H1 & H); inv_handler H1; inv_handler H
  | copy_previous _ _ _ = (_, inr _) =>
      let l := fresh "l" in let l' := fresh "l" in let x := fresh "x" in
      let Ea := fresh "Ea" in let Eg := fresh "Eg" in let Es := fresh "Es" in
      apply copy_previous_inv in H as (l & l' & x & Ea & Eg & Es & ->)
  | setitem _ _ _ _ = (_, inr _) =>
      let v := fresh "v" in let E := fresh "E" in
      let l := fresh "l" in let l' := fresh "l" in
      let Ea := fresh "Ea" in let Es := fresh "Es" in
      apply setitem_inv in H as (v & l & l' & E & Ea & Es & ->); [| pure_tac]
  end.

Section Overflow.

Context {libm : Np.Libm}.
Import Name.

Lemma copy_on_overflow_inv i s s' :
  Copy.on_overflow i s = (s', inr tt) ->
  (forall a, In a Handler.copied ->
             exists x, cell s a (i - 1) x /\ cell s' a i x) /\
  (exists capv x, vars s cap_value = Some capv /\
                  Py.to_double capv = ok x /\
                  cell s' energy_density_array i x) /\
  (forall x, vars s' x = vars s x).
Proof.
  unfold Copy.on_overflow. intro H. inv_handler H.
  inv_loads. look.
  match goal with
  | K : Np.setitem _ _ _ = ok _ |- _ =>
      apply getitem_setitem in K as (xc & Hxc & Hgc & _)
  end.
  split; [| split].
  - intros a Ha. unfold Handler.copied in Ha. cbn [In] in Ha.
    unfold cell.
    repeat (destruct Ha as [<- | Ha]; [eexists; split; eexists; look; eauto |]).
    contradiction.
  - match goal with
    | K : vars s cap_value = Some ?v |- _ => exists v, xc
    end.
    unfold cell. repeat split; try assumption.
    eexists; look; eauto.
  - intro y. reflexivity.
Qed.

End Overflow.

(** C4, as amended.  In [copyandpaste.py], when the body of iteration [i]
    raises [OverflowError] and the handler completes, every result array
    except [energy_density_array] has in cell [i] the value its cell [i - 1]
    held when the handler started; cell [i] of [energy_density_array] holds
    [cap_value]; no scalar is rebound by the handler. *)
Theorem copy_overflow_handler (libm : Np.Libm) (i : Z) (s s1 s2 : state) :
  Copy.body i s = (s1, inl OverflowError) ->
  Copy.iteration i s = (s2, inr tt) ->
  (forall a, In a Handler.copied ->
             exists x, cell s1 a (i - 1) x /\ cell s2 a i x) /\
  (exists capv x, vars s1 Name.cap_value = Some capv /\
                  Py.to_double capv = ok x /\
                  cell s2 Name.energy_density_array i x) /\
  (forall x, vars s2 x = vars s1 x).
Proof.
  intros Hb Hi. rewrite (copy_caught_overflow i s s1 Hb) in Hi.
  apply copy_on_overflow_inv. assumption.
Qed.

Lemma copy_overflow_handler_witness :
  let s1 := fst (Copy.body (libm := Demo.staircase) 1 Demo.fast) in
  let s2 := fst (Copy.iteration (libm := Demo.staircase) 1 Demo.fast) in
  (forall a, In a Handler.copied ->
             exists x, cell s1 a (1 - 1) x /\ cell s2 a 1 x) /\
  (exists capv x, vars s1 Name.cap_value = Some capv /\
                  Py.to_double capv = ok x /\
                  cell s2 Name.energy_density_array 1 x) /\
  (forall x, vars s2 x = vars s1 x).
Proof.
  intros s1 s2.
  apply (copy_overflow_handler Demo.staircase 1 Demo.fast s1 s2);
    vm_compute; reflexivity.
Defined.

(** C4 as stated fails on [copyandpaste.py]: with a velocity whose square
    overflows, iteration 1 raises [OverflowError], and the handler leaves
    [cap_value] in cell 1 of [energy_density_array] while cell 0 holds 0. *)
Lemma copy_handler_caps_energy_density :
  let s1 := fst (Copy.body (libm := Demo.staircase) 1 Demo.fast) in
  let s2 := fst (Copy.iteration (libm := Demo.staircase) 1 Demo.fast) in
  snd (Copy.body (libm := Demo.staircase) 1 Demo.fast) = inl OverflowError /\
  snd (Copy.iteration (libm := Demo.staircase) 1 Demo.fast) = inr tt /\
  cell s1 Name.energy_density_array 0 0 /\
  cell s2 Name.energy_density_array 1 1e35 /\
  (1e35 =? 0)%float = false.
Proof.
  cbv zeta. repeat split; try (vm_compute; reflexivity);
    eexists; split; vm_compute; reflexivity.
Qed.

(** In [alien_weaponry.py] the same clause subscripts the float [cap_value]
    on line 127: the handler itself raises [TypeError], which leaves the
    loop. *)
Lemma alien_overflow_handler_raises :
  snd (Alien.body (libm := Demo.staircase) 1 Handler.crowded)
    = inl OverflowError /\
  snd (Alien.iteration (libm := Demo.staircase) 1 Handler.crowded)
    = inl TypeError.
Proof. split; vm_compute; reflexivity. Qed.

(** ** The files written after the loop *)

Lemma row_inv cols i s s' r :
  row cols i s = (s', inr r) -> s' = s /\ Export_.row_of s cols i r.
Proof.
  unfold Export_.row_of. revert r s'.
  induction cols as [| a cols IH]; intros r s' H; cbn [row] in H.
  - unfold ret in H. inversion H; subst. split; [reflexivity | constructor].
  - apply bind_inv in H as (s1 & v & Hv & H).
    rewrite (pure_run (getitem a i) s) in Hv by pure_tac.
    assert (s1 = s) by congruence. subst s1.
    assert (Ev : eval (getitem a i) s = ok v) by (unfold ok; congruence).
    apply getitem_inv in Ev as (l & Ea & Eg).
    apply bind_inv in H as (s2 & x & Hx & H).
    unfold lift in Hx. assert (s2 = s) by congruence. subst s2.
    assert (Ex : Py.to_double v = ok x) by (unfold ok; congruence).
    apply bind_inv in H as (s3 & r' & Hr & H).
    apply IH in Hr as [-> Hr]. unfold ret in H. inversion H; subst.
    split; [reflexivity |]. constructor; [| assumption].
    destruct (getitem_np _ _ _ Eg) as [y ->]. cbn in Ex.
    inversion Ex; subst. exists l. auto.
Qed.

Lemma rows_inv cols l s s' t :
  rows cols l s = (s', inr t) ->
  s' = s /\ Forall2 (Export_.row_of s cols) l t.
Proof.
  revert t s'. induction l as [| i l IH]; intros t s' H; cbn [rows] in H.
  - unfold ret in H. inversion H; subst. split; [reflexivity | constructor].
  - apply bind_inv in H as (s1 & r & Hr & H).
    apply row_inv in Hr as [-> Hr].
    apply bind_inv in H as (s2 & t' & Ht & H).
    apply IH in Ht as [-> Ht]. unfold ret in H. inversion H; subst.
    split; [reflexivity |]. constructor; assumption.
Qed.

Lemma tolists_inv keys s s' d :
  tolists keys s = (s', inr d) ->
  s' = s /\ Forall2 (Export_.field_of s) keys d.
Proof.
  revert d s'. induction keys as [| [k a] keys IH]; intros d s' H; cbn [tolists] in H.
  - unfold ret in H. inversion H; subst. split; [reflexivity | constructor].
  - apply bind_inv in H as (s1 & l & Hl & H).
    unfold load_arr in Hl. destruct (arrs s a) as [l0 |] eqn:Ea; [| discriminate].
    assert (s1 = s) by congruence. assert (l0 = l) by (unfold ok in Hl; congruence).
    subst s1 l0.
    apply bind_inv in H as (s2 & d' & Hd & H).
    apply IH in Hd as [-> Hd]. unfold ret in H. inversion H; subst.
    split; [reflexivity |]. constructor; [| assumption].
    split; [reflexivity | assumption].
Qed.

Lemma alien_exports_inv s s' files :
  Alien.exports s = (s', inr files) ->
  s' = s /\
  exists ta data table frame,
    arrs s Name.time_array = Some ta /\
    files = [("simulation_data.json", Json data);
             ("simulation_results.csv", Csv Alien.header table);
             ("simulation_data.csv", Csv (map fst Alien.frame_keys) frame)]%string /\
    Forall2 (Export_.field_of s) Alien.json_keys data /\
    Forall2 (Export_.row_of s Alien.csv_columns)
            (range 0 (Z.of_nat (length ta))) table /\
    Forall2 (Export_.row_of s (map snd Alien.frame_keys))
            (range 0 (Z.of_nat (length ta))) frame.
Proof.
  unfold Alien.exports. intro H.
  apply bind_inv in H as (s1 & data & Hd & H).
  apply tolists_inv in Hd as [-> Hd].
  apply bind_inv in H as (s2 & n & Hn & H).
  unfold len in Hn. apply bind_inv in Hn as (s3 & ta & Hta & Hn).
  unfold load_arr in Hta.
  destruct (arrs s Name.time_array) as [l0 |] eqn:Ea; [| discriminate].
  assert (s3 = s) by congruence. assert (l0 = ta) by (unfold ok in Hta; congruence).
  subst s3 l0. unfold ret in Hn. inversion Hn; subst s2 n.
  apply bind_inv in H as (s4 & table & Ht & H).
  apply rows_inv in Ht as [-> Ht].
  apply bind_inv in H as (s5 & frame & Hf & H).
  apply rows_inv in Hf as [-> Hf].
  unfold ret in H. inversion H; subst.
  split; [reflexivity |]. exists ta, data, table, frame. auto.
Qed.

(** C8 as stated fails: [copyandpaste.py] exports nothing, and the CSV rows
    of [alien_weaponry.py] have no cell for [volume_array]. *)
Lemma copy_exports_nothing :
  Copy.exports Demo.store = (Demo.store, inr []) /\
  existsb (Name.arr_beq Name.volume_array) Alien.csv_columns = false /\
  existsb (Name.arr_beq Name.volume_array) result_arrays = true.
Proof. repeat split. Qed.

(** ** What the two loop bodies share, and what they do not *)

Section Temperature.

Context {libm : Np.Libm}.
Import Name.

Ltac heats_tac :=
  match goal with
  | H : eval ($temperature .+ _) _ = _ |- _ => inv_expr H
  end;
  inv_loads; look; same_some;
  do 6 eexists;
  repeat match goal with |- _ /\ _ => split end;
  try eassumption; try reflexivity.

Lemma copy_heats i s s' : Copy.body i s = (s', inr tt) -> heats i s s'.
Proof. unfold Copy.body, heats. intro H. inv_seq H; heats_tac. Qed.

Lemma alien_heats i s s' : Alien.body i s = (s', inr tt) -> heats i s s'.
Proof. unfold Alien.body, heats. intro H. inv_seq H; heats_tac. Qed.

Lemma heats_agree i s1 s2 s1' s2' :
  Drift.agree s1 s2 -> heats i s1 s1' -> heats i s2 s2' ->
  Drift.agree s1' s2'.
Proof.
  intros (HT & Ht & Ha).
  intros (T1 & t1 & m1 & T1' & l1 & l1' & A1 & A2 & A3 & A4 & A5 & A6 & A7 & A8 & A9).
  intros (T2 & t2 & m2 & T2' & l2 & l2' & B1 & B2 & B3 & B4 & B5 & B6 & B7 & B8 & B9).
  rewrite A1, B1 in HT. rewrite A2, B2 in Ht. rewrite A7, B7 in Ha.
  inversion HT; inversion Ht; inversion Ha; subst.
  rewrite A3 in B3. inversion B3; subst.
  rewrite A4 in B4. inversion B4; subst.
  rewrite A8 in B8. inversion B8; subst.
  unfold Drift.agree. rewrite A5, B5, A6, B6, A9, B9. auto.
Qed.

Lemma bodies_agree l :
  forall s1 s2 s1' s2' n1 n2,
    Drift.agree s1 s2 ->
    for_in l Alien.body s1 = (s1', inr n1) ->
    for_in l Copy.body s2 = (s2', inr n2) ->
    Drift.agree s1' s2' /\ n1 = n2.
Proof.
  induction l as [| i l IH]; intros s1 s2 s1' s2' n1 n2 Hag H1 H2;
    cbn [for_in] in H1, H2.
  - unfold ret in H1, H2. inversion H1; inversion H2; subst. auto.
  - apply bind_inv in H1 as (u1 & [] & Hb1 & H1).
    apply bind_inv in H2 as (u2 & [] & Hb2 & H2).
    apply bind_inv in H1 as (w1 & k1 & Hl1 & H1).
    apply bind_inv in H2 as (w2 & k2 & Hl2 & H2).
    unfold ret in H1, H2. inversion H1; inversion H2; subst.
    assert (Hag' : Drift.agree u1 u2)
      by (eapply heats_agree;
          [exact Hag | apply alien_heats; eassumption
          | apply copy_heats; eassumption]).
    destruct (IH _ _ _ _ _ _ Hag' Hl1 Hl2) as [Hf ->]. auto.
Qed.

End Temperature.

(** C6, as amended.  The two loop bodies are not the same sequence of
    updates, but they share the temperature update: started on one store
    and run over the same indices without raising, the two loops carry out
    the same number of iterations and end with the same [temperature] and
    the same [temperature_array]. *)
Theorem loops_agree_on_temperature (libm : Np.Libm) (l : list Z)
    (s sa sc : state) (na nc : nat) :
  for_in l Alien.body s = (sa, inr na) ->
  for_in l Copy.body s = (sc, inr nc) ->
  vars sa Name.temperature = vars sc Name.temperature /\
  arrs sa Name.temperature_array = arrs sc Name.temperature_array /\
  na = nc.
Proof.
  intros Ha Hc.
  destruct (bodies_agree l s s sa sc na nc) as [(HT & _ & HA) Hn];
    try assumption.
  - repeat split.
  - auto.
Qed.

Lemma loops_agree_on_temperature_witness :
  let sa := fst (for_in (range 1 4) (Alien.body (libm := Demo.staircase)) Demo.store) in
  let sc := fst (for_in (range 1 4) (Copy.body (libm := Demo.staircase)) Demo.store) in
  vars sa Name.temperature = vars sc Name.temperature /\
  arrs sa Name.temperature_array = arrs sc Name.temperature_array /\
  3%nat = 3%nat.
Proof.
  intros sa sc.
  apply (loops_agree_on_temperature Demo.staircase (range 1 4) Demo.store);
    vm_compute; reflexivity.
Defined.

(** C6 as stated fails.  On a store that gives every shared name one value
    (and the three acceleration constants the same value), three iterations
    of each loop complete, and the pressure and volume arrays differ:
    [alien_weaponry.py] recomputes the pressure from [B] and adds two
    observers per interval, [copyandpaste.py] adds [500 * dt] to the
    pressure and doubles the observers. *)
Lemma loops_differ_with_equal_constants :
  let ra := Alien.loop (libm := Demo.staircase) Demo.store in
  let rc := Copy.loop (libm := Demo.staircase) Demo.store in
  snd ra = inr 3%nat /\ snd rc = inr 3%nat /\
  cell (fst ra) Name.pressure_array 1 636619772.36758137 /\
  cell (fst rc) Name.pressure_array 1 100050 /\
  cell (fst ra) Name.volume_array 2 3 /\
  cell (fst rc) Name.volume_array 2 2 /\
  (636619772.36758137 =? 100050)%float = false /\
  (3 =? 2)%float = false.
Proof.
  cbv zeta. repeat split; try (vm_compute; reflexivity);
    eexists; split; vm_compute; reflexivity.
Qed.

(** ** Running statements forward *)

Lemma bind_ex {A C} (m : M A) (k : A -> M C) s s1 a r (P : state -> Prop) :
  m s = (s1, inr a) ->
  (exists s', k a s1 = (s', r) /\ P s') ->
  exists s', bind m k s = (s', r) /\ P s'.
Proof.
  intros Hm (s' & Hk & HP). exists s'. unfold bind. rewrite Hm. auto.
Qed.

Lemma assign_run x e s v :
  pure e -> eval e s = ok v -> assign x e s = (bind_var x v s, inr tt).
Proof.
  intros He Hv. unfold assign, bind. rewrite (pure_run e s He), Hv. reflexivity.
Qed.

Lemma setitem_run a i e s v l l' :
  pure e -> eval e s = ok v -> arrs s a = Some l ->
  Np.setitem l i v = ok l' ->
  setitem a i e s = (bind_arr a l' s, inr tt).
Proof.
  intros He Hv Ha Hs. unfold setitem, bind, load_arr, lift.
  rewrite (pure_run e s He), Hv. unfold ok. cbv beta iota.
  rewrite Ha. cbv beta iota. rewrite Hs. reflexivity.
Qed.

Lemma when_ex (cond : M bool) (body : M unit) (k : unit -> M unit)
    (s : state) (b : bool) (r : res unit) (P : state -> Prop) :
  pure cond -> eval cond s = ok b ->
  (exists s', (if b then bind body k else k tt) s = (s', r) /\ P s') ->
  exists s', bind (when cond body) k s = (s', r) /\ P s'.
Proof.
  intros Hc Hb (s' & Hk & HP). exists s'. split; [| assumption].
  unfold when, bind in *. rewrite (pure_run cond s Hc), Hb.
  cbn. destruct b; [| assumption].
  destruct (body s) as [s1 [e | []]]; assumption.
Qed.

Lemma eval_load x s v : vars s x = Some v -> eval (load x) s = ok v.
Proof. unfold eval, load. intros ->. reflexivity. Qed.

Lemma eval_ret {A} (a : A) s : eval (ret a) s = ok a.
Proof. reflexivity. Qed.

Lemma eval_bind {A C} (m : M A) (k : A -> M C) s a r :
  pure m -> eval m s = ok a -> eval (k a) s = r -> eval (bind m k) s = r.
Proof.
  intros Hm Ha Hk. unfold eval, bind in *.
  rewrite (pure_run m s Hm). unfold eval. rewrite Ha. assumption.
Qed.

Lemma eval_op2 f e1 e2 s a b r :
  pure e1 -> pure e2 -> eval e1 s = ok a -> eval e2 s = ok b -> f a b = r ->
  eval (op2 f e1 e2) s = r.
Proof.
  intros H1 H2 Ha Hb Hf. unfold op2.
  eapply eval_bind; [assumption | eassumption |].
  eapply eval_bind; [assumption | eassumption |]. exact Hf.
Qed.

Lemma eval_op1 f e s a r :
  pure e -> eval e s = ok a -> f a = r -> eval (op1 f e) s = r.
Proof.
  intros H1 Ha Hf. unfold op1.
  eapply eval_bind; [assumption | eassumption |]. exact Hf.
Qed.

Lemma eval_cmp2 f e1 e2 s a b :
  pure e1 -> pure e2 -> eval e1 s = ok a -> eval e2 s = ok b ->
  eval (cmp2 f e1 e2) s = ok (f a b).
Proof.
  intros H1 H2 Ha Hb. unfold cmp2.
  eapply eval_bind; [assumption | eassumption |].
  eapply eval_bind; [assumption | eassumption |]. reflexivity.
Qed.

Lemma eval_ifexp {A} (cond : M bool) (e1 e2 : M A) s (b : bool) r :
  pure cond -> eval cond s = ok b ->
  eval (if b then e1 else e2) s = r -> eval (ifexp cond e1 e2) s = r.
Proof.
  intros Hc Hb Hr. unfold ifexp. eapply eval_bind; eassumption.
Qed.

Lemma eval_and (e1 e2 : M bool) s (a : bool) r :
  pure e1 -> eval e1 s = ok a ->
  eval (if a then e2 else ret false) s = r -> eval (and_ e1 e2) s = r.
Proof.
  intros H1 Ha Hr. unfold and_. eapply eval_bind; eassumption.
Qed.

Lemma eval_getitem a i s l r :
  arrs s a = Some l -> Np.getitem l i = r -> eval (getitem a i) s = r.
Proof.
  intros Ha Hr. unfold eval, getitem, bind, load_arr, lift. rewrite Ha. exact Hr.
Qed.

Lemma bind_assoc {A C D} (m : M A) (f : A -> M C) (k : C -> M D) s :
  bind (bind m f) k s = bind m (fun a => bind (f a) k) s.
Proof.
  unfold bind. destruct (m s) as [s1 [e | a]]; reflexivity.
Qed.

Lemma eval_and_total (e1 e2 : M bool) s (a b : bool) :
  pure e1 -> eval e1 s = ok a -> eval e2 s = ok b ->
  eval (and_ e1 e2) s = ok (a && b).
Proof.
  intros H1 Ha Hb. eapply eval_and; [assumption | eassumption |].
  destruct a; [exact Hb | reflexivity].
Qed.

(** ** One iteration of copyandpaste.py, on the stores of its run *)

Lemma is_vfloat_inv r : is_vfloat r = true -> exists x, r = ok (VFloat x).
Proof. destruct r as [e | [z | x | x]]; try discriminate. eauto. Qed.

Lemma is_float_inv v :
  is_float v = true -> exists x, v = VFloat x \/ v = VNp x.
Proof. destruct v as [z | x | x]; try discriminate; eauto. Qed.

Lemma setitem_float l i v :
  is_float v = true -> (0 <= i < Z.of_nat (length l))%Z ->
  exists l', Np.setitem l i v = ok l' /\ length l' = length l.
Proof.
  intros Hv Hi. unfold Np.setitem, Np.index.
  destruct (is_float_inv v Hv) as [x [-> | ->]]; cbn [Py.to_double rbind ok];
    (replace ((0 <=? i) && (i <? Z.of_nat (length l)))%Z with true
       by (symmetry; apply andb_true_intro; split; [apply Z.leb_le | apply Z.ltb_lt]; lia));
    eexists; (split; [reflexivity | apply length_update]).
Qed.

Ltac vlook := look; first [reflexivity | eassumption].

Ltac ev :=
  lazymatch goal with
  | |- eval (load _) _ = _ => apply eval_load; vlook
  | |- eval (int_ _) _ = _ => apply eval_ret
  | |- eval (flt _) _ = _ => apply eval_ret
  | |- eval (ret _) _ = _ => apply eval_ret
  | |- eval (op2 _ _ _) _ = _ =>
      eapply eval_op2; [pure_tac | pure_tac | ev | ev | ]
  | |- eval (op1 _ _) _ = _ =>
      eapply eval_op1; [pure_tac | ev | ]
  | |- eval (cmp2 _ _ _) _ = _ =>
      eapply eval_cmp2; [pure_tac | pure_tac | ev | ev ]
  | |- eval (and_ _ _) _ = _ =>
      eapply eval_and_total; [pure_tac | ev | ev ]
  | |- eval (getitem _ _) _ = _ =>
      eapply eval_getitem; [vlook | ]
  | |- eval (bind _ _) _ = _ =>
      eapply eval_bind; [pure_tac | ev | cbv beta; ev ]
  | |- eval (Alien.increasing_acceleration _ _ _) _ = _ =>
      unfold Alien.increasing_acceleration; ev
  | |- eval (Alien.magnetic_pressure_effect _) _ = _ =>
      unfold Alien.magnetic_pressure_effect; ev
  | |- eval (min_ _ _) _ = _ => unfold min_; ev
  | |- eval (np_sqrt _) _ = _ => unfold np_sqrt; ev
  | |- eval (Copy.np_log1p _) _ = _ => unfold Copy.np_log1p; ev
  | |- eval (Copy.np_exp _) _ = _ => unfold Copy.np_exp; ev
  | |- eval (Alien.np_log1p _) _ = _ => unfold Alien.np_log1p; ev
  | |- eval (Alien.np_exp _) _ = _ => unfold Alien.np_exp; ev
  | |- eval (Alien.np_tanh _) _ = _ => unfold Alien.np_tanh; ev
  | |- _ => idtac
  end.

Lemma setitem_ex (a : Name.arr) (i : Z) (e : M value) (k : unit -> M unit)
    (s : state) (v : value) (l : list float) (r : res unit)
    (P : state -> Prop) :
  pure e -> eval e s = ok v -> is_float v = true ->
  arrs s a = Some l -> (0 <= i < Z.of_nat (length l))%Z ->
  (forall l', Np.setitem l i v = ok l' -> length l' = length l ->
              exists s', k tt (bind_arr a l' s) = (s', r) /\ P s') ->
  exists s', bind (setitem a i e) k s = (s', r) /\ P s'.
Proof.
  intros He Hv Hf Ha Hi Hk.
  destruct (setitem_float l i v Hf Hi) as (l' & Hs & Hl).
  eapply bind_ex; [eapply setitem_run; eassumption | apply Hk; assumption].
Qed.

Lemma setitem_last (a : Name.arr) (i : Z) (e : M value)
    (s : state) (v : value) (l : list float) (P : state -> Prop) :
  pure e -> eval e s = ok v -> is_float v = true ->
  arrs s a = Some l -> (0 <= i < Z.of_nat (length l))%Z ->
  (forall l', Np.setitem l i v = ok l' -> length l' = length l ->
              P (bind_arr a l' s)) ->
  exists s', setitem a i e s = (s', inr tt) /\ P s'.
Proof.
  intros He Hv Hf Ha Hi Hk.
  destruct (setitem_float l i v Hf Hi) as (l' & Hs & Hl).
  exists (bind_arr a l' s). split; [eapply setitem_run; eassumption | auto].
Qed.

Ltac pyop := first [eassumption | reflexivity].

Ltac run_assign :=
  eapply bind_ex; [apply assign_run; [pure_tac | ev; pyop] | cbv beta].

Ltac run_assign_as v :=
  eapply bind_ex; [apply (assign_run _ _ _ v); [pure_tac | ev; pyop] | cbv beta].

Ltac run_setitem :=
  eapply setitem_ex;
  [ pure_tac | ev | reflexivity | vlook | lia
  | let l := fresh "l" in let Hs := fresh "Hs" in let Hl := fresh "Hl" in
    intros l Hs Hl ].

Lemma pow_vfloat y n :
  is_vfloat (Py.pow (VFloat y) n) = true ->
  Py.pow (VFloat y) n = ok (VFloat (Double.pow y n)).
Proof.
  unfold Py.pow.
  destruct (is_finite y && is_infinity (Double.pow y n)); [discriminate |].
  reflexivity.
Qed.

Ltac run_when :=
  eapply when_ex; [pure_tac | ev; pyop | ].

Ltac in_tac := cbn [In CopyRun.arrays]; repeat (first [left; reflexivity | right]).

Section CopyStep.

Context {libm : Np.Libm}.
Import Name.
Local Open Scope float_scope.

(** What [ready] says, fact by fact. *)
Lemma copy_ready_inv i v o :
  CopyRun.ready i v o = true ->
  Py.lt (VFloat (CopyRun.euler v)) (VFloat 3e8) = true /\
  Py.pow (VFloat (CopyRun.euler v / 3e8)) 2
    = ok (VFloat (Double.pow (CopyRun.euler v / 3e8) 2)) /\
  Py.pow (VFloat (CopyRun.euler v)) 2
    = ok (VFloat (Double.pow (CopyRun.euler v) 2)) /\
  exists o' xo xv,
    CopyRun.crowd i o = ok o' /\
    Py.mul (VFloat 1.1) o' = ok (VFloat xo) /\
    Py.mul o' (VFloat 1.0) = ok (VFloat xv).
Proof.
  unfold CopyRun.ready. cbv zeta. intro H.
  apply andb_prop in H as [H H4]. apply andb_prop in H as [H H3].
  apply andb_prop in H as [H1 H2].
  apply pow_vfloat in H2. apply pow_vfloat in H3.
  repeat split; try assumption.
  destruct (CopyRun.crowd i o) as [e | o']; [discriminate |].
  apply andb_prop in H4 as [Ha Hb].
  apply is_vfloat_inv in Ha as [xo Ha]. apply is_vfloat_inv in Hb as [xv Hb].
  exists o', xo, xv. auto.
Qed.

(** The observers after lines 54-57, case by case. *)
Lemma copy_crowd_inv i o o' :
  CopyRun.crowd i o = ok o' ->
  (Py.eq (VInt (i mod 45)) (VInt 0) = false /\ o' = o) \/
  (Py.eq (VInt (i mod 45)) (VInt 0) = true /\
   exists o2, Py.mul o (VInt 2) = ok o2 /\
     ((Py.gt o2 (VFloat 1e6) = true /\ o' = VFloat 1e6) \/
      (Py.gt o2 (VFloat 1e6) = false /\ o' = o2))).
Proof.
  unfold CopyRun.crowd.
  change (Py.mod_ (VInt i) (VInt 45)) with (ok (VInt (i mod 45))).
  cbn [rbind ok].
  destruct (Py.eq (VInt (i mod 45)) (VInt 0)).
  - destruct (Py.mul o (VInt 2)) as [e | o2]; cbn [rbind]; [discriminate |].
    intro H. right. split; [reflexivity |]. exists o2. split; [reflexivity |].
    destruct (Py.gt o2 (VFloat 1e6)); inversion H; auto.
  - intro H. inversion H. auto.
Qed.

Lemma copy_step i v T P o lT s :
  (1 <= i < Z.of_nat CopyRun.cells)%Z ->
  CopyRun.ready i v o = true ->
  CopyRun.Inv v T P o lT s ->
  exists s', Copy.body i s = (s', inr tt) /\
    exists o' lT',
      CopyRun.crowd i o = ok o' /\
      Np.setitem lT i (VFloat (T + 1e5 * 0.1)) = ok lT' /\
      vars s' lorentz_factor
        = Some (VNp (CopyRun.gamma (CopyRun.euler v))) /\
      CopyRun.Inv (CopyRun.euler v) (T + 1e5 * 0.1) (P + 500 * 0.1)
                  o' lT' s'.
Proof.
  intros Hi Hr [].
  apply copy_ready_inv in Hr as (Hlt & Hp1 & Hp2 & o' & xo & xv & Hcrowd & Ho1 & Ho2).
  destruct inv_field_strength as (fs & Hfs & Hfl).
  destruct inv_temperature_array as (HlT & HnT).
  destruct inv_time_array as (lt & Hlta & Hnt).
  destruct (inv_arrays plasma_velocity_array) as (l1 & Ha1 & Hn1); [in_tac |].
  destruct (inv_arrays lorentz_factor_array) as (l2 & Ha2 & Hn2); [in_tac |].
  destruct (inv_arrays energy_density_array) as (l3 & Ha3 & Hn3); [in_tac |].
  destruct (inv_arrays field_strength_array) as (l4 & Ha4 & Hn4); [in_tac |].
  destruct (inv_arrays pressure_array) as (l6 & Ha6 & Hn6); [in_tac |].
  destruct (inv_arrays quantum_tunneling_probability_array) as (l7 & Ha7 & Hn7); [in_tac |].
  destruct (inv_arrays spacetime_curvature_array) as (l8 & Ha8 & Hn8); [in_tac |].
  destruct (inv_arrays volume_array) as (l9 & Ha9 & Hn9); [in_tac |].
  clear inv_arrays.
  destruct (is_float_inv fs Hfl) as [f Hf].
  assert (Hcap : Py.lt (VFloat 1e24) (VFloat 1e24) = false) by reflexivity.
  unfold Copy.body.
  (* plasma_velocity, lorentz_factor *)
  run_assign_as (VFloat (CopyRun.euler v)).
  eapply bind_ex;
    [ apply (assign_run _ _ _ (VNp (CopyRun.gamma (CopyRun.euler v))));
      [ pure_tac
      | eapply eval_ifexp; [pure_tac | ev | rewrite Hlt; ev; pyop] ]
    | cbv beta ].
  (* current_observers *)
  run_when.
  pose proof Hcrowd as Hcrowd0.
  apply copy_crowd_inv in Hcrowd
    as [[Hm ->] | (Hm & o2 & Hmul & [[Hg ->] | [Hg ->]])]; rewrite Hm;
    [ | rewrite bind_assoc; run_assign; run_when; rewrite Hg; run_assign
      | rewrite bind_assoc; run_assign; run_when; rewrite Hg ].
  (* observer_factor, field_strength *)
  all: run_assign.
  all: destruct Hf as [-> | ->].
  all: run_assign.
  all: run_when.
  all: match goal with
       | |- context [if ?b then _ else _] =>
           destruct b eqn:Hclamp; [run_assign |]
       end.
  (* energy_density *)
  all: run_assign.
  all: unfold Py.min.
  all: match goal with
       | |- context [if ?b then _ else _] => destruct b eqn:Hmin
       end.
  (* volume, temperature, pressure *)
  all: run_assign.
  all: run_assign_as (VFloat (T + 1e5 * 0.1)).
  all: run_assign_as (VFloat (P + 500 * 0.1)).
  (* quantum_tunneling_probability, spacetime_curvature *)
  all: run_assign.
  all: run_assign.
  (* the arrays *)
  all: do 8 run_setitem.
  all: eapply setitem_last;
    [ pure_tac | ev | reflexivity | vlook | lia
    | let l := fresh "l" in let Hs := fresh "Hs" in let Hl := fresh "Hl" in
      intros l Hs Hl ].
  all: eexists; eexists; split; [exact Hcrowd0 |].
  all: split; [eassumption |].
  all: split; [vlook |].
  all: constructor; look; try assumption; try reflexivity.
  all: try (eexists; split; [reflexivity | reflexivity]).
  all: try (eexists; split; [eassumption | assumption]).
  all: try (split; [reflexivity | congruence]).
  all: intros a Ha; cbn [In CopyRun.arrays] in Ha.
  all: repeat (destruct Ha as [<- | Ha];
               [look; eexists; split; [reflexivity | congruence] |]).
  all: contradiction.
Qed.

End CopyStep.

(** ** Sweeps *)

Section SweepFacts.

Context {A : Type}.
Variable next : Z -> A -> A.
Variable good : Z -> A -> bool.

Lemma sweep_from n : forall k a0,
  sweep next good n (Z.of_nat k) (orbit next a0 k) = true ->
  forall j, (j < n)%nat -> good (Z.of_nat (k + j)) (orbit next a0 (k + j)) = true.
Proof.
  induction n as [| n IH]; intros k a0 H j Hj; [lia |].
  cbn [sweep] in H. apply andb_prop in H as [Hg Hs].
  destruct j as [| j].
  - rewrite Nat.add_0_r. exact Hg.
  - replace (k + S j)%nat with (S k + j)%nat by lia.
    apply IH; [| lia].
    cbn [orbit]. replace (Z.of_nat (S k)) with (Z.of_nat k + 1)%Z by lia.
    exact Hs.
Qed.

Lemma sweep_sound n a0 :
  sweep next good n 0 a0 = true ->
  forall k, (k < n)%nat -> good (Z.of_nat k) (orbit next a0 k) = true.
Proof.
  intros H k Hk. apply (sweep_from n 0 a0 H k Hk).
Qed.

End SweepFacts.

(** ** The loop, iteration by iteration *)

Lemma length_iota n : forall lo, length (Np.iota lo n) = n.
Proof. induction n; intro lo; cbn; [reflexivity | now rewrite IHn]. Qed.

Lemma iota_snoc n : forall lo,
  Np.iota lo (S n) = Np.iota lo n ++ [lo + Z.of_nat n].
Proof.
  induction n as [| n IH]; intro lo.
  - cbn. now rewrite Z.add_0_r.
  - change (Np.iota lo (S (S n))) with (lo :: Np.iota (lo + 1) (S n)).
    rewrite IH. cbn [Np.iota app]. do 3 f_equal. lia.
Qed.

Lemma range_snoc lo hi : lo <= hi -> range lo (hi + 1) = range lo hi ++ [hi].
Proof.
  intro H. unfold range.
  replace (Z.to_nat (hi + 1 - lo)) with (S (Z.to_nat (hi - lo))) by lia.
  rewrite iota_snoc. do 2 f_equal. lia.
Qed.

Lemma for_in_snoc l i body s s1 n s2 :
  for_in l body s = (s1, inr n) -> body i s1 = (s2, inr tt) ->
  for_in (l ++ [i]) body s = (s2, inr (S n)).
Proof.
  revert s n. induction l as [| j l IH]; intros s n Hl Hb; cbn [for_in app] in *.
  - unfold ret in Hl. inversion Hl; subst. unfold bind. rewrite Hb. reflexivity.
  - unfold bind in *. destruct (body j s) as [u [e | []]]; [discriminate |].
    destruct (for_in l body u) as [w [e | m]] eqn:E; [discriminate |].
    unfold ret in Hl. inversion Hl; subst. rewrite (IH u m E Hb). reflexivity.
Qed.

(** ** The run of copyandpaste.py *)

Lemma zeros_like_time_run a s ta :
  arrs s Name.time_array = Some ta ->
  zeros_like_time a s = (bind_arr a (Np.zeros (length ta)) s, inr tt).
Proof.
  intro H. unfold zeros_like_time, len, bind, load_arr, ret, store_arr.
  rewrite H. reflexivity.
Qed.

Ltac run_zeros :=
  eapply bind_ex; [apply zeros_like_time_run; vlook | cbv beta].

Section CopyRunProofs.

Context {libm : Np.Libm}.
Import Name.
Local Open Scope float_scope.

Lemma copy_arange :
  Np.arange (VInt 0) (VInt 9600) (VFloat 0.1) = ok CopyRun.times.
Proof.
  unfold Np.arange.
  change (Py.sub (VInt 9600) (VInt 0)) with (ok (VInt 9600)).
  cbn [rbind ok].
  assert (H : Py.truediv (VInt 9600) (VFloat 0.1) = ok (VFloat 96000))
    by (vm_compute; reflexivity).
  rewrite H. cbn [rbind ok Py.to_double].
  assert (Hc : Double.ceil 96000 = Some 96000%Z) by (vm_compute; reflexivity).
  rewrite Hc.
  assert (Hz : Double.of_int 0 = ok 0) by (vm_compute; reflexivity).
  rewrite Hz. cbn [rbind ok].
  reflexivity.
Qed.

Lemma length_times : length CopyRun.times = CopyRun.cells.
Proof. unfold CopyRun.times. now rewrite length_map, length_iota. Qed.

Lemma copy_prelude :
  Copy.prelude empty = (CopyRun.initial, inr tt) /\
  CopyRun.Inv 0 1e7 100000 (VInt 1) (Np.zeros CopyRun.cells) CopyRun.initial.
Proof.
  assert (H : exists s', Copy.prelude empty = (s', inr tt) /\
    CopyRun.Inv 0 1e7 100000 (VInt 1) (Np.zeros CopyRun.cells) s').
  { unfold Copy.prelude.
    do 13 run_assign.
    run_assign_as (VFloat 0.1).
    eapply bind_ex.
    { unfold bind, load, lift, store_arr, ok. look.
      rewrite copy_arange. reflexivity. }
    cbv beta.
    do 9 run_zeros.
    do 8 run_assign.
    eexists. split; [apply assign_run; [pure_tac | ev] |].
    rewrite length_times.
    constructor; look; try reflexivity.
    - eexists; split; reflexivity.
    - eexists; split; [reflexivity | apply length_times].
    - split; [reflexivity | apply repeat_length].
    - intros a Ha. cbn [In CopyRun.arrays] in Ha.
      repeat (destruct Ha as [<- | Ha];
              [look; eexists; split; [reflexivity | apply repeat_length] |]).
      contradiction. }
  destruct H as (s' & Hp & HI). unfold CopyRun.initial. rewrite Hp.
  split; [reflexivity | exact HI].
Qed.

End CopyRunProofs.

Lemma copy_sweep :
  sweep CopyRun.next CopyRun.ready_at CopyLoop.steps 0 CopyRun.start = true.
Proof. vm_compute. reflexivity. Qed.

Lemma copy_cells : Z.of_nat CopyRun.cells = 96000.
Proof. unfold CopyRun.cells. rewrite Z2Nat.id; lia. Qed.

Lemma copy_steps : Z.of_nat CopyLoop.steps = 95999.
Proof. unfold CopyLoop.steps. rewrite Z2Nat.id; lia. Qed.

Lemma setitem_nth l i x l' :
  Np.setitem l i (VFloat x) = ok l' -> 0 <= i < Z.of_nat (length l) ->
  nth (Z.to_nat i) l' 0%float = x /\
  forall j, j <> Z.to_nat i -> nth j l' 0%float = nth j l 0%float.
Proof.
  intros H Hi. unfold Np.setitem, Np.index in H. cbn [Py.to_double rbind ok] in H.
  replace ((0 <=? i) && (i <? Z.of_nat (length l))) with true in H
    by (symmetry; apply andb_true_intro; split; [apply Z.leb_le | apply Z.ltb_lt]; lia).
  cbn [rbind ok] in H. inversion H; subst l'. split.
  - apply nth_update_same. lia.
  - intros j Hj. apply nth_update_other. congruence.
Qed.

Section CopyLoopProofs.

Context {libm : Np.Libm}.
Import Name.
Local Open Scope float_scope.

Lemma copy_ready k :
  (k < CopyLoop.steps)%nat ->
  CopyRun.ready (Z.of_nat k + 1) (CopyRun.velocity (CopyRun.at_ k))
                (CopyRun.observers (CopyRun.at_ k)) = true.
Proof.
  intro Hk. exact (sweep_sound _ _ _ _ copy_sweep k Hk).
Qed.

Lemma copy_at_succ k :
  CopyRun.at_ (S k) = CopyRun.next (Z.of_nat k + 1) (CopyRun.at_ k).
Proof.
  unfold CopyRun.at_. cbn [orbit]. f_equal. lia.
Qed.

Lemma copy_advance k s :
  (k < CopyLoop.steps)%nat -> CopyLoop.reached k s ->
  exists s', Copy.body (Z.of_nat k + 1) s = (s', inr tt) /\
             CopyLoop.reached (S k) s'.
Proof.
  intros Hk (lT & Hrun & HI & HT & Hg & Hz).
  pose proof copy_cells as Hc. pose proof copy_steps as Hs.
  assert (Hi : (1 <= Z.of_nat k + 1 < Z.of_nat CopyRun.cells)%Z) by lia.
  assert (Hr := copy_ready k Hk).
  destruct (copy_step _ _ _ _ _ _ s Hi Hr HI)
    as (s' & Hb & o' & lT' & Hcr & Hset & Hlf & HI').
  exists s'. split; [exact Hb |].
  exists lT'. split; [| split; [| split; [| split]]].
  - unfold CopyRun.first in *.
    replace (1 + Z.of_nat (S k))%Z with (1 + Z.of_nat k + 1)%Z by lia.
    rewrite range_snoc by lia.
    apply for_in_snoc with (s1 := s); [exact Hrun |].
    replace (1 + Z.of_nat k)%Z with (Z.of_nat k + 1)%Z by lia.
    apply try_except_ok. exact Hb.
  - rewrite copy_at_succ. unfold CopyRun.next.
    cbn [CopyRun.velocity CopyRun.observers CopyRun.temperature_
         CopyRun.pressure_].
    rewrite Hcr. exact HI'.
  - intros j Hj.
    destruct (CopyRun.inv_temperature_array _ _ _ _ _ _ HI) as [_ HlT].
    apply setitem_nth in Hset as [Hsame Hother]; [| lia].
    replace (Z.to_nat (Z.of_nat k + 1)) with (S k) in * by lia.
    destruct (Nat.eq_dec j (S k)) as [-> | Hne].
    + rewrite Hsame, copy_at_succ. reflexivity.
    + rewrite Hother by assumption. apply HT. lia.
  - intros _. rewrite copy_at_succ. exact Hlf.
  - destruct (CopyRun.inv_temperature_array _ _ _ _ _ _ HI) as [_ HlT].
    apply setitem_nth in Hset as [_ Hother]; [| lia].
    rewrite Hother by lia. exact Hz.
Qed.

Lemma copy_start : CopyLoop.reached 0 CopyRun.initial.
Proof.
  exists (Np.zeros CopyRun.cells).
  split; [reflexivity |]. split; [apply copy_prelude |].
  split; [intros; lia |]. split; [intros; lia |].
  destruct CopyRun.cells; reflexivity.
Qed.

Lemma copy_reached k :
  (k <= CopyLoop.steps)%nat -> exists s, CopyLoop.reached k s.
Proof.
  induction k as [| k IH]; intro Hk.
  - exists CopyRun.initial. apply copy_start.
  - destruct IH as (s & Hs); [lia |].
    destruct (copy_advance k s ltac:(lia) Hs) as (s' & _ & Hs').
    exists s'. exact Hs'.
Qed.

End CopyLoopProofs.

(** ** One iteration of alien_weaponry.py, on the stores of its run *)

Lemma nth_iota n : forall lo j,
  (j < n)%nat -> nth j (Np.iota lo n) 0%Z = lo + Z.of_nat j.
Proof.
  induction n as [| n IH]; intros lo j Hj; [lia |].
  destruct j as [| j]; cbn [Np.iota nth].
  - lia.
  - rewrite IH by lia. lia.
Qed.

Lemma getitem_map_iota (f : Z -> float) n i :
  0 <= i < Z.of_nat n ->
  Np.getitem (map f (Np.iota 0 n)) i = ok (VNp (f i)).
Proof.
  intro Hi. unfold Np.getitem, Np.index.
  rewrite length_map, length_iota.
  replace ((0 <=? i) && (i <? Z.of_nat n)) with true
    by (symmetry; apply andb_true_intro; split; [apply Z.leb_le | apply Z.ltb_lt]; lia).
  cbn [rbind ok]. do 2 f_equal.
  rewrite nth_indep with (d' := f 0) by (rewrite length_map, length_iota; lia).
  rewrite map_nth. f_equal. rewrite nth_iota by lia. lia.
Qed.

Ltac in_result := cbn [In result_arrays]; repeat (first [left; reflexivity | right]).

Section AlienStep.

Context {libm : Np.Libm}.
Import Name.
Local Open Scope float_scope.

(** What [ready] says, fact by fact. *)
Lemma alien_ready_inv i v o :
  AlienRun.ready i v o = true ->
  Py.ge (VNp (AlienRun.euler i v)) (VFloat 3e8) = false /\
  exists o' xo xv,
    AlienRun.crowd i o = ok o' /\
    Py.mul (VFloat 1.1) o' = ok (VFloat xo) /\
    Py.mul o' (VFloat 1.0) = ok (VFloat xv).
Proof.
  unfold AlienRun.ready. intro H.
  apply andb_prop in H as [H1 H2]. apply negb_true_iff in H1.
  split; [assumption |].
  destruct (AlienRun.crowd i o) as [e | o']; [discriminate |].
  apply andb_prop in H2 as [Ha Hb].
  apply is_vfloat_inv in Ha as [xo Ha]. apply is_vfloat_inv in Hb as [xv Hb].
  exists o', xo, xv. auto.
Qed.

(** The observers after lines 80-81, case by case. *)
Lemma alien_crowd_inv i o o' :
  AlienRun.crowd i o = ok o' ->
  (Py.eq (VInt (i mod 100)) (VInt 0) && Py.lt o (VFloat 1e6) = false /\ o' = o) \/
  (Py.eq (VInt (i mod 100)) (VInt 0) && Py.lt o (VFloat 1e6) = true /\
   Py.add o (VInt 2) = ok o').
Proof.
  unfold AlienRun.crowd.
  change (Py.mod_ (VInt i) (VInt 100)) with (ok (VInt (i mod 100))).
  cbn [rbind ok].
  destruct (Py.eq (VInt (i mod 100)) (VInt 0) && Py.lt o (VFloat 1e6)).
  - intro H. right. auto.
  - intro H. inversion H. auto.
Qed.

Lemma alien_step i np v T o lT s :
  (1 <= i < Z.of_nat AlienRun.cells)%Z ->
  AlienRun.ready i v o = true ->
  AlienRun.Inv np v T o lT s ->
  exists s', Alien.body i s = (s', inr tt) /\
    exists o' lT',
      AlienRun.crowd i o = ok o' /\
      Np.setitem lT i (VFloat (T + 1e5 * 0.1)) = ok lT' /\
      vars s' lorentz_factor
        = Some (VNp (AlienRun.gamma (AlienRun.euler i v))) /\
      AlienRun.Inv true (AlienRun.euler i v) (T + 1e5 * 0.1) o' lT' s'.
Proof.
  intros Hi Hr [].
  apply alien_ready_inv in Hr as (Hge & o' & xo & xv & Hcrowd & Ho1 & Ho2).
  destruct inv_field_strength as (fs & Hfs & Hfl).
  destruct inv_temperature_array as (HlT & HnT).
  destruct (inv_arrays plasma_velocity_array) as (l1 & Ha1 & Hn1); [in_result |].
  destruct (inv_arrays lorentz_factor_array) as (l2 & Ha2 & Hn2); [in_result |].
  destruct (inv_arrays energy_density_array) as (l3 & Ha3 & Hn3); [in_result |].
  destruct (inv_arrays field_strength_array) as (l4 & Ha4 & Hn4); [in_result |].
  destruct (inv_arrays pressure_array) as (l6 & Ha6 & Hn6); [in_result |].
  destruct (inv_arrays quantum_tunneling_probability_array) as (l7 & Ha7 & Hn7); [in_result |].
  destruct (inv_arrays spacetime_curvature_array) as (l8 & Ha8 & Hn8); [in_result |].
  destruct (inv_arrays volume_array) as (l9 & Ha9 & Hn9); [in_result |].
  destruct (inv_arrays time_dilation_array) as (l10 & Ha10 & Hn10); [in_result |].
  destruct (inv_arrays dimension_portal_probability_array) as (l11 & Ha11 & Hn11); [in_result |].
  clear inv_arrays.
  destruct (is_float_inv fs Hfl) as [f Hf].
  assert (Htm : Np.getitem AlienRun.times i
                = ok (VNp (Np.arange_cell 0 0.1 i)))
    by (apply getitem_map_iota; lia).
  pose proof Hcrowd as Hcrowd0.
  unfold Alien.body.
  (* current_time, acceleration, plasma_velocity *)
  run_assign.
  run_assign_as (VNp (AlienRun.ramp i)).
  destruct np; unfold AlienRun.speed in inv_plasma_velocity.
  all: run_assign_as (VNp (AlienRun.euler i v)).
  all: run_when.
  all: rewrite Hge.
  (* lorentz_factor, pressure *)
  all: run_assign_as (VNp (AlienRun.gamma (AlienRun.euler i v))).
  all: run_assign_as (VFloat AlienRun.squeeze).
  all: run_setitem.
  (* current_observers *)
  all: run_when.
  all: apply alien_crowd_inv in Hcrowd as [[Hm ->] | [Hm Hadd]]; rewrite Hm;
    [ | run_assign ].
  (* observer_factor, field_strength *)
  all: run_assign.
  all: destruct Hf as [-> | ->].
  all: run_assign.
  all: run_when.
  all: match goal with
       | |- context [if ?b then _ else _] =>
           destruct b eqn:Hclamp; [run_assign |]
       end.
  (* energy_density *)
  all: run_assign.
  all: unfold Py.min.
  all: match goal with
       | |- context [if ?b then _ else _] => destruct b eqn:Hmin
       end.
  (* volume, temperature *)
  all: run_assign.
  all: run_assign_as (VFloat (T + 1e5 * 0.1)).
  (* quantum_tunneling_probability, spacetime_curvature, time_dilation,
     dimension_portal_probability *)
  all: do 4 run_assign.
  (* the arrays *)
  all: do 10 run_setitem.
  all: eapply setitem_last;
    [ pure_tac | ev | reflexivity | vlook | lia
    | let l := fresh "l" in let Hs := fresh "Hs" in let Hl := fresh "Hl" in
      intros l Hs Hl ].
  all: eexists; eexists; split; [exact Hcrowd0 |].
  all: split; [eassumption |].
  all: split; [vlook |].
  all: constructor; look; try assumption; try reflexivity.
  all: try (eexists; split; [reflexivity | reflexivity]).
  all: try (split; [reflexivity | congruence]).
  all: intros a Ha; cbn [In result_arrays] in Ha.
  all: repeat (destruct Ha as [<- | Ha];
               [look; eexists; split; [reflexivity | congruence] |]).
  all: contradiction.
Qed.

End AlienStep.

(** ** The run of alien_weaponry.py *)

Lemma alien_sweep :
  sweep AlienRun.next AlienRun.ready_at AlienLoop.steps 0 AlienRun.start = true.
Proof. vm_compute. reflexivity. Qed.

Lemma alien_cells : Z.of_nat AlienRun.cells = 69000.
Proof. unfold AlienRun.cells. rewrite Z2Nat.id; lia. Qed.

Lemma alien_steps : Z.of_nat AlienLoop.steps = 68999.
Proof. unfold AlienLoop.steps. rewrite Z2Nat.id; lia. Qed.

Section AlienRunProofs.

Context {libm : Np.Libm}.
Import Name.
Local Open Scope float_scope.

Lemma alien_arange :
  Np.arange (VInt 0) (VInt 6900) (VFloat 0.1) = ok AlienRun.times.
Proof.
  unfold Np.arange.
  change (Py.sub (VInt 6900) (VInt 0)) with (ok (VInt 6900)).
  cbn [rbind ok].
  assert (H : Py.truediv (VInt 6900) (VFloat 0.1) = ok (VFloat 69000))
    by (vm_compute; reflexivity).
  rewrite H. cbn [rbind ok Py.to_double].
  assert (Hc : Double.ceil 69000 = Some 69000%Z) by (vm_compute; reflexivity).
  rewrite Hc.
  assert (Hz : Double.of_int 0 = ok 0) by (vm_compute; reflexivity).
  rewrite Hz. cbn [rbind ok].
  reflexivity.
Qed.

Lemma alien_length_times : length AlienRun.times = AlienRun.cells.
Proof. unfold AlienRun.times. now rewrite length_map, length_iota. Qed.

Lemma alien_prelude :
  Alien.prelude empty = (AlienRun.initial, inr tt) /\
  AlienRun.Inv false 0 1e7 (VInt 1) (Np.zeros AlienRun.cells)
               AlienRun.initial.
Proof.
  assert (H : exists s', Alien.prelude empty = (s', inr tt) /\
    AlienRun.Inv false 0 1e7 (VInt 1) (Np.zeros AlienRun.cells) s').
  { unfold Alien.prelude.
    do 14 run_assign.
    run_assign_as (VFloat 0.1).
    eapply bind_ex.
    { unfold bind, load, lift, store_arr, ok. look.
      rewrite alien_arange. reflexivity. }
    cbv beta.
    do 11 run_zeros.
    do 9 run_assign.
    eexists. split;
      [apply (assign_run _ _ _ (VFloat 1.2566370614359173e-06));
       [pure_tac | ev; pyop] |].
    rewrite alien_length_times.
    constructor; look; try reflexivity.
    - eexists; split; reflexivity.
    - split; [reflexivity | apply repeat_length].
    - intros a Ha. cbn [In result_arrays] in Ha.
      repeat (destruct Ha as [<- | Ha];
              [look; eexists; split; [reflexivity | apply repeat_length] |]).
      contradiction. }
  destruct H as (s' & Hp & HI). unfold AlienRun.initial. rewrite Hp.
  split; [reflexivity | exact HI].
Qed.

Lemma alien_ready k :
  (k < AlienLoop.steps)%nat ->
  AlienRun.ready (Z.of_nat k + 1) (AlienRun.velocity (AlienRun.at_ k))
                 (AlienRun.observers (AlienRun.at_ k)) = true.
Proof.
  intro Hk. exact (sweep_sound _ _ _ _ alien_sweep k Hk).
Qed.

Lemma alien_at_succ k :
  AlienRun.at_ (S k) = AlienRun.next (Z.of_nat k + 1) (AlienRun.at_ k).
Proof.
  unfold AlienRun.at_. cbn [orbit]. f_equal. lia.
Qed.

Lemma alien_advance k s :
  (k < AlienLoop.steps)%nat -> AlienLoop.reached k s ->
  exists s', Alien.body (Z.of_nat k + 1) s = (s', inr tt) /\
             AlienLoop.reached (S k) s'.
Proof.
  intros Hk (lT & Hrun & HI & HT & Hg & Hz).
  pose proof alien_cells as Hc. pose proof alien_steps as Hs.
  assert (Hi : (1 <= Z.of_nat k + 1 < Z.of_nat AlienRun.cells)%Z) by lia.
  assert (Hr := alien_ready k Hk).
  destruct (alien_step _ _ _ _ _ _ s Hi Hr HI)
    as (s' & Hb & o' & lT' & Hcr & Hset & Hlf & HI').
  exists s'. split; [exact Hb |].
  exists lT'. split; [| split; [| split; [| split]]].
  - unfold AlienRun.first in *.
    replace (1 + Z.of_nat (S k))%Z with (1 + Z.of_nat k + 1)%Z by lia.
    rewrite range_snoc by lia.
    apply for_in_snoc with (s1 := s); [exact Hrun |].
    replace (1 + Z.of_nat k)%Z with (Z.of_nat k + 1)%Z by lia.
    apply try_except_ok. exact Hb.
  - rewrite alien_at_succ. unfold AlienRun.next.
    cbn [AlienRun.velocity AlienRun.observers AlienRun.temperature_].
    rewrite Hcr. exact HI'.
  - intros j Hj.
    destruct (AlienRun.inv_temperature_array _ _ _ _ _ _ HI) as [_ HlT].
    apply setitem_nth in Hset as [Hsame Hother]; [| lia].
    replace (Z.to_nat (Z.of_nat k + 1)) with (S k) in * by lia.
    destruct (Nat.eq_dec j (S k)) as [-> | Hne].
    + rewrite Hsame, alien_at_succ. reflexivity.
    + rewrite Hother by assumption. apply HT. lia.
  - intros _. rewrite alien_at_succ. exact Hlf.
  - destruct (AlienRun.inv_temperature_array _ _ _ _ _ _ HI) as [_ HlT].
    apply setitem_nth in Hset as [_ Hother]; [| lia].
    rewrite Hother by lia. exact Hz.
Qed.

Lemma alien_start : AlienLoop.reached 0 AlienRun.initial.
Proof.
  exists (Np.zeros AlienRun.cells).
  split; [reflexivity |]. split; [apply alien_prelude |].
  split; [intros; lia |]. split; [intros; lia |].
  destruct AlienRun.cells; reflexivity.
Qed.

Lemma alien_reached k :
  (k <= AlienLoop.steps)%nat -> exists s, AlienLoop.reached k s.
Proof.
  induction k as [| k IH]; intro Hk.
  - exists AlienRun.initial. apply alien_start.
  - destruct IH as (s & Hs); [lia |].
    destruct (alien_advance k s ltac:(lia) Hs) as (s' & _ & Hs').
    exists s'. exact Hs'.
Qed.

End AlienRunProofs.

(** ** The loops run to completion *)

Lemma range_all n steps :
  Z.of_nat n = 1 + Z.of_nat steps ->
  range 1 (Z.of_nat n) = range 1 (1 + Z.of_nat steps).
Proof. intros ->. reflexivity. Qed.

Section Completion.

Context {libm : Np.Libm}.
Import Name.

Lemma copy_loop_from s l :
  arrs s time_array = Some l ->
  Copy.loop s = for_in (range 1 (Z.of_nat (length l))) Copy.iteration s.
Proof.
  intro H. unfold Copy.loop, len, bind, load_arr, ret. rewrite H. reflexivity.
Qed.

Lemma alien_loop_from s l :
  arrs s time_array = Some l ->
  Alien.loop s = for_in (range 1 (Z.of_nat (length l))) Alien.iteration s.
Proof.
  intro H. unfold Alien.loop, len, bind, load_arr, ret. rewrite H. reflexivity.
Qed.

Lemma copy_first_eq k s :
  CopyRun.first k s = for_in (range 1 (1 + Z.of_nat k)) Copy.iteration s.
Proof. reflexivity. Qed.

Lemma alien_first_eq k s :
  AlienRun.first k s = for_in (range 1 (1 + Z.of_nat k)) Alien.iteration s.
Proof. reflexivity. Qed.

Lemma copy_completes :
  exists s, Copy.loop CopyRun.initial = (s, inr CopyLoop.steps) /\
            CopyLoop.reached CopyLoop.steps s.
Proof.
  destruct (copy_reached CopyLoop.steps (le_n _)) as (s & lT & Hrun & HI & HT).
  exists s. split; [| exists lT; split; [exact Hrun | split; [exact HI | exact HT]]].
  rewrite copy_first_eq in Hrun.
  destruct copy_prelude as [_ H0].
  destruct (CopyRun.inv_time_array _ _ _ _ _ _ H0) as (l & Hl & Hn).
  rewrite (copy_loop_from _ _ Hl).
  rewrite (range_all (length l) CopyLoop.steps);
    [| rewrite Hn, copy_cells, copy_steps; reflexivity].
  exact Hrun.
Qed.

Lemma alien_completes :
  exists s, Alien.loop AlienRun.initial = (s, inr AlienLoop.steps) /\
            AlienLoop.reached AlienLoop.steps s.
Proof.
  destruct (alien_reached AlienLoop.steps (le_n _)) as (s & lT & Hrun & HI & HT).
  exists s. split; [| exists lT; split; [exact Hrun | split; [exact HI | exact HT]]].
  rewrite alien_first_eq in Hrun.
  destruct alien_prelude as [_ H0].
  pose proof (AlienRun.inv_time_array _ _ _ _ _ _ H0) as Hl.
  rewrite (alien_loop_from _ _ Hl).
  rewrite (range_all (length AlienRun.times) AlienLoop.steps);
    [| rewrite alien_length_times, alien_cells, alien_steps; reflexivity].
  exact Hrun.
Qed.

Lemma bind_prelude {A} (prelude : M unit) (rest : M A) s0 s r :
  prelude empty = (s0, inr tt) -> rest s0 = (s, r) ->
  bind prelude (fun _ => rest) empty = (s, r).
Proof. intros H1 H2. unfold bind. rewrite H1. exact H2. Qed.

End Completion.

(** C7.  Each script's loop runs to completion, whatever the C library
    computes: it carries out 68,999 iterations over the 69,000 entries of
    [time_array] in [alien_weaponry.py], and 95,999 over 96,000 entries in
    [copyandpaste.py]; the entries are as many as [time_steps], which is
    [total_time / dt].  The store the loop leaves is the one reached by
    carrying out these iterations one after the other from the store of the
    prelude: it holds the velocity, the temperature and the observers of the
    last iteration, and cell [j] of [temperature_array] holds the
    temperature of iteration [j]. *)
Theorem loops_run_to_completion (libm : Np.Libm) :
  (exists s n, bind Alien.prelude (fun _ => Alien.loop) empty = (s, inr n) /\
               Claim.sized s n 69000 /\
               n = AlienLoop.steps /\ AlienLoop.reached n s) /\
  (exists s n, bind Copy.prelude (fun _ => Copy.loop) empty = (s, inr n) /\
               Claim.sized s n 96000 /\
               n = CopyLoop.steps /\ CopyLoop.reached n s).
Proof.
  split.
  - destruct alien_completes as (s & Hl & Hr).
    pose proof Hr as (lT & _ & HI & _).
    exists s, AlienLoop.steps. split; [| split; [| split; [reflexivity | exact Hr]]].
    + eapply bind_prelude; [apply alien_prelude | exact Hl].
    + destruct HI. unfold Claim.sized.
      exists AlienRun.times, (VInt 6900), (VFloat 0.1), (VFloat 69000).
      repeat match goal with |- _ /\ _ => split end; try assumption.
      * rewrite alien_length_times. apply alien_cells.
      * vm_compute. reflexivity.
      * vm_compute. reflexivity.
      * rewrite alien_steps. reflexivity.
  - destruct copy_completes as (s & Hl & Hr).
    pose proof Hr as (lT & _ & HI & _).
    exists s, CopyLoop.steps. split; [| split; [| split; [reflexivity | exact Hr]]].
    + eapply bind_prelude; [apply copy_prelude | exact Hl].
    + destruct HI. destruct inv_time_array as (ta & Hta & Hn).
      unfold Claim.sized.
      exists ta, (VInt 9600), (VFloat 0.1), (VFloat 96000).
      repeat match goal with |- _ /\ _ => split end; try assumption.
      * rewrite Hn. apply copy_cells.
      * vm_compute. reflexivity.
      * vm_compute. reflexivity.
      * rewrite copy_steps. reflexivity.
Qed.

(** ** The velocity, iteration by iteration *)

Section EulerSteps.

Context {libm : Np.Libm}.
Import Name.
Local Open Scope float_scope.

Lemma copy_forward_euler v :
  Claim.forward_euler (VFloat v) (VFloat 9.81) (VFloat 0.00001) (VFloat 0.1)
  = ok (VFloat (CopyRun.euler v)).
Proof. reflexivity. Qed.

Lemma alien_interpolate i :
  Claim.interpolate (VFloat 2.2) (VFloat 13.81)
                    (VNp (Np.arange_cell 0 0.1 i)) (VInt 6900)
  = ok (VNp (AlienRun.ramp i)).
Proof.
  unfold Claim.interpolate.
  change (Py.sub (VFloat 13.81) (VFloat 2.2)) with (ok (VFloat (13.81 - 2.2))).
  cbn [rbind ok].
  assert (H : Double.of_int 6900 = ok 6900) by (vm_compute; reflexivity).
  unfold Py.truediv, Py.binop, Py.to_double. rewrite H. reflexivity.
Qed.

Lemma alien_forward_euler np i v :
  Claim.forward_euler (AlienRun.speed np v) (VNp (AlienRun.ramp i))
                      (VFloat 0.00001) (VFloat 0.1)
  = ok (VNp (AlienRun.euler i v)).
Proof. destruct np; reflexivity. Qed.

Lemma copy_euler_step k :
  (k < CopyLoop.steps)%nat ->
  exists s s' a,
    CopyRun.first k CopyRun.initial = (s, inr k) /\
    Copy.iteration (Z.of_nat k + 1) s = (s', inr tt) /\
    vars s acceleration = Some a /\ Claim.euler_step s s' a.
Proof.
  intro Hk.
  destruct (copy_reached k) as (s & Hs); [lia |].
  destruct (copy_advance k s Hk Hs) as (s' & Hb & (lT' & _ & HI' & _)).
  destruct Hs as (lT & Hrun & HI & _).
  exists s, s', (VFloat 9.81).
  split; [exact Hrun |]. split; [apply try_except_ok; exact Hb |].
  split; [apply HI |].
  eexists _, _, _, _.
  split; [apply HI |]. split; [apply HI |]. split; [apply HI |].
  split; [apply copy_forward_euler |].
  rewrite (CopyRun.inv_plasma_velocity _ _ _ _ _ _ HI'), copy_at_succ.
  reflexivity.
Qed.

Lemma alien_euler_step k :
  (k < AlienLoop.steps)%nat ->
  exists s s' a,
    AlienRun.first k AlienRun.initial = (s, inr k) /\
    Alien.iteration (Z.of_nat k + 1) s = (s', inr tt) /\
    Claim.ramp_at s (Z.of_nat k + 1) a /\ Claim.euler_step s s' a.
Proof.
  intro Hk.
  destruct (alien_reached k) as (s & Hs); [lia |].
  destruct (alien_advance k s Hk Hs) as (s' & Hb & (lT' & _ & HI' & _)).
  destruct Hs as (lT & Hrun & HI & _).
  exists s, s', (VNp (AlienRun.ramp (Z.of_nat k + 1))).
  split; [exact Hrun |]. split; [apply try_except_ok; exact Hb |].
  split.
  - eexists _, _, _, _, _.
    split; [apply HI |].
    split; [apply getitem_map_iota; pose proof alien_cells;
            pose proof alien_steps; lia |].
    split; [apply HI |]. split; [apply HI |]. split; [apply HI |].
    apply alien_interpolate.
  - eexists _, _, _, _.
    split; [apply HI |]. split; [apply HI |]. split; [apply HI |].
    split; [apply alien_forward_euler |].
    rewrite (AlienRun.inv_plasma_velocity _ _ _ _ _ _ HI'), alien_at_succ.
    reflexivity.
Qed.

End EulerSteps.

(** C1.  In each script, every iteration of the loop advances the plasma
    velocity by one forward-Euler step of the damped-acceleration equation:
    the run reaches iteration [k + 1], which raises nothing and leaves
    [v + (a - damping_factor * v) * dt] in [plasma_velocity], where [v] is
    the velocity the iteration found.  In [copyandpaste.py] the acceleration
    [a] is the constant [acceleration]; in [alien_weaponry.py] it is
    [initial_acceleration + (max_acceleration - initial_acceleration)
     * (t / total_time)] at the current time [t = time_array[k + 1]]. *)
Theorem velocity_advances_by_forward_euler (libm : Np.Libm) (k : nat) :
  ((k < AlienLoop.steps)%nat ->
   exists s s' a,
     AlienRun.first k AlienRun.initial = (s, inr k) /\
     Alien.iteration (Z.of_nat k + 1) s = (s', inr tt) /\
     Claim.ramp_at s (Z.of_nat k + 1) a /\ Claim.euler_step s s' a) /\
  ((k < CopyLoop.steps)%nat ->
   exists s s' a,
     CopyRun.first k CopyRun.initial = (s, inr k) /\
     Copy.iteration (Z.of_nat k + 1) s = (s', inr tt) /\
     vars s Name.acceleration = Some a /\ Claim.euler_step s s' a).
Proof.
  split; [apply alien_euler_step | apply copy_euler_step].
Qed.

Lemma velocity_advances_by_forward_euler_witness :
  (exists s s' a,
     AlienRun.first (libm := Demo.staircase) 0
       (AlienRun.initial (libm := Demo.staircase)) = (s, inr 0%nat) /\
     Alien.iteration (libm := Demo.staircase) 1 s = (s', inr tt) /\
     Claim.ramp_at s 1 a /\ Claim.euler_step s s' a) /\
  (exists s s' a,
     CopyRun.first (libm := Demo.staircase) 0
       (CopyRun.initial (libm := Demo.staircase)) = (s, inr 0%nat) /\
     Copy.iteration (libm := Demo.staircase) 1 s = (s', inr tt) /\
     vars s Name.acceleration = Some a /\ Claim.euler_step s s' a).
Proof.
  destruct (velocity_advances_by_forward_euler Demo.staircase 0) as [Ha Hc].
  split; [apply Ha; unfold AlienLoop.steps | apply Hc; unfold CopyLoop.steps];
    lia.
Defined.

(** ** The sweeps over the two runs *)

Lemma copy_subluminal_sweep :
  sweep CopyRun.next Facts.copy_subluminal_at CopyLoop.steps 0 CopyRun.start
  = true.
Proof. vm_compute. reflexivity. Qed.

Lemma copy_warm_sweep :
  sweep CopyRun.next Facts.copy_warm_at CopyLoop.steps 0 CopyRun.start = true.
Proof. vm_compute. reflexivity. Qed.

Lemma copy_calm_sweep :
  sweep CopyRun.next Facts.copy_calm_at CopyLoop.steps 0 CopyRun.start = true.
Proof. vm_compute. reflexivity. Qed.

Lemma alien_warm_sweep :
  sweep AlienRun.next Facts.alien_warm_at AlienLoop.steps 0 AlienRun.start
  = true.
Proof. vm_compute. reflexivity. Qed.

Lemma alien_calm_sweep :
  sweep AlienRun.next Facts.alien_calm_at AlienLoop.steps 0 AlienRun.start
  = true.
Proof. vm_compute. reflexivity. Qed.

(** ** The order of doubles *)

Lemma sf_compare_antisym x y :
  SFcompare y x = option_map CompOpp (SFcompare x y).
Proof.
  destruct x as [sx | sx | | sx mx ex], y as [sy | sy | | sy my ey]; cbn;
    try reflexivity; try (destruct sx; reflexivity); try (destruct sy; reflexivity);
    try (destruct sx, sy; reflexivity).
  change (Pos.compare_cont Eq my mx) with (Pos.compare my mx).
  change (Pos.compare_cont Eq mx my) with (Pos.compare mx my).
  rewrite (Z.compare_antisym ex ey), (Pos.compare_antisym mx my).
  destruct sx, sy; try reflexivity;
    destruct (ex ?= ey); cbn; try reflexivity;
    destruct (mx ?= my)%positive; reflexivity.
Qed.

Lemma lex_lt e1 e2 m1 m2 :
  match e1 ?= e2 with
  | Lt => Lt | Gt => Gt | Eq => Pos.compare_cont Eq m1 m2
  end = Lt <-> e1 < e2 \/ (e1 = e2 /\ (m1 < m2)%positive).
Proof.
  change (Pos.compare_cont Eq m1 m2) with (Pos.compare m1 m2).
  destruct (Z.compare_spec e1 e2) as [He | He | He].
  - rewrite Pos.compare_lt_iff. lia.
  - split; intro; [lia | reflexivity].
  - split; intro; [discriminate | lia].
Qed.

Lemma lex_gt e1 e2 m1 m2 :
  match e1 ?= e2 with
  | Lt => Gt | Gt => Lt | Eq => CompOpp (Pos.compare_cont Eq m1 m2)
  end = Lt <-> e2 < e1 \/ (e1 = e2 /\ (m2 < m1)%positive).
Proof.
  change (Pos.compare_cont Eq m1 m2) with (Pos.compare m1 m2).
  destruct (Z.compare_spec e1 e2) as [He | He | He].
  - rewrite <- Pos.compare_antisym, Pos.compare_lt_iff. lia.
  - split; intro; [discriminate | lia].
  - split; intro; [lia | reflexivity].
Qed.

Lemma sf_lt_trans x y z :
  SFcompare x y = Some Lt -> SFcompare y z = Some Lt -> SFcompare x z = Some Lt.
Proof.
  destruct x as [sx | sx | | sx mx ex], y as [sy | sy | | sy my ey],
    z as [sz | sz | | sz mz ez]; cbn;
    try discriminate; try (intros; reflexivity);
    repeat match goal with s : bool |- _ => destruct s end;
    try discriminate; try (intros; reflexivity).
  all: intros H1 H2; injection H1 as H1; injection H2 as H2; f_equal.
  - apply lex_gt in H1, H2. apply lex_gt. lia.
  - apply lex_lt in H1, H2. apply lex_lt. lia.
Qed.

(** ** Rounding keeps the sign *)

Lemma iter_pos_inv {A} (P : A -> Prop) (f : A -> A) :
  (forall x, P x -> P (f x)) -> forall n x, P x -> P (iter_pos f n x).
Proof.
  intro Hf. induction n as [n IH | n IH |]; intros x Hx; cbn; auto.
Qed.

Lemma shr_1_nonneg mrs : 0 <= shr_m mrs -> 0 <= shr_m (shr_1 mrs).
Proof.
  destruct mrs as [m r s]. cbn.
  destruct m as [| [p | p |] | p]; cbn; lia.
Qed.

Lemma shr_nonneg mrs e n :
  0 <= shr_m mrs -> 0 <= shr_m (fst (shr mrs e n)).
Proof.
  intro H. destruct n as [| p | p]; cbn; try assumption.
  apply iter_pos_inv; [apply shr_1_nonneg | assumption].
Qed.

Lemma shr_fexp_nonneg m e l :
  0 <= m -> 0 <= shr_m (fst (shr_fexp prec emax m e l)).
Proof.
  intro H. unfold shr_fexp. apply shr_nonneg.
  destruct l as [| []]; assumption.
Qed.

Lemma round_nearest_even_nonneg m l :
  0 <= m -> 0 <= round_nearest_even m l.
Proof.
  intro H. destruct l as [| []]; cbn; try assumption; try lia.
  destruct (Z.even m); lia.
Qed.

Lemma binary_round_aux_nonneg m e l :
  0 <= m ->
  SFleb (S754_zero false) (binary_round_aux prec emax false m e l) = true.
Proof.
  intro H. unfold binary_round_aux.
  pose proof (shr_fexp_nonneg m e l H) as H1.
  destruct (shr_fexp prec emax m e l) as [mrs' e']. cbn [fst] in H1.
  pose proof (shr_fexp_nonneg _ e' loc_Exact
                (round_nearest_even_nonneg _ (loc_of_shr_record mrs') H1)) as H2.
  destruct (shr_fexp prec emax _ e' loc_Exact) as [mrs'' e'']. cbn [fst] in H2.
  destruct (shr_m mrs'') as [| p | p]; [reflexivity | | lia].
  destruct (e'' <=? emax - prec); reflexivity.
Qed.

Lemma sf_mul_nonneg x y :
  SFleb (S754_zero false) x = true -> SFleb (S754_zero false) y = true ->
  SFltb x (S754_infinity false) = true \/ SFltb (S754_zero false) y = true ->
  SFltb y (S754_infinity false) = true \/ SFltb (S754_zero false) x = true ->
  SFleb (S754_zero false) (SFmul prec emax x y) = true.
Proof.
  destruct x as [sx | sx | | sx mx ex], y as [sy | sy | | sy my ey];
    repeat match goal with s : bool |- _ => destruct s end; cbn;
    try discriminate; try reflexivity;
    try (intros _ _ [H | H] [H' | H']; discriminate).
  intros _ _ _ _. apply binary_round_aux_nonneg. lia.
Qed.

Section DoubleOrder.

Local Open Scope float_scope.

Lemma mul_nonneg x y :
(0 <=? x) = true -> (0 <=? y) = true ->
(x <? infinity) = true \/ (0 <? y) = true ->
(y <? infinity) = true \/ (0 <? x) = true ->
(0 <=? x * y) = true.
Proof.
rewrite !leb_spec, !ltb_spec, mul_spec. apply sf_mul_nonneg.
Qed.

Lemma ltb_trans x y z :
(x <? y) = true -> (y <? z) = true -> (x <? z) = true.
Proof.
rewrite !ltb_spec. unfold SFltb.
destruct (SFcompare (Prim2SF x) (Prim2SF y)) as [[] |] eqn:H1; try discriminate.
destruct (SFcompare (Prim2SF y) (Prim2SF z)) as [[] |] eqn:H2; try discriminate.
rewrite (sf_lt_trans _ _ _ H1 H2). reflexivity.
Qed.

Lemma leb_below_infinity x y :
(x <=? y) = true -> (y <? infinity) = true -> (x <? infinity) = true.
Proof.
rewrite leb_spec, !ltb_spec.
change (Prim2SF infinity) with (S754_infinity false).
destruct (Prim2SF x) as [sx | sx | | sx mx ex],
  (Prim2SF y) as [sy | sy | | sy my ey];
  repeat match goal with s : bool |- _ => destruct s end; cbn;
  try discriminate; try reflexivity.
Qed.

Lemma ltb_leb x y : (x <? y) = true -> (x <=? y) = true.
Proof.
rewrite ltb_spec, leb_spec. unfold SFltb, SFleb.
destruct (SFcompare (Prim2SF x) (Prim2SF y)) as [[] |]; auto.
Qed.

Lemma double_compare_spec x y :
Double.compare x y = SFcompare (Prim2SF x) (Prim2SF y).
Proof.
unfold Double.compare. rewrite compare_spec.
destruct (SFcompare (Prim2SF x) (Prim2SF y)) as [[] |]; reflexivity.
Qed.

Lemma double_compare_antisym x y :
Double.compare y x = option_map CompOpp (Double.compare x y).
Proof. rewrite !double_compare_spec. apply sf_compare_antisym. Qed.

Lemma double_compare_leb x y :
(x <=? y) = match Double.compare x y with
            | Some (Lt | Eq) => true
            | _ => false
            end.
Proof. rewrite leb_spec, double_compare_spec. reflexivity. Qed.

Lemma double_compare_ltb x y :
(x <? y) = match Double.compare x y with
           | Some Lt => true
           | _ => false
           end.
Proof. rewrite ltb_spec, double_compare_spec. reflexivity. Qed.

(** Two doubles that are not NaN compare. *)
Lemma double_compare_total x y :
(0 <=? x) = true -> (0 <=? y) = true -> Double.compare x y <> None.
Proof.
rewrite !leb_spec, double_compare_spec.
destruct (Prim2SF x) as [sx | sx | | sx mx ex],
  (Prim2SF y) as [sy | sy | | sy my ey]; cbn; congruence.
Qed.

End DoubleOrder.

(** ** The Lorentz factor of copyandpaste.py *)

Section CopyLorentz.

Context {libm : Np.Libm}.
Import Name.
Local Open Scope float_scope.

Lemma root_argument_inv v x :
  Lorentz.root_argument (VFloat v) (VFloat 3e8) = ok x ->
  x = VFloat (1 - Double.pow (v / 3e8) 2).
Proof.
  unfold Lorentz.root_argument.
  change (Py.truediv (VFloat v) (VFloat 3e8)) with (ok (VFloat (v / 3e8))).
  cbn [rbind ok]. unfold Py.pow.
  destruct (is_finite (v / 3e8) && is_infinity (Double.pow (v / 3e8) 2));
    [discriminate |].
  cbn [rbind ok].
  assert (H : Double.of_int 1 = ok 1) by (vm_compute; reflexivity).
  unfold Py.sub, Py.binop, Py.to_double. rewrite H. cbn.
  intro E. inversion E. reflexivity.
Qed.

Lemma factor_gamma v :
  Lorentz.factor (VFloat (1 - Double.pow (v / 3e8) 2))
  = ok (VNp (CopyRun.gamma v)).
Proof.
  assert (H : Double.of_int 1 = ok 1) by (vm_compute; reflexivity).
  unfold Lorentz.factor, Py.ufunc, Py.to_double. cbn [rbind ok].
  unfold Py.truediv, Py.binop, Py.to_double. rewrite H. reflexivity.
Qed.

Lemma copy_subluminal k :
  (k < CopyLoop.steps)%nat ->
  Facts.subluminal (CopyRun.velocity (CopyRun.at_ (S k))) = true.
Proof.
  intro Hk. rewrite copy_at_succ.
  exact (sweep_sound _ _ _ _ copy_subluminal_sweep k Hk).
Qed.

Lemma copy_lorentz k :
  (1 <= k <= CopyLoop.steps)%nat ->
  exists s, CopyRun.first k CopyRun.initial = (s, inr k) /\
            Lorentz.subluminal s.
Proof.
  intros [H1 Hk].
  destruct (copy_reached k Hk) as (s & lT & Hrun & HI & _ & Hg & _).
  specialize (Hg H1).
  exists s. split; [exact Hrun |].
  destruct k as [| k]; [lia |].
  pose proof (copy_subluminal k ltac:(lia)) as Hs.
  unfold Facts.subluminal in Hs.
  apply andb_prop in Hs as [Hs Hroot]. apply andb_prop in Hs as [Hlt Hle].
  destruct (Lorentz.root_argument _ _) as [e | x] eqn:Hx; [discriminate |].
  pose proof (root_argument_inv _ _ Hx) as ->.
  unfold Lorentz.subluminal.
  eexists _, _, _, _, _, _, _.
  split; [apply HI |]. split; [apply HI |]. split; [reflexivity |].
  split; [apply HI |]. split; [apply HI |].
  split; [reflexivity |]. split; [reflexivity |].
  split; [exact Hle |]. split; [exact Hlt |].
  split; [exact Hx |]. split; [exact Hroot |].
  split; [apply factor_gamma | exact Hg].
Qed.

End CopyLorentz.

(** C9.  In [copyandpaste.py], after every iteration of the loop the plasma
    velocity is below [c = 3e8] and at most the terminal velocity
    [acceleration / damping_factor = 9.81e5]; so the condition
    [plasma_velocity < c] of line 51 holds, the argument
    [1 - (plasma_velocity / c)**2] of the square root is positive, and
    [lorentz_factor] holds the value of the first branch, never
    [plasma_velocity / c]. *)
Theorem copy_velocity_stays_below_c (libm : Np.Libm) (k : nat) :
  (1 <= k <= CopyLoop.steps)%nat ->
  exists s, CopyRun.first k CopyRun.initial = (s, inr k) /\
            Lorentz.subluminal s.
Proof. apply copy_lorentz. Qed.

Lemma copy_velocity_stays_below_c_witness :
  exists s,
    CopyRun.first (libm := Demo.staircase) 1
      (CopyRun.initial (libm := Demo.staircase)) = (s, inr 1%nat) /\
    Lorentz.subluminal s.
Proof.
  apply (copy_velocity_stays_below_c Demo.staircase 1).
  unfold CopyLoop.steps. lia.
Defined.

(** ** The temperature *)

Section Increasing.

Local Open Scope float_scope.

Variable f : nat -> float.
Variable n : nat.
Hypothesis step : forall k, (k < n)%nat -> (f k <? f (S k)) = true.

Lemma increasing_chain i j :
  (i < j <= n)%nat -> (f i <? f j) = true.
Proof.
  induction j as [| j IH]; intros [Hi Hj]; [lia |].
  destruct (Nat.eq_dec i j) as [-> | Hne]; [apply step; lia |].
  apply ltb_trans with (y := f j); [apply IH; lia | apply step; lia].
Qed.

End Increasing.

Section Temperature.

Context {libm : Np.Libm}.
Import Name.
Local Open Scope float_scope.

Lemma warm_inv k T T' :
  Facts.warm k T T' = true ->
  (exists w, Claim.warmth k (VFloat 0.1) = ok w /\
             Py.eq (VFloat T') w = true) /\
  (T <? T') = true /\ (0 <? T') = true.
Proof.
  unfold Facts.warm. intro H.
  apply andb_prop in H as [H H3]. apply andb_prop in H as [H1 H2].
  destruct (Claim.warmth k (VFloat 0.1)) as [e | w]; [discriminate |].
  split; [exists w; split; [reflexivity | exact H1] | split; assumption].
Qed.

Lemma copy_warm k :
  (k < CopyLoop.steps)%nat ->
  Facts.warm (Z.of_nat (S k)) (CopyRun.temperature_ (CopyRun.at_ k))
              (CopyRun.temperature_ (CopyRun.at_ (S k))) = true.
Proof.
  intro Hk. rewrite copy_at_succ.
  replace (Z.of_nat (S k)) with (Z.of_nat k + 1)%Z by lia.
  exact (sweep_sound _ _ _ _ copy_warm_sweep k Hk).
Qed.

Lemma alien_warm k :
  (k < AlienLoop.steps)%nat ->
  Facts.warm (Z.of_nat (S k)) (AlienRun.temperature_ (AlienRun.at_ k))
              (AlienRun.temperature_ (AlienRun.at_ (S k))) = true.
Proof.
  intro Hk. rewrite alien_at_succ.
  replace (Z.of_nat (S k)) with (Z.of_nat k + 1)%Z by lia.
  exact (sweep_sound _ _ _ _ alien_warm_sweep k Hk).
Qed.

(** The cells written so far increase, whatever sequence of temperatures
    [T] they hold, as long as it increases from a positive value. *)
Lemma cells_increase (T : nat -> float) (n k : nat) (lT : list float) :
  (k <= n)%nat ->
  (forall j, (j < n)%nat -> (T j <? T (S j)) = true) ->
  (forall j, (j < n)%nat -> (0 <? T (S j)) = true) ->
  (forall j, (1 <= j <= k)%nat -> nth j lT 0 = T j) ->
  nth 0 lT 0 = 0 ->
  forall i j, (i < j <= k)%nat -> (nth i lT 0 <? nth j lT 0) = true.
Proof.
  intros Hk Hstep Hpos HT Hz i j Hij.
  rewrite (HT j) by lia.
  destruct i as [| i].
  - rewrite Hz. destruct j as [| j]; [lia |]. apply Hpos. lia.
  - rewrite (HT (S i)) by lia.
    apply (increasing_chain T n); [exact Hstep | lia].
Qed.

Lemma copy_closed_form k :
  (k <= CopyLoop.steps)%nat ->
  exists s, CopyRun.first k CopyRun.initial = (s, inr k) /\
            Warmth.closed_form s k.
Proof.
  intro Hk.
  destruct (copy_reached k Hk) as (s & lT & Hrun & HI & HT & _ & Hz).
  exists s. split; [exact Hrun |].
  assert (Hw : exists w, Claim.warmth (Z.of_nat k) (VFloat 0.1) = ok w /\
                 Py.eq (VFloat (CopyRun.temperature_ (CopyRun.at_ k))) w
                 = true).
  { destruct k as [| k].
    - exists (VFloat 1e7). split; vm_compute; reflexivity.
    - apply (warm_inv _ _ _ (copy_warm k ltac:(lia))). }
  destruct Hw as (w & Hw & He).
  exists (VFloat (CopyRun.temperature_ (CopyRun.at_ k))), (VFloat 0.1), w,
    (VFloat 10000), lT.
  split; [apply HI |]. split; [apply HI |].
  split; [exact Hw |]. split; [exact He |].
  split; [reflexivity |]. split; [reflexivity |].
  split; [apply HI |].
  apply (cells_increase (fun j => CopyRun.temperature_ (CopyRun.at_ j))
           CopyLoop.steps k lT Hk).
  - intros j Hj. apply (warm_inv _ _ _ (copy_warm j Hj)).
  - intros j Hj. apply (warm_inv _ _ _ (copy_warm j Hj)).
  - exact HT.
  - exact Hz.
Qed.

Lemma alien_closed_form k :
  (k <= AlienLoop.steps)%nat ->
  exists s, AlienRun.first k AlienRun.initial = (s, inr k) /\
            Warmth.closed_form s k.
Proof.
  intro Hk.
  destruct (alien_reached k Hk) as (s & lT & Hrun & HI & HT & _ & Hz).
  exists s. split; [exact Hrun |].
  assert (Hw : exists w, Claim.warmth (Z.of_nat k) (VFloat 0.1) = ok w /\
                 Py.eq (VFloat (AlienRun.temperature_ (AlienRun.at_ k))) w
                 = true).
  { destruct k as [| k].
    - exists (VFloat 1e7). split; vm_compute; reflexivity.
    - apply (warm_inv _ _ _ (alien_warm k ltac:(lia))). }
  destruct Hw as (w & Hw & He).
  exists (VFloat (AlienRun.temperature_ (AlienRun.at_ k))), (VFloat 0.1), w,
    (VFloat 10000), lT.
  split; [apply HI |]. split; [apply HI |].
  split; [exact Hw |]. split; [exact He |].
  split; [reflexivity |]. split; [reflexivity |].
  split; [apply HI |].
  apply (cells_increase (fun j => AlienRun.temperature_ (AlienRun.at_ j))
           AlienLoop.steps k lT Hk).
  - intros j Hj. apply (warm_inv _ _ _ (alien_warm j Hj)).
  - intros j Hj. apply (warm_inv _ _ _ (alien_warm j Hj)).
  - exact HT.
  - exact Hz.
Qed.

End Temperature.

(** C10.  In both scripts, after [k] iterations of the loop (none of which
    raises) [temperature] equals [1e7 + k * 1e5 * dt]: with [dt = 0.1] every
    iteration adds exactly [1e5 * dt = 1e4]; and the values stored in
    [temperature_array] increase strictly with the index. *)
Theorem temperature_has_closed_form (libm : Np.Libm) (k : nat) :
  ((k <= AlienLoop.steps)%nat ->
   exists s, AlienRun.first k AlienRun.initial = (s, inr k) /\
             Warmth.closed_form s k) /\
  ((k <= CopyLoop.steps)%nat ->
   exists s, CopyRun.first k CopyRun.initial = (s, inr k) /\
             Warmth.closed_form s k).
Proof.
  split; [apply alien_closed_form | apply copy_closed_form].
Qed.

Lemma temperature_has_closed_form_witness :
  (exists s,
     AlienRun.first (libm := Demo.staircase) 2
       (AlienRun.initial (libm := Demo.staircase)) = (s, inr 2%nat) /\
     Warmth.closed_form s 2) /\
  (exists s,
     CopyRun.first (libm := Demo.staircase) 2
       (CopyRun.initial (libm := Demo.staircase)) = (s, inr 2%nat) /\
     Warmth.closed_form s 2).
Proof.
  destruct (temperature_has_closed_form Demo.staircase 2) as [Ha Hc].
  split; [apply Ha; unfold AlienLoop.steps | apply Hc; unfold CopyLoop.steps];
    lia.
Defined.

(** ** The caps on the field strength and on the energy density *)

Section Caps.

Context {libm : Np.Libm}.
Import Name.
Local Open Scope float_scope.

Lemma field_chain influence observers fs cap x factor p (b : bool) fs' :
  Py.mul influence observers = ok x ->
  Py.ufunc Np.log1p x = ok factor ->
  Py.mul fs factor = ok p ->
  b = Py.gt p cap -> fs' = (if b then cap else p) ->
  Capping.field influence observers fs cap = ok fs'.
Proof.
  intros H1 H2 H3 -> ->. unfold Capping.field, Capping.clamp.
  rewrite H1. cbn [rbind ok]. rewrite H2. cbn [rbind ok]. rewrite H3.
  reflexivity.
Qed.

Lemma energy_chain fs pv cap f2 h v2 e e' :
  Py.pow fs 2 = ok f2 -> Py.mul (VFloat 0.5) f2 = ok h ->
  Py.pow pv 2 = ok v2 -> Py.mul h v2 = ok e ->
  ok (Py.min e cap) = ok e' ->
  Capping.energy fs pv cap = ok e'.
Proof.
  intros H1 H2 H3 H4 H5. unfold Capping.energy.
  rewrite H1. cbn [rbind ok]. rewrite H2. cbn [rbind ok].
  rewrite H3. cbn [rbind ok]. rewrite H4. exact H5.
Qed.

Ltac updated_tac :=
  repeat match goal with
         | H : eval (Copy.np_log1p _) _ = _ |- _ => inv_expr H
         | H : eval (Alien.np_log1p _) _ = _ |- _ => inv_expr H
         | H : eval ($field_strength .* $observer_factor) _ = _ |- _ =>
             inv_expr H
         | H : eval ($field_strength .> $cap_value) _ = _ |- _ => inv_expr H
         | H : eval (min_ _ _) _ = _ |- _ => inv_expr H
         end;
  inv_loads; look; same_some;
  unfold Capping.updated; do 7 eexists;
  repeat match goal with |- _ /\ _ => split end; look;
  [ eassumption | eassumption | eassumption
  | first [reflexivity | eassumption] | reflexivity
  | eapply field_chain; [eassumption | eassumption | eassumption
                        | eassumption | reflexivity]
  | eapply energy_chain; eassumption
  | reflexivity | reflexivity ].

Lemma copy_updated i s s' :
  Copy.body i s = (s', inr tt) ->
  exists fs' e' cap, Capping.updated s s' fs' e' cap.
Proof.
  unfold Copy.body. intro H. inv_seq H.
  all: updated_tac.
Qed.

Lemma alien_updated i s s' :
  Alien.body i s = (s', inr tt) ->
  exists fs' e' cap, Capping.updated s s' fs' e' cap.
Proof.
  unfold Alien.body. intro H. inv_seq H.
  all: updated_tac.
Qed.

(** Floating-point values and their doubles. *)
Lemma float_value v :
  is_float v = true -> exists x, v = VFloat x \/ v = VNp x.
Proof. destruct v as [z | x | x]; [discriminate | eauto | eauto]. Qed.

Lemma py_le_double a b x y :
  (a = VFloat x \/ a = VNp x) -> (b = VFloat y \/ b = VNp y) ->
  Py.le a b = (x <=? y).
Proof.
  intros [-> | ->] [-> | ->]; rewrite double_compare_leb; reflexivity.
Qed.

Lemma py_lt_double a b x y :
  (a = VFloat x \/ a = VNp x) -> (b = VFloat y \/ b = VNp y) ->
  Py.lt a b = (x <? y).
Proof.
  intros [-> | ->] [-> | ->]; rewrite double_compare_ltb; reflexivity.
Qed.

Lemma py_gt_double a b x y :
  (a = VFloat x \/ a = VNp x) -> (b = VFloat y \/ b = VNp y) ->
  Py.gt a b = (y <? x).
Proof.
  intros [-> | ->] [-> | ->]; rewrite double_compare_ltb;
    rewrite (double_compare_antisym x y); unfold Py.gt, Py.compare;
    destruct (Double.compare x y) as [[] |]; reflexivity.
Qed.

Lemma py_pow_double a x n r :
  (a = VFloat x \/ a = VNp x) -> Py.pow a n = ok r ->
  r = VFloat (Double.pow x n) \/ r = VNp (Double.pow x n).
Proof.
  intros [-> | ->]; unfold Py.pow.
  - destruct (is_finite x && is_infinity (Double.pow x n)); [discriminate |].
    intro H. inversion H. auto.
  - intro H. inversion H. auto.
Qed.

Lemma py_mul_double a b x y r :
  (a = VFloat x \/ a = VNp x) -> (b = VFloat y \/ b = VNp y) ->
  Py.mul a b = ok r -> r = VFloat (x * y) \/ r = VNp (x * y).
Proof.
  intros [-> | ->] [-> | ->] H; cbn in H; inversion H; auto.
Qed.

(** A double that is not NaN is at most another one, or above it. *)
Lemma leb_or_gtb x y :
  (0 <=? x) = true -> (0 <=? y) = true -> (y <? x) = false ->
  (x <=? y) = true.
Proof.
  intros Hx Hy. rewrite double_compare_ltb, double_compare_leb.
  rewrite (double_compare_antisym x y).
  pose proof (double_compare_total x y Hx Hy) as Ht.
  destruct (Double.compare x y) as [[] |]; cbn; congruence.
Qed.

Section Bound.

Variable bound : float.
Hypothesis bound_nonneg : (0 <=? bound) = true.
Hypothesis bound_finite : (bound <? infinity) = true.
Hypothesis bound_self : (bound <=? bound) = true.
Hypothesis sane : Capping.sane libm.

(** Lines 60-65: the field strength stays between 0 and the cap. *)
Lemma field_within o x fs y fs' :
  Py.mul (VFloat 1.1) o = ok (VFloat x) ->
  (0 <=? x) = true -> (x <? infinity) = true ->
  (fs = VFloat y \/ fs = VNp y) ->
  (0 <=? y) = true -> (y <=? bound) = true ->
  Capping.field (VFloat 1.1) o fs (VFloat bound) = ok fs' ->
  exists y', (fs' = VFloat y' \/ fs' = VNp y') /\
             (0 <=? y') = true /\ (y' <=? bound) = true.
Proof.
  intros Hmul Hx0 Hx1 Hfs Hy0 Hy1. unfold Capping.field.
  rewrite Hmul. cbn [rbind ok Py.ufunc Py.to_double].
  destruct (sane x Hx0 Hx1) as [Hf0 Hf1].
  assert (Hp : Py.mul fs (VNp (Np.log1p x)) = ok (VNp (y * Np.log1p x)))
    by (destruct Hfs as [-> | ->]; reflexivity).
  rewrite Hp. cbn [rbind ok]. unfold Capping.clamp.
  assert (Hp0 : (0 <=? y * Np.log1p x) = true).
  { apply mul_nonneg; try assumption; left;
      [apply leb_below_infinity with (y := bound) |]; assumption. }
  rewrite (py_gt_double _ _ (y * Np.log1p x) bound) by auto.
  destruct (bound <? y * Np.log1p x) eqn:Hg; intro H; inversion H; subst.
  - exists bound. auto.
  - exists (y * Np.log1p x). split; [auto |]. split; [assumption |].
    apply leb_or_gtb; assumption.
Qed.

(** Line 68: the energy density is at most the cap. *)
Lemma energy_capped fs y pv v e' :
  (fs = VFloat y \/ fs = VNp y) ->
  (0 <=? y) = true -> (y <=? bound) = true ->
  (pv = VFloat v \/ pv = VNp v) ->
  (0 <? Double.pow v 2) = true -> (Double.pow v 2 <? infinity) = true ->
  Capping.energy fs pv (VFloat bound) = ok e' ->
  Py.le e' (VFloat bound) = true.
Proof.
  intros Hfs Hy0 Hy1 Hpv Hv0 Hv1. unfold Capping.energy.
  destruct (Py.pow fs 2) as [e | f2] eqn:Hf2; [discriminate |].
  cbn [rbind ok].
  destruct (Py.mul (VFloat 0.5) f2) as [e | h] eqn:Hh; [discriminate |].
  cbn [rbind ok].
  destruct (Py.pow pv 2) as [e | v2] eqn:Hv2; [discriminate |].
  cbn [rbind ok].
  destruct (Py.mul h v2) as [e | en] eqn:Hen; [discriminate |].
  cbn [rbind ok]. intro H. inversion H; subst e'. clear H.
  apply (py_pow_double _ _ _ _ Hfs) in Hf2.
  apply (py_pow_double _ _ _ _ Hpv) in Hv2.
  apply (py_mul_double _ _ 0.5 _ _ (or_introl eq_refl) Hf2) in Hh.
  apply (py_mul_double _ _ _ _ _ Hh Hv2) in Hen.
  assert (Hy2 : (y <? infinity) = true)
    by (apply leb_below_infinity with (y := bound); assumption).
  assert (Hq : (0 <=? Double.pow y 2) = true)
    by (cbn [Double.pow]; apply mul_nonneg; auto).
  assert (Hhalf : (0 <=? 0.5 * Double.pow y 2) = true)
    by (apply mul_nonneg; auto).
  assert (He : (0 <=? 0.5 * Double.pow y 2 * Double.pow v 2) = true)
    by (apply mul_nonneg; auto using ltb_leb).
  unfold Py.min.
  rewrite (py_lt_double _ _ bound _ (or_introl eq_refl) Hen).
  destruct (bound <? 0.5 * Double.pow y 2 * Double.pow v 2) eqn:Hlt.
  - rewrite (py_le_double _ _ bound bound) by auto. exact bound_self.
  - rewrite (py_le_double _ _ _ bound Hen) by auto.
    apply leb_or_gtb; assumption.
Qed.

End Bound.

End Caps.

(** ** The caps along the two runs *)

Section CappedRuns.

Context {libm : Np.Libm}.
Import Name.
Local Open Scope float_scope.

Lemma calm_inv v o :
  Facts.calm v o = true ->
  (exists x, Py.mul (VFloat 1.1) o = ok (VFloat x) /\
             (0 <=? x) = true /\ (x <? infinity) = true) /\
  (0 <? Double.pow v 2) = true /\ (Double.pow v 2 <? infinity) = true.
Proof.
  unfold Facts.calm. intro H.
  apply andb_prop in H as [H H3]. apply andb_prop in H as [H1 H2].
  split; [| split; assumption].
  destruct (Py.mul (VFloat 1.1) o) as [e | [z | x | x]]; try discriminate.
  apply andb_prop in H1 as [Ha Hb]. exists x. auto.
Qed.

Lemma copy_calm k :
  (k < CopyLoop.steps)%nat ->
  Facts.calm (CopyRun.velocity (CopyRun.at_ (S k)))
             (CopyRun.observers (CopyRun.at_ (S k))) = true.
Proof.
  intro Hk. rewrite copy_at_succ.
  exact (sweep_sound _ _ _ _ copy_calm_sweep k Hk).
Qed.

Lemma alien_calm k :
  (k < AlienLoop.steps)%nat ->
  Facts.calm (AlienRun.velocity (AlienRun.at_ (S k)))
             (AlienRun.observers (AlienRun.at_ (S k))) = true.
Proof.
  intro Hk. rewrite alien_at_succ.
  exact (sweep_sound _ _ _ _ alien_calm_sweep k Hk).
Qed.

Lemma copy_initial_field :
  vars CopyRun.initial field_strength = Some (VFloat 1e20).
Proof. vm_compute. reflexivity. Qed.

Lemma alien_initial_field :
  vars AlienRun.initial field_strength = Some (VFloat 1e-20).
Proof. vm_compute. reflexivity. Qed.

(** What a capped step needs and gives, for a cap [bound]. *)
Lemma capped_advance bound s s' fs' e' o pv v :
  (0 <=? bound) = true -> (bound <? infinity) = true ->
  (bound <=? bound) = true -> Capping.sane libm ->
  Capping.within (VFloat bound) s ->
  Capping.updated s s' fs' e' (VFloat bound) ->
  vars s' observer_influence_factor = Some (VFloat 1.1) ->
  vars s' current_observers = Some o ->
  vars s' plasma_velocity = Some pv ->
  (pv = VFloat v \/ pv = VNp v) ->
  Facts.calm v o = true ->
  Capping.within (VFloat bound) s' /\ Capping.capped_step bound s s'.
Proof.
  intros Hb0 Hb1 Hb2 Hsane (fs & Hfs & Hfl & H0 & H1) Hu Hinf Ho Hpv Hv Hcalm.
  pose proof Hu
    as (fs0 & infl & o0 & pv0 & U1 & U2 & U3 & U4 & U5 & U6 & U7 & U8 & U9).
  rewrite Hfs in U1. rewrite Hinf in U2. rewrite Ho in U4. rewrite Hpv in U5.
  inversion U1; inversion U2; inversion U4; inversion U5; subst.
  clear U1 U2 U4 U5.
  destruct (float_value fs0 Hfl) as [y Hy].
  rewrite (py_le_double _ _ 0 y (or_introl eq_refl) Hy) in H0.
  rewrite (py_le_double _ _ y bound Hy (or_introl eq_refl)) in H1.
  apply calm_inv in Hcalm as ((x & Hmul & Hx0 & Hx1) & Hv0 & Hv1).
  destruct (field_within bound Hb0 Hb1 Hb2 Hsane _ _ _ _ _ Hmul Hx0 Hx1 Hy H0 H1 U6)
    as (y' & Hy' & Hy0 & Hy1).
  pose proof (energy_capped bound Hb0 Hb1 Hb2 _ _ _ _ _ Hy' Hy0 Hy1 Hv Hv0 Hv1 U7)
    as He.
  assert (Hle : Py.le fs' (VFloat bound) = true)
    by (rewrite (py_le_double _ _ y' bound Hy' (or_introl eq_refl));
        exact Hy1).
  split.
  - exists fs'. split; [exact U8 |].
    split; [destruct Hy' as [-> | ->]; reflexivity |].
    split; [| exact Hle].
    rewrite (py_le_double _ _ 0 y' (or_introl eq_refl) Hy'). exact Hy0.
  - exists fs', e'. auto.
Qed.

Hypothesis sane : Capping.sane libm.

Lemma copy_capped_advance k s :
  (k < CopyLoop.steps)%nat -> CopyLoop.reached k s ->
  Capping.within (VFloat 1e24) s ->
  exists s', Copy.body (Z.of_nat k + 1) s = (s', inr tt) /\
             CopyLoop.reached (S k) s' /\
             Capping.within (VFloat 1e24) s' /\
             Capping.capped_step 1e24 s s'.
Proof.
  intros Hk Hs Hw.
  destruct (copy_advance k s Hk Hs) as (s' & Hb & Hs').
  exists s'. split; [exact Hb |]. split; [exact Hs' |].
  destruct (copy_updated _ _ _ Hb) as (fs' & e' & cap & Hu).
  destruct Hs' as (lT' & _ & HI' & _).
  assert (cap = VFloat 1e24) as ->.
  { destruct Hu as (? & ? & ? & ? & _ & _ & U3 & _).
    rewrite (CopyRun.inv_cap_value _ _ _ _ _ _ HI') in U3.
    inversion U3. reflexivity. }
  eapply (capped_advance 1e24); try reflexivity; try eassumption.
  - apply HI'.
  - apply HI'.
  - apply HI'.
  - left. reflexivity.
  - apply copy_calm. exact Hk.
Qed.

Lemma alien_capped_advance k s :
  (k < AlienLoop.steps)%nat -> AlienLoop.reached k s ->
  Capping.within (VFloat 1e35) s ->
  exists s', Alien.body (Z.of_nat k + 1) s = (s', inr tt) /\
             AlienLoop.reached (S k) s' /\
             Capping.within (VFloat 1e35) s' /\
             Capping.capped_step 1e35 s s'.
Proof.
  intros Hk Hs Hw.
  destruct (alien_advance k s Hk Hs) as (s' & Hb & Hs').
  exists s'. split; [exact Hb |]. split; [exact Hs' |].
  destruct (alien_updated _ _ _ Hb) as (fs' & e' & cap & Hu).
  destruct Hs' as (lT' & _ & HI' & _).
  assert (cap = VFloat 1e35) as ->.
  { destruct Hu as (? & ? & ? & ? & _ & _ & U3 & _).
    rewrite (AlienRun.inv_cap_value _ _ _ _ _ _ HI') in U3.
    inversion U3. reflexivity. }
  eapply (capped_advance 1e35); try reflexivity; try eassumption.
  - apply HI'.
  - apply HI'.
  - apply HI'.
  - right. reflexivity.
  - apply alien_calm. exact Hk.
Qed.

Lemma copy_within k :
  (k <= CopyLoop.steps)%nat ->
  exists s, CopyLoop.reached k s /\ Capping.within (VFloat 1e24) s.
Proof.
  induction k as [| k IH]; intro Hk.
  - exists CopyRun.initial. split; [apply copy_start |].
    exists (VFloat 1e20). split; [apply copy_initial_field |].
    repeat split.
  - destruct IH as (s & Hs & Hw); [lia |].
    destruct (copy_capped_advance k s ltac:(lia) Hs Hw)
      as (s' & _ & Hs' & Hw' & _).
    exists s'. split; assumption.
Qed.

Lemma alien_within k :
  (k <= AlienLoop.steps)%nat ->
  exists s, AlienLoop.reached k s /\ Capping.within (VFloat 1e35) s.
Proof.
  induction k as [| k IH]; intro Hk.
  - exists AlienRun.initial. split; [apply alien_start |].
    exists (VFloat 1e-20). split; [apply alien_initial_field |].
    repeat split.
  - destruct IH as (s & Hs & Hw); [lia |].
    destruct (alien_capped_advance k s ltac:(lia) Hs Hw)
      as (s' & _ & Hs' & Hw' & _).
    exists s'. split; assumption.
Qed.

Lemma copy_capped k :
  (k < CopyLoop.steps)%nat ->
  exists s s',
    CopyRun.first k CopyRun.initial = (s, inr k) /\
    Copy.iteration (Z.of_nat k + 1) s = (s', inr tt) /\
    Capping.capped_step 1e24 s s'.
Proof.
  intro Hk. destruct (copy_within k) as (s & Hs & Hw); [lia |].
  destruct (copy_capped_advance k s Hk Hs Hw) as (s' & Hb & _ & _ & Hc).
  destruct Hs as (lT & Hrun & _).
  exists s, s'. split; [exact Hrun |].
  split; [apply try_except_ok; exact Hb | exact Hc].
Qed.

Lemma alien_capped k :
  (k < AlienLoop.steps)%nat ->
  exists s s',
    AlienRun.first k AlienRun.initial = (s, inr k) /\
    Alien.iteration (Z.of_nat k + 1) s = (s', inr tt) /\
    Capping.capped_step 1e35 s s'.
Proof.
  intro Hk. destruct (alien_within k) as (s & Hs & Hw); [lia |].
  destruct (alien_capped_advance k s Hk Hs Hw) as (s' & Hb & _ & _ & Hc).
  destruct Hs as (lT & Hrun & _).
  exists s, s'. split; [exact Hrun |].
  split; [apply try_except_ok; exact Hb | exact Hc].
Qed.

End CappedRuns.

(** C3.  In both scripts every iteration of the loop runs without an
    exception and leaves the capping invariant: [field_strength], which is
    its old value times [np.log1p(observer_influence_factor *
    current_observers)] clamped down to [cap_value], is at most [cap_value];
    and [energy_density], which is [min(0.5 * field_strength**2 *
    plasma_velocity**2, cap_value)], is at most [cap_value]; where
    [cap_value] is [1e35] in [alien_weaponry.py] and [1e24] in
    [copyandpaste.py].  The C library's [log1p] is taken to map the finite
    doubles from 0 on to finite doubles from 0 on. *)
Theorem capping_invariant (libm : Np.Libm) (k : nat) :
  Capping.sane libm ->
  ((k < AlienLoop.steps)%nat ->
   exists s s',
     AlienRun.first k AlienRun.initial = (s, inr k) /\
     Alien.iteration (Z.of_nat k + 1) s = (s', inr tt) /\
     Capping.capped_step 1e35 s s') /\
  ((k < CopyLoop.steps)%nat ->
   exists s s',
     CopyRun.first k CopyRun.initial = (s, inr k) /\
     Copy.iteration (Z.of_nat k + 1) s = (s', inr tt) /\
     Capping.capped_step 1e24 s s').
Proof.
  intro Hsane. split; [apply alien_capped | apply copy_capped]; exact Hsane.
Qed.

Lemma capping_invariant_witness :
  (exists s s',
     AlienRun.first (libm := Demo.staircase) 0
       (AlienRun.initial (libm := Demo.staircase)) = (s, inr 0%nat) /\
     Alien.iteration (libm := Demo.staircase) 1 s = (s', inr tt) /\
     Capping.capped_step (libm := Demo.staircase) 1e35 s s') /\
  (exists s s',
     CopyRun.first (libm := Demo.staircase) 0
       (CopyRun.initial (libm := Demo.staircase)) = (s, inr 0%nat) /\
     Copy.iteration (libm := Demo.staircase) 1 s = (s', inr tt) /\
     Capping.capped_step (libm := Demo.staircase) 1e24 s s').
Proof.
  destruct (capping_invariant Demo.staircase 0) as [Ha Hc].
  - intros x H0 H1. cbn [Np.log1p Demo.staircase].
    destruct (x <? 1)%float; split; first [assumption | reflexivity].
  - split; [apply Ha; unfold AlienLoop.steps | apply Hc; unfold CopyLoop.steps];
      lia.
Defined.

(** ** The export after the run *)

Lemma bind_run {A C} (m : M A) (k : A -> M C) s s1 a :
  m s = (s1, inr a) -> bind m k s = k a s1.
Proof. intro H. unfold bind. rewrite H. reflexivity. Qed.

(** Reading cell [i] of every column succeeds when the columns are bound to
    arrays of [n] cells and [i] is an index of theirs. *)
Lemma row_run n i s : forall cols,
  (forall a, In a cols -> exists l, arrs s a = Some l /\ length l = n) ->
  (0 <= i < Z.of_nat n)%Z ->
  exists r, row cols i s = (s, inr r).
Proof.
  induction cols as [| a cols IH]; intros Hc Hi; cbn [row].
  - eexists. reflexivity.
  - destruct (Hc a (or_introl eq_refl)) as (l & Ha & Hl).
    destruct IH as (r & Hr); [intros b Hb; apply Hc; right; exact Hb | exact Hi |].
    assert (Hg : getitem a i s = (s, inr (VNp (nth (Z.to_nat i) l 0%float)))).
    { assert (Hn : Np.getitem l i = ok (VNp (nth (Z.to_nat i) l 0%float))).
      { unfold Np.getitem, Np.index. rewrite Hl.
        replace ((0 <=? i)%Z && (i <? Z.of_nat n)%Z) with true
          by (symmetry; apply andb_true_intro;
              split; [apply Z.leb_le | apply Z.ltb_lt]; lia).
        reflexivity. }
      rewrite (pure_run (getitem a i) s) by pure_tac.
      rewrite (eval_getitem a i s l _ Ha Hn). reflexivity. }
    rewrite (bind_run _ _ _ _ _ Hg).
    unfold lift at 1. cbn [Py.to_double]. erewrite bind_run by reflexivity.
    rewrite (bind_run _ _ _ _ _ Hr). eexists. reflexivity.
Qed.

Lemma rows_run n cols s k : forall lo,
  (forall a, In a cols -> exists l, arrs s a = Some l /\ length l = n) ->
  (0 <= lo)%Z -> (lo + Z.of_nat k <= Z.of_nat n)%Z ->
  exists t, rows cols (Np.iota lo k) s = (s, inr t).
Proof.
  induction k as [| k IH]; intros lo Hc Hlo Hhi; cbn [Np.iota rows].
  - eexists. reflexivity.
  - destruct (row_run n lo s cols Hc ltac:(lia)) as (r & Hr).
    destruct (IH (lo + 1)%Z Hc ltac:(lia) ltac:(lia)) as (t & Ht).
    rewrite (bind_run _ _ _ _ _ Hr), (bind_run _ _ _ _ _ Ht).
    eexists. reflexivity.
Qed.

Lemma tolists_run s : forall keys,
  (forall k, In k keys -> exists l, arrs s (snd k) = Some l) ->
  exists d, tolists keys s = (s, inr d).
Proof.
  induction keys as [| [k a] keys IH]; intro Hc; cbn [tolists].
  - eexists. reflexivity.
  - destruct (Hc (k, a) (or_introl eq_refl)) as (l & Ha). cbn [snd] in Ha.
    destruct IH as (d & Hd); [intros b Hb; apply Hc; right; exact Hb |].
    assert (Hl : load_arr a s = (s, inr l)) by (unfold load_arr; rewrite Ha; reflexivity).
    rewrite (bind_run _ _ _ _ _ Hl), (bind_run _ _ _ _ _ Hd).
    eexists. reflexivity.
Qed.

(** The export of [alien_weaponry.py] completes on a store that binds
    [time_array] and the result arrays to arrays of one length. *)
Lemma alien_exports_run n s :
  (forall a, In a (Name.time_array :: result_arrays) ->
             exists l, arrs s a = Some l /\ length l = n) ->
  exists files, Alien.exports s = (s, inr files).
Proof.
  intro Hc. unfold Alien.exports.
  destruct (tolists_run s Alien.json_keys) as (d & Hd).
  { intros k Hk. destruct (Hc (snd k)) as (l & Hl & _); [| eauto].
    apply (in_map snd) in Hk. exact Hk. }
  destruct (Hc Name.time_array (or_introl eq_refl)) as (ta & Hta & Hn).
  assert (Hlen : len Name.time_array s = (s, inr n)).
  { unfold len, bind, load_arr, ret. rewrite Hta, <- Hn. reflexivity. }
  assert (Hcols : forall a, In a Alien.csv_columns ->
                            exists l, arrs s a = Some l /\ length l = n).
  { intros a Ha. apply Hc. cbn [In Alien.csv_columns result_arrays] in *.
    intuition auto. }
  rewrite (bind_run _ _ _ _ _ Hd), (bind_run _ _ _ _ _ Hlen).
  unfold range. rewrite Z.sub_0_r, Nat2Z.id.
  destruct (rows_run n Alien.csv_columns s n 0 Hcols ltac:(lia) ltac:(lia))
    as (t & Ht).
  destruct (rows_run n (map snd Alien.frame_keys) s n 0 Hcols ltac:(lia)
              ltac:(lia)) as (f & Hf).
  rewrite (bind_run _ _ _ _ _ Ht), (bind_run _ _ _ _ _ Hf).
  eexists. reflexivity.
Qed.

Section ExportOnRuns.

Context {libm : Np.Libm}.

Lemma copy_script_exports_nothing :
  exists s, Copy.script empty = (s, inr []).
Proof.
  destruct copy_completes as (s & Hl & _). exists s.
  unfold Copy.script.
  eapply bind_prelude; [apply copy_prelude |].
  rewrite (bind_run _ _ _ _ _ Hl). reflexivity.
Qed.

Lemma alien_script_exports :
  exists s n files,
    bind Alien.prelude (fun _ => Alien.loop) empty = (s, inr n) /\
    AlienLoop.reached n s /\
    Alien.exports s = (s, inr files) /\
    Alien.script empty = (s, inr files).
Proof.
  destruct alien_completes as (s & Hl & Hr).
  pose proof Hr as (lT & _ & HI & _).
  destruct (alien_exports_run AlienRun.cells s) as (files & Hf).
  { intros a [<- | Ha].
    - exists AlienRun.times.
      split; [exact (AlienRun.inv_time_array _ _ _ _ _ _ HI)
             | exact alien_length_times].
    - apply (AlienRun.inv_arrays _ _ _ _ _ _ HI). exact Ha. }
  exists s, AlienLoop.steps, files.
  split; [eapply bind_prelude; [apply alien_prelude | exact Hl] |].
  split; [exact Hr |]. split; [exact Hf |].
  unfold Alien.script.
  eapply bind_prelude; [apply alien_prelude |].
  rewrite (bind_run _ _ _ _ _ Hl). exact Hf.
Qed.

End ExportOnRuns.

(** C8, as amended.  [copyandpaste.py] writes no file: its export is empty
    on every store, and so is what the whole script writes.
    [alien_weaponry.py], run from the empty store, completes its loop and
    then its export, on the store the loop has left: it writes one JSON
    file and two CSV files; the JSON object has one key per array,
    [time_array] and the eleven result arrays, each with the whole array;
    the CSV files have one row per time step, 69,000 of them, with the
    cells of [time_array] and of every result array except [volume_array].
    Whenever the export completes, on any store, the files are these. *)
Theorem files_written (libm : Np.Libm) :
  (forall s, Copy.exports s = (s, inr [])) /\
  (exists s, Copy.script empty = (s, inr [])) /\
  (exists s n ta data table frame,
     bind Alien.prelude (fun _ => Alien.loop) empty = (s, inr n) /\
     AlienLoop.reached n s /\
     Alien.script empty
     = (s, inr [("simulation_data.json", Json data);
                ("simulation_results.csv", Csv Alien.header table);
                ("simulation_data.csv",
                 Csv (map fst Alien.frame_keys) frame)]%string) /\
     arrs s Name.time_array = Some ta /\
     Z.of_nat (length ta) = 69000%Z /\
     Forall2 (Export_.field_of s) Alien.json_keys data /\
     Forall2 (Export_.row_of s Alien.csv_columns)
             (range 0 (Z.of_nat (length ta))) table /\
     Forall2 (Export_.row_of s (map snd Alien.frame_keys))
             (range 0 (Z.of_nat (length ta))) frame) /\
  (forall s s' files, Alien.exports s = (s', inr files) ->
     s' = s /\
     exists ta data table frame,
       arrs s Name.time_array = Some ta /\
       files = [("simulation_data.json", Json data);
                ("simulation_results.csv", Csv Alien.header table);
                ("simulation_data.csv",
                 Csv (map fst Alien.frame_keys) frame)]%string /\
       Forall2 (Export_.field_of s) Alien.json_keys data /\
       Forall2 (Export_.row_of s Alien.csv_columns)
               (range 0 (Z.of_nat (length ta))) table /\
       Forall2 (Export_.row_of s (map snd Alien.frame_keys))
               (range 0 (Z.of_nat (length ta))) frame) /\
  map snd Alien.json_keys = Name.time_array :: result_arrays /\
  Alien.csv_columns
    = Name.time_array
      :: filter (fun a => negb (Name.arr_beq a Name.volume_array)) result_arrays /\
  map snd Alien.frame_keys = Alien.csv_columns.
Proof.
  split; [reflexivity |].
  split; [apply copy_script_exports_nothing |].
  split.
  { destruct alien_script_exports as (s & n & files & Hrun & Hr & Hf & Hs).
    destruct (alien_exports_inv _ _ _ Hf)
      as (_ & ta & data & table & frame & Hta & Hfiles & Hd & Ht & Hfr).
    exists s, n, ta, data, table, frame.
    split; [exact Hrun |]. split; [exact Hr |].
    split; [rewrite <- Hfiles; exact Hs |].
    split; [exact Hta |].
    split; [| split; [exact Hd | split; [exact Ht | exact Hfr]]].
    destruct Hr as (lT & _ & HI & _).
    pose proof (AlienRun.inv_time_array _ _ _ _ _ _ HI) as Hta'.
    rewrite Hta in Hta'. inversion Hta' as [Heq].
    rewrite alien_length_times. apply alien_cells. }
  split; [intros s s' files H; apply alien_exports_inv; exact H |].
  repeat split.
Qed.

Lemma files_written_witness :
  exists files, Alien.exports Demo.store = (Demo.store, inr files) /\
                length files = 3%nat.
Proof.
  destruct (files_written Demo.staircase) as (_ & _ & _ & H & _).
  destruct (Alien.exports Demo.store) as [s' [e | files]] eqn:E;
    [vm_compute in E; discriminate |].
  destruct (H Demo.store s' files E)
    as (-> & ta & data & table & frame & _ & -> & _).
  eexists. split; reflexivity.
Defined.

(** ** What never happens in the two runs *)

(** X1.  In the runs of both scripts no iteration of the loop raises,
    whatever the C library returns for [log1p], [exp] and [tanh]: the
    statements under [try] complete in every one of the 68,999 iterations of
    [alien_weaponry.py] and of the 95,999 iterations of [copyandpaste.py],
    so that no [except] clause is ever entered. *)
Theorem no_iteration_raises (libm : Np.Libm) (k : nat) :
  ((k < AlienLoop.steps)%nat ->
   exists s s',
     AlienRun.first k AlienRun.initial = (s, inr k) /\
     Alien.body (Z.of_nat k + 1) s = (s', inr tt)) /\
  ((k < CopyLoop.steps)%nat ->
   exists s s',
     CopyRun.first k CopyRun.initial = (s, inr k) /\
     Copy.body (Z.of_nat k + 1) s = (s', inr tt)).
Proof.
  split; intro Hk.
  - destruct (alien_reached k) as (s & Hs); [lia |].
    destruct (alien_advance k s Hk Hs) as (s' & Hb & _).
    destruct Hs as (lT & Hrun & _). exists s, s'. auto.
  - destruct (copy_reached k) as (s & Hs); [lia |].
    destruct (copy_advance k s Hk Hs) as (s' & Hb & _).
    destruct Hs as (lT & Hrun & _). exists s, s'. auto.
Qed.

Lemma no_iteration_raises_witness :
  (exists s s',
     AlienRun.first (libm := Demo.staircase) 7
       (AlienRun.initial (libm := Demo.staircase)) = (s, inr 7%nat) /\
     Alien.body (libm := Demo.staircase) 8 s = (s', inr tt)) /\
  (exists s s',
     CopyRun.first (libm := Demo.staircase) 7
       (CopyRun.initial (libm := Demo.staircase)) = (s, inr 7%nat) /\
     Copy.body (libm := Demo.staircase) 8 s = (s', inr tt)).
Proof.
  destruct (no_iteration_raises Demo.staircase 7) as [Ha Hc].
  split; [apply Ha; unfold AlienLoop.steps | apply Hc; unfold CopyLoop.steps];
    lia.
Defined.

(** ** The observers *)

Lemma copy_doubled_sweep :
  sweep CopyRun.next Observers.copy_doubled_at CopyLoop.steps 0 CopyRun.start
  = true.
Proof. vm_compute. reflexivity. Qed.

Lemma alien_added_sweep :
  sweep AlienRun.next Observers.alien_added_at AlienLoop.steps 0 AlienRun.start
  = true.
Proof. vm_compute. reflexivity. Qed.

Lemma same_value_eq a b : Observers.same_value a b = true -> a = b.
Proof.
  destruct a as [x | x | x], b as [y | y | y]; cbn; try discriminate; intro H.
  - apply Z.eqb_eq in H. congruence.
  - apply FloatAxioms.Leibniz.eqb_spec in H. congruence.
  - apply FloatAxioms.Leibniz.eqb_spec in H. congruence.
Qed.

Section ObserversProofs.

Context {libm : Np.Libm}.
Import Name.

Lemma copy_doubled k :
  (k <= CopyLoop.steps)%nat ->
  CopyRun.observers (CopyRun.at_ k) = Observers.doubled (Z.of_nat k) /\
  Py.le (CopyRun.observers (CopyRun.at_ k)) (VFloat 1e6) = true.
Proof.
  intro Hk. destruct k as [| k]; [split; reflexivity |].
  pose proof (sweep_sound _ _ _ _ copy_doubled_sweep k ltac:(lia)) as H.
  unfold Observers.copy_doubled_at in H. rewrite <- copy_at_succ in H.
  apply andb_prop in H as [H1 H2]. apply same_value_eq in H1.
  replace (Z.of_nat (S k)) with (Z.of_nat k + 1)%Z by lia. auto.
Qed.

Lemma alien_added k :
  (k <= AlienLoop.steps)%nat ->
  AlienRun.observers (AlienRun.at_ k) = Observers.added (Z.of_nat k) /\
  Py.lt (AlienRun.observers (AlienRun.at_ k)) (VFloat 1e6) = true.
Proof.
  intro Hk. destruct k as [| k]; [split; reflexivity |].
  pose proof (sweep_sound _ _ _ _ alien_added_sweep k ltac:(lia)) as H.
  unfold Observers.alien_added_at in H. rewrite <- alien_at_succ in H.
  apply andb_prop in H as [H1 H2]. apply same_value_eq in H1.
  replace (Z.of_nat (S k)) with (Z.of_nat k + 1)%Z by lia. auto.
Qed.

End ObserversProofs.

(** X2.  The number of observers has a closed form in both runs.  After [k]
    iterations of [alien_weaponry.py], [current_observers] is the [int]
    [1 + 2 * (k // 100)]; it stays below [1e6], so the second condition of
    line 80 never stops an increase.  After [k] iterations of
    [copyandpaste.py] it is the [int] [2 ** (k // 45)] for [k < 900] and the
    [float] [1e6] from then on; it never exceeds [1e6]. *)
Theorem observers_have_closed_forms (libm : Np.Libm) (k : nat) :
  ((k <= AlienLoop.steps)%nat ->
   exists s o,
     AlienRun.first k AlienRun.initial = (s, inr k) /\
     vars s Name.current_observers = Some o /\
     o = Observers.added (Z.of_nat k) /\ Py.lt o (VFloat 1e6) = true) /\
  ((k <= CopyLoop.steps)%nat ->
   exists s o,
     CopyRun.first k CopyRun.initial = (s, inr k) /\
     vars s Name.current_observers = Some o /\
     o = Observers.doubled (Z.of_nat k) /\ Py.le o (VFloat 1e6) = true).
Proof.
  split; intro Hk.
  - destruct (alien_reached k Hk) as (s & lT & Hrun & HI & _).
    destruct (alien_added k Hk) as [H1 H2].
    exists s, (AlienRun.observers (AlienRun.at_ k)).
    split; [exact Hrun |]. split; [apply HI |]. auto.
  - destruct (copy_reached k Hk) as (s & lT & Hrun & HI & _).
    destruct (copy_doubled k Hk) as [H1 H2].
    exists s, (CopyRun.observers (CopyRun.at_ k)).
    split; [exact Hrun |]. split; [apply HI |]. auto.
Qed.

Lemma observers_have_closed_forms_witness :
  (exists s o,
     AlienRun.first (libm := Demo.staircase) 250
       (AlienRun.initial (libm := Demo.staircase)) = (s, inr 250%nat) /\
     vars s Name.current_observers = Some o /\
     o = Observers.added 250 /\ Py.lt o (VFloat 1e6) = true) /\
  (exists s o,
     CopyRun.first (libm := Demo.staircase) 250
       (CopyRun.initial (libm := Demo.staircase)) = (s, inr 250%nat) /\
     vars s Name.current_observers = Some o /\
     o = Observers.doubled 250 /\ Py.le o (VFloat 1e6) = true).
Proof.
  destruct (observers_have_closed_forms Demo.staircase 250) as [Ha Hc].
  split; [apply Ha; unfold AlienLoop.steps | apply Hc; unfold CopyLoop.steps];
    lia.
Defined.

(** ** The time axis *)

Lemma rising_sweep :
  sweep TimeAxis.shift TimeAxis.rising CopyLoop.steps 0 TimeAxis.start = true.
Proof. vm_compute. reflexivity. Qed.

Section TimeAxisProofs.

Context {libm : Np.Libm}.
Import Name.
Local Open Scope float_scope.

Lemma nth_cells n i :
  (i < n)%nat ->
  nth i (map (Np.arange_cell 0 0.1) (Np.iota 0 n)) 0
  = Np.arange_cell 0 0.1 (Z.of_nat i).
Proof.
  intro Hi.
  rewrite nth_indep with (d' := Np.arange_cell 0 0.1 0)
    by (rewrite length_map, length_iota; exact Hi).
  rewrite map_nth. f_equal. rewrite nth_iota by exact Hi. lia.
Qed.

Lemma shift_orbit k :
  orbit TimeAxis.shift TimeAxis.start k
  = (Np.arange_cell 0 0.1 (Z.of_nat k),
     Np.arange_cell 0 0.1 (Z.of_nat k + 1)).
Proof.
  induction k as [| k IH]; [reflexivity |].
  cbn [orbit]. rewrite IH. unfold TimeAxis.shift. cbn [snd].
  f_equal; f_equal; lia.
Qed.

Lemma cells_rise k :
  (k < CopyLoop.steps)%nat ->
  (Np.arange_cell 0 0.1 (Z.of_nat k)
   <? Np.arange_cell 0 0.1 (Z.of_nat (S k))) = true.
Proof.
  intro Hk. pose proof (sweep_sound _ _ _ _ rising_sweep k Hk) as H.
  rewrite shift_orbit in H. unfold TimeAxis.rising in H. cbn [fst snd] in H.
  replace (Z.of_nat (S k)) with (Z.of_nat k + 1)%Z by lia. exact H.
Qed.

(** The axis of a script whose loop has [steps] iterations. *)
Lemma axis_laid_out s total stop steps :
  (steps <= CopyLoop.steps)%nat ->
  Py.to_double total = ok stop ->
  (Np.arange_cell 0 0.1 (Z.of_nat steps) <? stop) = true ->
  arrs s time_array
  = Some (map (Np.arange_cell 0 0.1) (Np.iota 0 (S steps))) ->
  vars s total_time = Some total ->
  TimeAxis.laid_out s (S steps).
Proof.
  intros Hn Hstop Hlast Hta Htot.
  assert (Hinc : forall i j, (i < j <= steps)%nat ->
            (Np.arange_cell 0 0.1 (Z.of_nat i)
             <? Np.arange_cell 0 0.1 (Z.of_nat j)) = true).
  { intros i j Hij.
    apply (increasing_chain (fun k => Np.arange_cell 0 0.1 (Z.of_nat k))
             steps); [| exact Hij].
    intros k Hk. apply cells_rise. lia. }
  eexists _, _, _. split; [exact Hta |].
  split; [now rewrite length_map, length_iota |].
  split; [exact Htot |]. split; [exact Hstop |].
  split; [rewrite nth_cells by lia; reflexivity |].
  split.
  - intros i j Hij. rewrite !nth_cells by lia. apply Hinc. lia.
  - intros i Hi. rewrite nth_cells by lia.
    destruct (Nat.eq_dec i steps) as [-> | Hne]; [exact Hlast |].
    apply ltb_trans with (y := Np.arange_cell 0 0.1 (Z.of_nat steps));
      [apply Hinc; lia | exact Hlast].
Qed.

Lemma copy_prelude_times :
  arrs CopyRun.initial time_array = Some CopyRun.times.
Proof.
  assert (H : exists s', Copy.prelude empty = (s', inr tt) /\
                         arrs s' time_array = Some CopyRun.times).
  { unfold Copy.prelude.
    do 13 run_assign.
    run_assign_as (VFloat 0.1).
    eapply bind_ex.
    { unfold bind, load, lift, store_arr, ok. look.
      rewrite copy_arange. reflexivity. }
    cbv beta.
    do 9 run_zeros.
    do 8 run_assign.
    eexists. split; [apply assign_run; [pure_tac | ev] |].
    look. reflexivity. }
  destruct H as (s' & Hp & Ht).
  destruct copy_prelude as [Hp' _]. rewrite Hp' in Hp.
  inversion Hp; subst s'. exact Ht.
Qed.

End TimeAxisProofs.

(** X3.  The time axis [np.arange(0, total_time, dt)] both scripts build
    has exactly [time_steps] cells (69,000 and 96,000), starts at 0,
    increases strictly from cell to cell, and stays below [total_time] in
    every cell: the floating-point step does not let the end point in. *)
Theorem time_axis_is_laid_out (libm : Np.Libm) :
  (exists s, Alien.prelude empty = (s, inr tt) /\
             TimeAxis.laid_out s (Z.to_nat 69000)) /\
  (exists s, Copy.prelude empty = (s, inr tt) /\
             TimeAxis.laid_out s (Z.to_nat 96000)).
Proof.
  split.
  - exists AlienRun.initial. split; [apply alien_prelude |].
    destruct alien_prelude as [_ HI].
    replace (Z.to_nat 69000) with (S AlienLoop.steps)
      by (unfold AlienLoop.steps; lia).
    apply (axis_laid_out _ (VInt 6900) 6900%float).
    + unfold AlienLoop.steps, CopyLoop.steps. lia.
    + vm_compute. reflexivity.
    + rewrite alien_steps. vm_compute. reflexivity.
    + replace (S AlienLoop.steps) with AlienRun.cells
        by (unfold AlienLoop.steps, AlienRun.cells; lia).
      exact (AlienRun.inv_time_array _ _ _ _ _ _ HI).
    + apply HI.
  - exists CopyRun.initial. split; [apply copy_prelude |].
    destruct copy_prelude as [_ HI].
    replace (Z.to_nat 96000) with (S CopyLoop.steps)
      by (unfold CopyLoop.steps; lia).
    apply (axis_laid_out _ (VInt 9600) 9600%float).
    + lia.
    + vm_compute. reflexivity.
    + rewrite copy_steps. vm_compute. reflexivity.
    + replace (S CopyLoop.steps) with CopyRun.cells
        by (unfold CopyLoop.steps, CopyRun.cells; lia).
      exact copy_prelude_times.
    + apply HI.
Qed.

(** ** The [except] clauses of alien_weaponry.py *)

Lemma index_fails n i e : Np.index n i = inl e -> e = IndexError.
Proof.
  unfold Np.index, ok, fail.
  destruct ((0 <=? i) && (i <? Z.of_nat n)); [discriminate |].
  destruct ((- Z.of_nat n <=? i) && (i <? 0)); [discriminate |].
  congruence.
Qed.

Lemma getitem_fails l i e : Np.getitem l i = inl e -> e = IndexError.
Proof.
  unfold Np.getitem, rbind.
  destruct (Np.index (length l) i) as [e' |] eqn:H; [| discriminate].
  intro E. inversion E; subst. eapply index_fails; eassumption.
Qed.

Lemma subscript_scalar_raises x i s :
  exists e, subscript_scalar x i s = (s, inl e) /\
            (e = TypeError \/ e = IndexError \/ e = NameError).
Proof.
  unfold subscript_scalar, bind, load, raise, fail, ok.
  destruct (vars s x) as [[z | f | f] |]; eexists; split;
    first [reflexivity | auto].
Qed.

Lemma copy_previous_fails a i s s' e :
  copy_previous a i s = (s', inl e) -> e = IndexError \/ e = NameError.
Proof.
  unfold copy_previous, setitem, getitem, bind, load_arr, lift, store_arr,
    fail, ok.
  destruct (arrs s a) as [l |] eqn:Ha; [| intro H; inversion H; auto].
  destruct (Np.getitem l (i - 1)) as [e1 | v] eqn:Hg.
  - intro H. inversion H; subst. left. eapply getitem_fails; eassumption.
  - rewrite Ha.
    destruct (getitem_np _ _ _ Hg) as [x ->].
    unfold Np.setitem. cbn [Py.to_double rbind ok].
    destruct (Np.index (length l) i) as [e2 | k] eqn:Hi; cbn [rbind].
    + intro H. inversion H; subst. left. eapply index_fails; eassumption.
    + discriminate.
Qed.

Section AlienClauses.

Context {libm : Np.Libm}.
Import Name.
Local Open Scope float_scope.

Lemma alien_on_overflow_raises i s :
  exists s' e, Alien.on_overflow i s = (s', inl e) /\
               (e = TypeError \/ e = IndexError \/ e = NameError).
Proof.
  unfold Alien.on_overflow.
  unfold bind at 1.
  destruct (copy_previous plasma_velocity_array i s) as [s1 [e | []]] eqn:H1.
  { exists s1, e. split; [reflexivity |].
    apply copy_previous_fails in H1. tauto. }
  unfold bind at 1.
  destruct (copy_previous lorentz_factor_array i s1) as [s2 [e | []]] eqn:H2.
  { exists s2, e. split; [reflexivity |].
    apply copy_previous_fails in H2. tauto. }
  unfold bind at 1, setitem. unfold bind at 1.
  destruct (subscript_scalar_raises cap_value (i - 1) s2) as (e & -> & He).
  exists s2, e. split; [reflexivity | exact He].
Qed.

Lemma copy_previous_runs a i s l :
  arrs s a = Some l -> (1 <= i < Z.of_nat (length l))%Z ->
  exists l', copy_previous a i s = (bind_arr a l' s, inr tt) /\
             length l' = length l.
Proof.
  intros Ha Hi.
  assert (Hg : Np.getitem l (i - 1) = ok (VNp (nth (Z.to_nat (i - 1)) l 0))).
  { unfold Np.getitem, Np.index.
    replace ((0 <=? i - 1) && (i - 1 <? Z.of_nat (length l)))%Z with true
      by (symmetry; apply andb_true_intro; split;
          [apply Z.leb_le | apply Z.ltb_lt]; lia).
    reflexivity. }
  destruct (setitem_float l i (VNp (nth (Z.to_nat (i - 1)) l 0)) eq_refl)
    as (l' & Hs & Hl); [lia |].
  exists l'. split; [| exact Hl].
  unfold copy_previous.
  eapply setitem_run; [pure_tac | | exact Ha | exact Hs].
  eapply eval_getitem; [exact Ha | exact Hg].
Qed.

Lemma alien_on_overflow_type_error i s x l1 l2 :
  vars s cap_value = Some (VFloat x) ->
  arrs s plasma_velocity_array = Some l1 ->
  arrs s lorentz_factor_array = Some l2 ->
  (1 <= i < Z.of_nat (length l1))%Z -> (1 <= i < Z.of_nat (length l2))%Z ->
  exists s', Alien.on_overflow i s = (s', inl TypeError).
Proof.
  intros Hc H1 H2 Hi1 Hi2.
  destruct (copy_previous_runs _ i s l1 H1 Hi1) as (l1' & R1 & _).
  assert (H2' : arrs (bind_arr plasma_velocity_array l1' s)
                     lorentz_factor_array = Some l2) by (look; exact H2).
  destruct (copy_previous_runs _ i _ l2 H2' Hi2) as (l2' & R2 & _).
  eexists. unfold Alien.on_overflow.
  unfold bind at 1. rewrite R1.
  unfold bind at 1. rewrite R2.
  unfold bind at 1, setitem. unfold bind at 1.
  unfold subscript_scalar, bind, load. look. rewrite Hc. reflexivity.
Qed.

Lemma alien_on_zero_division_inv i s1 s2 :
  Alien.on_zero_division i s1 = (s2, inr tt) ->
  cell s2 lorentz_factor_array i infinity /\
  cell s2 time_dilation_array i infinity /\
  (exists v x, vars s1 plasma_velocity = Some v /\
               Py.to_double v = ok x /\
               cell s2 plasma_velocity_array i x) /\
  vars s2 lorentz_factor = Some (VFloat infinity) /\
  vars s2 time_dilation = Some (VFloat infinity) /\
  (forall a, a <> plasma_velocity_array -> a <> lorentz_factor_array ->
             a <> time_dilation_array -> arrs s2 a = arrs s1 a) /\
  (forall x, x <> lorentz_factor -> x <> time_dilation ->
             vars s2 x = vars s1 x).
Proof.
  unfold Alien.on_zero_division. intro H. inv_seq H.
  repeat match goal with
         | H : eval (flt _) _ = ok _ |- _ => apply ret_inv in H; subst
         | H : eval (load _) _ = ok _ |- _ => apply load_inv in H
         end.
  look.
  repeat match goal with
         | H : Some _ = Some _ |- _ => inversion H; clear H; subst
         end.
  repeat match goal with
         | H : Np.setitem _ _ _ = ok _ |- _ =>
             apply getitem_setitem in H as (? & ? & ? & ?)
         end.
  repeat match goal with
         | H : Py.to_double (VFloat _) = ok _ |- _ =>
             cbn in H; inversion H; clear H; subst
         end.
  repeat match goal with |- _ /\ _ => split end.
  - eexists. look. split; [reflexivity | eassumption].
  - eexists. look. split; [reflexivity | eassumption].
  - eexists _, _. split; [eassumption |]. split; [eassumption |].
    eexists. look. split; [reflexivity | eassumption].
  - reflexivity.
  - reflexivity.
  - intros a Ha Hb Hc. destruct a; look; try reflexivity; contradiction.
  - intros x Ha Hb. destruct x; look; try reflexivity; contradiction.
Qed.

End AlienClauses.

(** X4.  The [except OverflowError] clause of [alien_weaponry.py] never
    completes: its third statement subscripts the scalar [cap_value], so
    the clause raises, from every store, and an [OverflowError] raised in
    an iteration ends the iteration (and with it the script) with another
    exception.  On a store like the ones of the run, where [cap_value] is
    a [float] and the first two arrays have a cell [i - 1] and a cell [i],
    that exception is [TypeError]. *)
Theorem alien_overflow_clause_never_completes (libm : Np.Libm) (i : Z)
    (s : state) :
  (exists s' e, Alien.on_overflow i s = (s', inl e) /\
                (e = TypeError \/ e = IndexError \/ e = NameError)) /\
  (forall s0, Alien.body i s0 = (s, inl OverflowError) ->
     exists s' e, Alien.iteration i s0 = (s', inl e) /\
                  (e = TypeError \/ e = IndexError \/ e = NameError)) /\
  (forall x l1 l2,
     vars s Name.cap_value = Some (VFloat x) ->
     arrs s Name.plasma_velocity_array = Some l1 ->
     arrs s Name.lorentz_factor_array = Some l2 ->
     (1 <= i < Z.of_nat (length l1))%Z -> (1 <= i < Z.of_nat (length l2))%Z ->
     exists s', Alien.on_overflow i s = (s', inl TypeError)).
Proof.
  split; [apply alien_on_overflow_raises |]. split.
  - intros s0 H. rewrite (alien_caught_overflow i s0 s H).
    apply alien_on_overflow_raises.
  - intros x l1 l2. apply alien_on_overflow_type_error.
Qed.

Lemma alien_overflow_clause_never_completes_witness :
  let s := fst (Alien.body (libm := Demo.staircase) 1 Handler.crowded) in
  exists s', Alien.iteration (libm := Demo.staircase) 1 Handler.crowded
             = (s', inl TypeError).
Proof.
  intro s.
  destruct (alien_overflow_clause_never_completes Demo.staircase 1 s)
    as (_ & _ & H).
  destruct (H 1e35%float (Np.zeros 4) (Np.zeros 4)) as (s' & Hs');
    try (vm_compute; reflexivity); try (cbn; lia).
  exists s'.
  rewrite (alien_caught_overflow 1 Handler.crowded s); [exact Hs' |].
  vm_compute. reflexivity.
Defined.

(** X5.  When the statements under [try] of [alien_weaponry.py] raise
    [ZeroDivisionError] in iteration [i] and the clause for it completes,
    cell [i] of [lorentz_factor_array] and of [time_dilation_array] holds
    infinity, cell [i] of [plasma_velocity_array] holds the current
    velocity, [lorentz_factor] and [time_dilation] are infinity, and no
    other array and no other scalar has been touched by the clause:
    nothing is copied forward from cell [i - 1]. *)
Theorem alien_zero_division_clause (libm : Np.Libm) (i : Z)
    (s s1 s2 : state) :
  Alien.body i s = (s1, inl ZeroDivisionError) ->
  Alien.iteration i s = (s2, inr tt) ->
  cell s2 Name.lorentz_factor_array i infinity /\
  cell s2 Name.time_dilation_array i infinity /\
  (exists v x, vars s1 Name.plasma_velocity = Some v /\
               Py.to_double v = ok x /\
               cell s2 Name.plasma_velocity_array i x) /\
  vars s2 Name.lorentz_factor = Some (VFloat infinity) /\
  vars s2 Name.time_dilation = Some (VFloat infinity) /\
  (forall a, a <> Name.plasma_velocity_array ->
             a <> Name.lorentz_factor_array ->
             a <> Name.time_dilation_array -> arrs s2 a = arrs s1 a) /\
  (forall x, x <> Name.lorentz_factor -> x <> Name.time_dilation ->
             vars s2 x = vars s1 x).
Proof.
  intros Hb Hi. rewrite (alien_caught_zero_division i s s1 Hb) in Hi.
  apply alien_on_zero_division_inv. exact Hi.
Qed.

Lemma alien_zero_division_clause_witness :
  let s1 := fst (Alien.body (libm := Demo.staircase) 1 Demo.no_interval) in
  let s2 := fst (Alien.iteration (libm := Demo.staircase) 1 Demo.no_interval) in
  cell s2 Name.lorentz_factor_array 1 infinity /\
  cell s2 Name.time_dilation_array 1 infinity /\
  (exists v x, vars s1 Name.plasma_velocity = Some v /\
               Py.to_double v = ok x /\
               cell s2 Name.plasma_velocity_array 1 x) /\
  vars s2 Name.lorentz_factor = Some (VFloat infinity) /\
  vars s2 Name.time_dilation = Some (VFloat infinity) /\
  (forall a, a <> Name.plasma_velocity_array ->
             a <> Name.lorentz_factor_array ->
             a <> Name.time_dilation_array -> arrs s2 a = arrs s1 a) /\
  (forall x, x <> Name.lorentz_factor -> x <> Name.time_dilation ->
             vars s2 x = vars s1 x).
Proof.
  intros s1 s2.
  apply (alien_zero_division_clause Demo.staircase 1 Demo.no_interval s1 s2);
    vm_compute; reflexivity.
Defined.

(** ** The velocity cap of alien_weaponry.py *)

Section VelocityCap.

Context {libm : Np.Libm}.
Import Name.
Local Open Scope float_scope.

Lemma interpolate_chain a0 a1 t total span frac x a :
  Py.sub a1 a0 = ok span -> Py.truediv t total = ok frac ->
  Py.mul span frac = ok x -> Py.add a0 x = ok a ->
  Claim.interpolate a0 a1 t total = ok a.
Proof.
  intros H1 H2 H3 H4. unfold Claim.interpolate.
  rewrite H1. cbn [rbind ok]. rewrite H2. cbn [rbind ok]. rewrite H3.
  exact H4.
Qed.

Lemma forward_euler_chain v a d h dv r inc v1 :
  Py.mul d v = ok dv -> Py.sub a dv = ok r -> Py.mul r h = ok inc ->
  Py.add v inc = ok v1 -> Claim.forward_euler v a d h = ok v1.
Proof.
  intros H1 H2 H3 H4. unfold Claim.forward_euler.
  rewrite H1. cbn [rbind ok]. rewrite H2. cbn [rbind ok]. rewrite H3.
  exact H4.
Qed.

Lemma alien_cap i s s' :
  vars s c = Some (VFloat 3e8) -> Alien.body i s = (s', inr tt) ->
  exists v1, Cap.updated_velocity s i v1 /\
    ((Py.ge v1 (VFloat 3e8) = false /\ vars s' plasma_velocity = Some v1) \/
     (Py.ge v1 (VFloat 3e8) = true /\
      vars s' plasma_velocity = Some (VFloat 3e8) /\
      vars s' lorentz_factor = Some (VNp infinity) /\
      cell s' lorentz_factor_array i infinity)).
Proof.
  unfold Alien.body. intros Hc H. inv_seq H.
  all: repeat match goal with
       | H : eval (getitem time_array _) _ = ok _ |- _ => inv_expr H
       | H : eval (bind _ _) _ = ok _ |- _ =>
           let t := fresh "t" in let Ht := fresh "Ht" in
           apply bind_eval_inv in H as (t & Ht & H); [| pure_tac]
       | H : eval (Alien.increasing_acceleration _ _ _) _ = ok _ |- _ =>
           unfold Alien.increasing_acceleration in H; inv_expr H
       | H : eval ($plasma_velocity .+ _) _ = ok _ |- _ => inv_expr H
       | H : eval ($plasma_velocity .>= $c) _ = ok _ |- _ => inv_expr H
       | H : eval ($c .- flt _) _ = ok _ |- _ => inv_expr H
       | H : eval (int_ 1 ./ np_sqrt _) _ = ok _ |- _ => inv_expr H
       end.
  all: inv_loads; look; same_some.
  all: eexists; split;
    [ unfold Cap.updated_velocity, Claim.ramp_at;
      eexists _, _, _, _; split;
      [ eexists _, _, _, _, _;
        repeat match goal with |- _ /\ _ => split end;
        [ eassumption | eassumption | eassumption | eassumption
        | eassumption | eapply interpolate_chain; eassumption ]
      | repeat match goal with |- _ /\ _ => split end;
        [ eassumption | eassumption | eassumption
        | eapply forward_euler_chain; eassumption ] ]
    | ].
  all: match goal with
       | E : true = Py.ge _ _ |- _ => right; split; [symmetry; exact E |]
       | E : false = Py.ge _ _ |- _ =>
           left; split; [symmetry; exact E | reflexivity]
       end.
  all: repeat match goal with
       | H : Py.sub (VFloat _) (VFloat _) = ok _ |- _ =>
           vm_compute in H; inversion H; clear H; subst
       | H : Py.truediv (VFloat _) (VFloat _) = ok _ |- _ =>
           vm_compute in H; inversion H; clear H; subst
       | H : Py.pow (VFloat _) _ = ok _ |- _ =>
           vm_compute in H; inversion H; clear H; subst
       | H : Py.sub (VInt _) (VFloat _) = ok _ |- _ =>
           vm_compute in H; inversion H; clear H; subst
       | H : Py.ufunc sqrt (VFloat _) = ok _ |- _ =>
           vm_compute in H; inversion H; clear H; subst
       | H : Py.truediv (VInt _) (VNp _) = ok _ |- _ =>
           vm_compute in H; inversion H; clear H; subst
       end.
  all: split; [reflexivity |]. all: split; [reflexivity |].
  all: unfold cell; look; eexists; split; [reflexivity |].
  all: match goal with
       | |- Np.getitem ?l' _ = _ =>
           match goal with
           | H : Np.setitem _ _ _ = ok l' |- _ =>
               let x := fresh "x" in let Hx := fresh "Hx" in
               let Hg := fresh "Hg" in
               apply getitem_setitem in H as (x & Hx & Hg & _);
               cbn in Hx; inversion Hx; subst; exact Hg
           end
       end.
Qed.

End VelocityCap.

(** X6.  The cap of lines 71-72 of [alien_weaponry.py] does not keep the
    velocity below [c]: [c - 1e-10] is [c] itself in double precision.  An
    iteration that completes leaves either the velocity [v1] of the Euler
    update, when [v1 >= c] is false, or else exactly [c = 3e8]; and then
    the Lorentz factor of line 73 is infinite (NumPy divides by zero
    without raising), and infinity is what cell [i] of
    [lorentz_factor_array] receives. *)
Theorem alien_cap_sets_velocity_to_c (libm : Np.Libm) (i : Z) (s s' : state) :
  vars s Name.c = Some (VFloat 3e8) -> Alien.body i s = (s', inr tt) ->
  exists v1, Cap.updated_velocity s i v1 /\
    ((Py.ge v1 (VFloat 3e8) = false /\
      vars s' Name.plasma_velocity = Some v1) \/
     (Py.ge v1 (VFloat 3e8) = true /\
      vars s' Name.plasma_velocity = Some (VFloat 3e8) /\
      vars s' Name.lorentz_factor = Some (VNp infinity) /\
      cell s' Name.lorentz_factor_array i infinity)).
Proof. apply alien_cap. Qed.

Lemma alien_cap_sets_velocity_to_c_witness :
  let s' := fst (Alien.body (libm := Demo.staircase) 1 Demo.fast) in
  (exists v1, Cap.updated_velocity Demo.fast 1 v1 /\
     ((Py.ge v1 (VFloat 3e8) = false /\
       vars s' Name.plasma_velocity = Some v1) \/
      (Py.ge v1 (VFloat 3e8) = true /\
       vars s' Name.plasma_velocity = Some (VFloat 3e8) /\
       vars s' Name.lorentz_factor = Some (VNp infinity) /\
       cell s' Name.lorentz_factor_array 1 infinity))) /\
  vars s' Name.plasma_velocity = Some (VFloat 3e8).
Proof.
  intro s'. split.
  - apply (alien_cap_sets_velocity_to_c Demo.staircase 1 Demo.fast s');
      vm_compute; reflexivity.
  - vm_compute. reflexivity.
Defined.

(** ** remove_non_finite *)

Section RemoveNonFinite.

Local Open Scope float_scope.

Lemma remove_non_finite_finite l :
  forallb is_finite (remove_non_finite l) = true.
Proof.
  apply forallb_forall. intros x Hx.
  apply filter_In in Hx. apply Hx.
Qed.

Lemma remove_non_finite_id l :
  remove_non_finite l = l <-> forallb is_finite l = true.
Proof.
  split; intro H.
  - rewrite <- H. apply remove_non_finite_finite.
  - unfold remove_non_finite. induction l as [| x l IH]; [reflexivity |].
    cbn in *. apply andb_prop in H as [Hx Hl]. rewrite Hx, IH; auto.
Qed.

End RemoveNonFinite.

(** ** The arrays the figures filter *)

Lemma plotted_gamma_copy_sweep :
  sweep CopyRun.next Plotted.copy_gamma_at CopyLoop.steps 0 CopyRun.start
  = true.
Proof. vm_compute. reflexivity. Qed.

Lemma plotted_gamma_alien_sweep :
  sweep AlienRun.next Plotted.alien_gamma_at AlienLoop.steps 0 AlienRun.start
  = true.
Proof. vm_compute. reflexivity. Qed.

Section FiniteDoubles.

Local Open Scope float_scope.

Lemma sf_compare_refl m e :
  match (e ?= e)%Z with
  | Eq => Pos.compare_cont Eq m m
  | Lt => Lt
  | Gt => Gt
  end = Eq.
Proof.
  rewrite Z.compare_refl.
  change (Pos.compare_cont Eq m m) with (Pos.compare m m).
  apply Pos.compare_refl.
Qed.

Lemma is_finite_spec x :
  is_finite x = match Prim2SF x with
                | S754_zero _ | S754_finite _ _ _ => true
                | _ => false
                end.
Proof.
  unfold is_finite, is_nan, is_infinity.
  rewrite !eqb_spec, abs_spec.
  change (Prim2SF infinity) with (S754_infinity false).
  destruct (Prim2SF x) as [s | s | | s m e].
  - destruct s; reflexivity.
  - destruct s; reflexivity.
  - reflexivity.
  - unfold SFeqb, SFabs, SFcompare.
    destruct s; rewrite ?sf_compare_refl; try reflexivity.
    rewrite Z.compare_refl.
    change (Pos.compare_cont Eq m m) with (Pos.compare m m).
    rewrite Pos.compare_refl. reflexivity.
Qed.

Lemma finite_between x :
  (0 <=? x) = true -> (x <? infinity) = true -> is_finite x = true.
Proof.
  rewrite is_finite_spec, leb_spec, ltb_spec.
  change (Prim2SF infinity) with (S754_infinity false).
  change (Prim2SF 0) with (S754_zero false).
  destruct (Prim2SF x) as [[] | [] | | [] m e]; cbn; congruence.
Qed.

Lemma finite_of_square x :
  (x * x <? infinity) = true -> is_finite x = true.
Proof.
  rewrite is_finite_spec, ltb_spec, mul_spec.
  change (Prim2SF infinity) with (S754_infinity false).
  destruct (Prim2SF x) as [[] | [] | | [] m e]; cbn; congruence.
Qed.

End FiniteDoubles.

Lemma forallb_update l : forall k x,
  forallb is_finite l = true -> is_finite x = true ->
  forallb is_finite (Np.update l k x) = true.
Proof.
  induction l as [| h t IH]; intros [| k] x Hl Hx; cbn in *;
    try reflexivity; apply andb_prop in Hl as [Hh Ht];
    apply andb_true_intro; auto.
Qed.

Lemma setitem_finite l i v x l' :
  Np.setitem l i v = ok l' -> Py.to_double v = ok x ->
  is_finite x = true -> forallb is_finite l = true ->
  forallb is_finite l' = true.
Proof.
  unfold Np.setitem. intros H Hv Hx Hl. rewrite Hv in H. cbn [rbind ok] in H.
  destruct (Np.index (length l) i) as [e | k]; [discriminate |].
  cbn [rbind] in H. inversion H. apply forallb_update; assumption.
Qed.

Section PlottedArrays.

Context {libm : Np.Libm}.
Import Name.
Local Open Scope float_scope.

Ltac stored_tac :=
  inv_loads; look; same_some;
  unfold Plotted.stored;
  repeat (apply Forall_cons;
          [ cbn [fst snd]; look; eexists _, _, _;
            split; [reflexivity |]; split; [eassumption |];
            split; [eassumption | reflexivity] |]);
  apply Forall_nil.

Lemma copy_stored i s s' :
  Copy.body i s = (s', inr tt) -> Plotted.stored i s s'.
Proof. unfold Copy.body. intro H. inv_seq H; stored_tac. Qed.

Lemma alien_stored i s s' :
  Alien.body i s = (s', inr tt) -> Plotted.stored i s s'.
Proof. unfold Alien.body. intro H. inv_seq H; stored_tac. Qed.

End PlottedArrays.

(** ** The arrays the figures filter, along the two runs *)

Lemma forallb_zeros n : forallb is_finite (Np.zeros n) = true.
Proof. induction n as [| n IH]; [reflexivity | exact IH]. Qed.

Section PlottedRuns.

Context {libm : Np.Libm}.
Import Name.
Local Open Scope float_scope.

Lemma energy_between bound fs y pv v e' :
  (0 <=? bound) = true -> (bound <? infinity) = true ->
  (fs = VFloat y \/ fs = VNp y) ->
  (0 <=? y) = true -> (y <=? bound) = true ->
  (pv = VFloat v \/ pv = VNp v) ->
  (0 <? Double.pow v 2) = true -> (Double.pow v 2 <? infinity) = true ->
  Capping.energy fs pv (VFloat bound) = ok e' ->
  exists z, Py.to_double e' = ok z /\ is_finite z = true.
Proof.
  intros Hb0 Hb1 Hfs Hy0 Hy1 Hpv Hv0 Hv1. unfold Capping.energy.
  destruct (Py.pow fs 2) as [e | f2] eqn:Hf2; [discriminate |].
  cbn [rbind ok].
  destruct (Py.mul (VFloat 0.5) f2) as [e | h] eqn:Hh; [discriminate |].
  cbn [rbind ok].
  destruct (Py.pow pv 2) as [e | v2] eqn:Hv2; [discriminate |].
  cbn [rbind ok].
  destruct (Py.mul h v2) as [e | en] eqn:Hen; [discriminate |].
  cbn [rbind ok]. intro H. inversion H; subst e'. clear H.
  apply (py_pow_double _ _ _ _ Hfs) in Hf2.
  apply (py_pow_double _ _ _ _ Hpv) in Hv2.
  apply (py_mul_double _ _ 0.5 _ _ (or_introl eq_refl) Hf2) in Hh.
  apply (py_mul_double _ _ _ _ _ Hh Hv2) in Hen.
  assert (Hy2 : (y <? infinity) = true)
    by (apply leb_below_infinity with (y := bound); assumption).
  assert (Hq : (0 <=? Double.pow y 2) = true)
    by (cbn [Double.pow]; apply mul_nonneg; auto).
  assert (Hhalf : (0 <=? 0.5 * Double.pow y 2) = true)
    by (apply mul_nonneg; auto).
  assert (He : (0 <=? 0.5 * Double.pow y 2 * Double.pow v 2) = true)
    by (apply mul_nonneg; auto using ltb_leb).
  unfold Py.min.
  rewrite (py_lt_double _ _ bound _ (or_introl eq_refl) Hen).
  destruct (bound <? 0.5 * Double.pow y 2 * Double.pow v 2) eqn:Hlt.
  - exists bound. split; [reflexivity |]. apply finite_between; assumption.
  - exists (0.5 * Double.pow y 2 * Double.pow v 2).
    split; [destruct Hen as [-> | ->]; reflexivity |].
    apply finite_between; [assumption |].
    apply leb_below_infinity with (y := bound); [| assumption].
    apply leb_or_gtb; assumption.
Qed.

(** One iteration keeps the four arrays finite. *)
Lemma plotted_advance bound i s s' pv v g :
  (0 <=? bound) = true -> (bound <? infinity) = true ->
  Capping.within (VFloat bound) s' -> Capping.capped_step bound s s' ->
  Plotted.stored i s s' ->
  vars s' plasma_velocity = Some pv -> (pv = VFloat v \/ pv = VNp v) ->
  (0 <? Double.pow v 2) = true /\ (Double.pow v 2 <? infinity) = true ->
  vars s' lorentz_factor = Some (VNp g) -> is_finite g = true ->
  Plotted.all_finite s -> Plotted.all_finite s'.
Proof.
  intros Hb0 Hb1 (fs & Hfs & Hfl & H0 & H1) (fs' & e' & Hu & _ & _)
    Hst Hpv Hv Hsq Hg Hgf Hall.
  destruct Hsq as [Hv0 Hv1].
  destruct Hu as (fs0 & infl & o & pv0 & _ & _ & _ & _ & U5 & _ & U7 & U8 & U9).
  rewrite Hfs in U8. inversion U8; subst fs'. clear U8.
  rewrite Hpv in U5. inversion U5; subst pv0. clear U5.
  destruct (float_value fs Hfl) as [y Hy].
  rewrite (py_le_double _ _ 0 y (or_introl eq_refl) Hy) in H0.
  rewrite (py_le_double _ _ y bound Hy (or_introl eq_refl)) in H1.
  destruct (energy_between bound _ _ _ _ _ Hb0 Hb1 Hy H0 H1 Hv Hv0 Hv1 U7)
    as (z & Hz & Hzf).
  unfold Plotted.stored in Hst.
  inversion Hst as [| ? ? (v1 & l1 & l1' & A1 & B1 & C1 & D1) Hst1]; subst.
  inversion Hst1 as [| ? ? (v2 & l2 & l2' & A2 & B2 & C2 & D2) Hst2]; subst.
  inversion Hst2 as [| ? ? (v3 & l3 & l3' & A3 & B3 & C3 & D3) Hst3]; subst.
  inversion Hst3 as [| ? ? (v4 & l4 & l4' & A4 & B4 & C4 & D4) _]; subst.
  cbn [fst snd] in *.
  rewrite Hpv in A1. rewrite Hg in A2. rewrite U9 in A3. rewrite Hfs in A4.
  inversion A1; inversion A2; inversion A3; inversion A4; subst.
  intros a Ha. cbn [In Plotted.arrays] in Ha.
  destruct Ha as [<- | [<- | [<- | [<- | []]]]].
  - destruct (Hall plasma_velocity_array) as (l & Hl & Hf);
      [cbn; auto |].
    rewrite B1 in Hl. inversion Hl; subst l.
    exists l1'. split; [exact D1 |].
    apply (setitem_finite _ _ _ v _ C1);
      [destruct Hv as [-> | ->]; reflexivity | | exact Hf].
    apply finite_of_square. exact Hv1.
  - destruct (Hall lorentz_factor_array) as (l & Hl & Hf);
      [cbn; auto |].
    rewrite B2 in Hl. inversion Hl; subst l.
    exists l2'. split; [exact D2 |].
    apply (setitem_finite _ _ _ g _ C2); [reflexivity | exact Hgf | exact Hf].
  - destruct (Hall energy_density_array) as (l & Hl & Hf);
      [cbn; auto |].
    rewrite B3 in Hl. inversion Hl; subst l.
    exists l3'. split; [exact D3 |].
    apply (setitem_finite _ _ _ z _ C3); [exact Hz | exact Hzf | exact Hf].
  - destruct (Hall field_strength_array) as (l & Hl & Hf);
      [cbn; auto 6 |].
    rewrite B4 in Hl. inversion Hl; subst l.
    exists l4'. split; [exact D4 |].
    apply (setitem_finite _ _ _ y _ C4);
      [destruct Hy as [-> | ->]; reflexivity | | exact Hf].
    apply finite_between; [exact H0 |].
    apply leb_below_infinity with (y := bound); assumption.
Qed.

Lemma copy_initial_finite : Plotted.all_finite CopyRun.initial.
Proof.
  assert (H : exists s', Copy.prelude empty = (s', inr tt) /\
                         Plotted.all_finite s').
  { unfold Copy.prelude.
    do 13 run_assign.
    run_assign_as (VFloat 0.1).
    eapply bind_ex.
    { unfold bind, load, lift, store_arr, ok. look.
      rewrite copy_arange. reflexivity. }
    cbv beta.
    do 9 run_zeros.
    do 8 run_assign.
    eexists. split; [apply assign_run; [pure_tac | ev] |].
    intros a Ha. cbn [In Plotted.arrays] in Ha.
    repeat (destruct Ha as [<- | Ha];
            [look; eexists; split; [reflexivity | apply forallb_zeros] |]).
    contradiction. }
  destruct H as (s' & Hp & Hf).
  destruct copy_prelude as [Hp' _]. rewrite Hp' in Hp.
  inversion Hp; subst s'. exact Hf.
Qed.

Lemma alien_initial_finite : Plotted.all_finite AlienRun.initial.
Proof.
  assert (H : exists s', Alien.prelude empty = (s', inr tt) /\
                         Plotted.all_finite s').
  { unfold Alien.prelude.
    do 14 run_assign.
    run_assign_as (VFloat 0.1).
    eapply bind_ex.
    { unfold bind, load, lift, store_arr, ok. look.
      rewrite alien_arange. reflexivity. }
    cbv beta.
    do 11 run_zeros.
    do 9 run_assign.
    eexists. split;
      [apply (assign_run _ _ _ (VFloat 1.2566370614359173e-06));
       [pure_tac | ev; pyop] |].
    intros a Ha. cbn [In Plotted.arrays] in Ha.
    repeat (destruct Ha as [<- | Ha];
            [look; eexists; split; [reflexivity | apply forallb_zeros] |]).
    contradiction. }
  destruct H as (s' & Hp & Hf).
  destruct alien_prelude as [Hp' _]. rewrite Hp' in Hp.
  inversion Hp; subst s'. exact Hf.
Qed.

Lemma copy_gamma_finite k :
  (k < CopyLoop.steps)%nat ->
  is_finite (CopyRun.gamma (CopyRun.velocity (CopyRun.at_ (S k)))) = true.
Proof.
  intro Hk. rewrite copy_at_succ.
  exact (sweep_sound _ _ _ _ plotted_gamma_copy_sweep k Hk).
Qed.

Lemma alien_gamma_finite k :
  (k < AlienLoop.steps)%nat ->
  is_finite (AlienRun.gamma (AlienRun.velocity (AlienRun.at_ (S k)))) = true.
Proof.
  intro Hk. rewrite alien_at_succ.
  exact (sweep_sound _ _ _ _ plotted_gamma_alien_sweep k Hk).
Qed.

Hypothesis sane : Capping.sane libm.

Lemma copy_finite k :
  (k <= CopyLoop.steps)%nat ->
  exists s, CopyLoop.reached k s /\ Capping.within (VFloat 1e24) s /\
            Plotted.all_finite s.
Proof.
  induction k as [| k IH]; intro Hk.
  - exists CopyRun.initial. split; [apply copy_start |].
    split; [| apply copy_initial_finite].
    exists (VFloat 1e20). split; [apply copy_initial_field |].
    repeat split.
  - destruct IH as (s & Hs & Hw & Hf); [lia |].
    destruct (copy_capped_advance sane k s ltac:(lia) Hs Hw)
      as (s' & Hb & Hs' & Hw' & Hc).
    exists s'. split; [exact Hs' |]. split; [exact Hw' |].
    destruct Hs' as (lT' & _ & HI' & _ & Hg & _).
    eapply (plotted_advance 1e24); try reflexivity; try eassumption.
    + apply copy_stored. exact Hb.
    + apply HI'.
    + left. reflexivity.
    + apply (calm_inv _ _ (copy_calm k ltac:(lia))).
    + apply Hg. lia.
    + apply copy_gamma_finite. lia.
Qed.

Lemma alien_finite k :
  (k <= AlienLoop.steps)%nat ->
  exists s, AlienLoop.reached k s /\ Capping.within (VFloat 1e35) s /\
            Plotted.all_finite s.
Proof.
  induction k as [| k IH]; intro Hk.
  - exists AlienRun.initial. split; [apply alien_start |].
    split; [| apply alien_initial_finite].
    exists (VFloat 1e-20). split; [apply alien_initial_field |].
    repeat split.
  - destruct IH as (s & Hs & Hw & Hf); [lia |].
    destruct (alien_capped_advance sane k s ltac:(lia) Hs Hw)
      as (s' & Hb & Hs' & Hw' & Hc).
    exists s'. split; [exact Hs' |]. split; [exact Hw' |].
    destruct Hs' as (lT' & _ & HI' & _ & Hg & _).
    eapply (plotted_advance 1e35); try reflexivity; try eassumption.
    + apply alien_stored. exact Hb.
    + apply HI'.
    + right. reflexivity.
    + apply (calm_inv _ _ (alien_calm k ltac:(lia))).
    + apply Hg. lia.
    + apply alien_gamma_finite. lia.
Qed.

Lemma all_finite_untouched s : Plotted.all_finite s -> Plotted.untouched s.
Proof.
  intros H a Ha. destruct (H a Ha) as (l & Hl & Hf).
  exists l. split; [exact Hl | apply remove_non_finite_id; exact Hf].
Qed.

Lemma copy_figures :
  exists s n, bind Copy.prelude (fun _ => Copy.loop) empty = (s, inr n) /\
              Plotted.untouched s.
Proof.
  destruct (copy_finite CopyLoop.steps (le_n _))
    as (s & (lT & Hrun & HI & _) & _ & Hf).
  exists s, CopyLoop.steps. split; [| apply all_finite_untouched; exact Hf].
  eapply bind_prelude; [apply copy_prelude |].
  rewrite copy_first_eq in Hrun.
  destruct copy_prelude as [_ H0].
  destruct (CopyRun.inv_time_array _ _ _ _ _ _ H0) as (l & Hl & Hn).
  rewrite (copy_loop_from _ _ Hl).
  rewrite (range_all (length l) CopyLoop.steps);
    [| rewrite Hn, copy_cells, copy_steps; reflexivity].
  exact Hrun.
Qed.

Lemma alien_figures :
  exists s n, bind Alien.prelude (fun _ => Alien.loop) empty = (s, inr n) /\
              Plotted.untouched s.
Proof.
  destruct (alien_finite AlienLoop.steps (le_n _))
    as (s & (lT & Hrun & HI & _) & _ & Hf).
  exists s, AlienLoop.steps. split; [| apply all_finite_untouched; exact Hf].
  eapply bind_prelude; [apply alien_prelude |].
  rewrite alien_first_eq in Hrun.
  destruct alien_prelude as [_ H0].
  pose proof (AlienRun.inv_time_array _ _ _ _ _ _ H0) as Hl.
  rewrite (alien_loop_from _ _ Hl).
  rewrite (range_all (length AlienRun.times) AlienLoop.steps);
    [| rewrite alien_length_times, alien_cells, alien_steps; reflexivity].
  exact Hrun.
Qed.

End PlottedRuns.

(** X7.  In both scripts [remove_non_finite] removes nothing from the
    arrays the histograms and box plots pass to it: when the loop has
    finished, every cell of [plasma_velocity_array],
    [lorentz_factor_array], [energy_density_array] and
    [field_strength_array] is finite, so each call returns its argument
    unchanged.  The C library's [log1p] is taken to map the finite doubles
    from 0 on to finite doubles from 0 on. *)
Theorem figures_filter_nothing (libm : Np.Libm) :
  Capping.sane libm ->
  (exists s n,
     bind Alien.prelude (fun _ => Alien.loop) empty = (s, inr n) /\
     Plotted.untouched s) /\
  (exists s n,
     bind Copy.prelude (fun _ => Copy.loop) empty = (s, inr n) /\
     Plotted.untouched s).
Proof.
  intro Hsane. split; [apply alien_figures | apply copy_figures]; exact Hsane.
Qed.

Lemma figures_filter_nothing_witness :
  (exists s n,
     bind Alien.prelude
          (fun _ => Alien.loop (libm := Demo.staircase)) empty = (s, inr n) /\
     Plotted.untouched s) /\
  (exists s n,
     bind Copy.prelude
          (fun _ => Copy.loop (libm := Demo.staircase)) empty = (s, inr n) /\
     Plotted.untouched s).
Proof.
  apply (figures_filter_nothing Demo.staircase).
  intros x H0 H1. cbn [Np.log1p Demo.staircase].
  destruct (x <? 1)%float; split; first [assumption | reflexivity].
Defined.

(** ** Two-dimensional arrays *)

Section Grids.

Local Open Scope float_scope.

Lemma length_put {A} (l : list A) : forall k x,
  length (Surface.put l k x) = length l.
Proof. induction l as [| h t IH]; intros [| k] x; cbn; auto. Qed.

Lemma nth_put_same {A} (l : list A) : forall k x d,
  (k < length l)%nat -> nth k (Surface.put l k x) d = x.
Proof.
  induction l as [| h t IH]; intros [| k] x d Hk; cbn in *; try lia; auto.
  apply IH. lia.
Qed.

Lemma nth_put_other {A} (l : list A) : forall k j x d,
  k <> j -> nth j (Surface.put l k x) d = nth j l d.
Proof.
  induction l as [| h t IH]; intros [| k] [| j] x d Hkj; cbn;
    try reflexivity; try congruence.
  apply IH. congruence.
Qed.

Lemma Forall_put {A} (P : A -> Prop) (l : list A) : forall k x,
  Forall P l -> P x -> Forall P (Surface.put l k x).
Proof.
  induction l as [| h t IH]; intros [| k] x Hl Hx; cbn;
    inversion Hl; subst; constructor; auto.
Qed.

Lemma index_nonneg n i r :
  (0 <= i)%Z -> Np.index n i = ok r ->
  r = Z.to_nat i /\ (i < Z.of_nat n)%Z.
Proof.
  intros Hi. unfold Np.index, ok, fail.
  destruct ((0 <=? i) && (i <? Z.of_nat n))%Z eqn:E1.
  - intro H. inversion H. apply andb_prop in E1 as [_ E1]. lia.
  - destruct ((- Z.of_nat n <=? i) && (i <? 0))%Z eqn:E2; [| discriminate].
    apply andb_prop in E2 as [_ E2]. lia.
Qed.

Lemma get_zeros rows cols r c : Surface.get (Surface.zeros rows cols) r c = 0.
Proof.
  unfold Surface.get, Surface.zeros.
  destruct (Nat.lt_ge_cases r rows) as [Hr | Hr].
  - rewrite nth_repeat_lt by exact Hr. unfold Np.zeros.
    destruct (Nat.lt_ge_cases c cols) as [Hc | Hc].
    + apply nth_repeat_lt. exact Hc.
    + apply nth_overflow. rewrite repeat_length. exact Hc.
  - rewrite (nth_overflow (repeat _ _)) by (rewrite repeat_length; exact Hr).
    destruct c; reflexivity.
Qed.

Lemma shaped_zeros rows cols :
  Surface.shaped rows cols (Surface.zeros rows cols).
Proof.
  split; [apply repeat_length |].
  apply Forall_forall. intros row H. apply repeat_spec in H. subst.
  apply repeat_length.
Qed.

Lemma shaped_row rows cols z r :
  Surface.shaped rows cols z -> (r < rows)%nat ->
  length (nth r z []) = cols.
Proof.
  intros [Hn Hf] Hr. rewrite Forall_forall in Hf.
  apply Hf. apply nth_In. lia.
Qed.

(** What [g[i, j] = v] does, for indices that are not negative. *)
Lemma grid_setitem_inv rows cols z i j v z' :
  Surface.shaped rows cols z -> (0 <= i)%Z -> (0 <= j)%Z ->
  Surface.setitem z i j v = ok z' ->
  Surface.shaped rows cols z' /\
  (Z.to_nat i < rows)%nat /\ (Z.to_nat j < cols)%nat /\
  forall r c,
    Surface.get z' r c
    = if (r =? Z.to_nat i)%nat && (c =? Z.to_nat j)%nat
      then Surface.double_of v else Surface.get z r c.
Proof.
  intros Hsh Hi Hj. unfold Surface.setitem, Surface.double_of.
  destruct (Py.to_double v) as [e | x]; [discriminate |]. cbn [rbind ok].
  destruct (Np.index (length z) i) as [e | r0] eqn:Er; [discriminate |].
  cbn [rbind ok].
  destruct (Np.index (length (nth r0 z [])) j) as [e | c0] eqn:Ec;
    [discriminate |].
  cbn [rbind ok]. intro H. inversion H; subst z'. clear H.
  pose proof Hsh as [Hn Hf].
  apply index_nonneg in Er as [-> Hr]; [| exact Hi].
  assert (Hr' : (Z.to_nat i < rows)%nat) by lia.
  rewrite (shaped_row rows cols z _ Hsh Hr') in Ec.
  apply index_nonneg in Ec as [-> Hc]; [| exact Hj].
  assert (Hc' : (Z.to_nat j < cols)%nat) by lia.
  split; [| split; [exact Hr' | split; [exact Hc' |]]].
  - split; [rewrite length_put; exact Hn |].
    apply Forall_put; [exact Hf |].
    rewrite length_update. apply (shaped_row rows cols z _ Hsh Hr').
  - intros r c. unfold Surface.get.
    destruct (Nat.eqb_spec r (Z.to_nat i)) as [-> | Hne]; cbn [andb].
    + rewrite nth_put_same by lia.
      destruct (Nat.eqb_spec c (Z.to_nat j)) as [-> | Hne].
      * apply nth_update_same.
        rewrite (shaped_row rows cols z _ Hsh Hr'). exact Hc'.
      * apply nth_update_other. congruence.
    + rewrite nth_put_other by congruence. reflexivity.
Qed.

(** What storing a column does. *)
Lemma writes_inv rows cols j k : forall lo z vs z',
  Surface.shaped rows cols z -> (0 <= lo)%Z -> (0 <= j)%Z ->
  Surface.writes z j (Np.iota lo k) vs = ok z' ->
  Surface.shaped rows cols z' /\
  (k = 0%nat \/ (Z.to_nat j < cols)%nat) /\
  forall r c,
    Surface.get z' r c
    = if (c =? Z.to_nat j)%nat && (Z.to_nat lo <=? r)%nat
         && (r <? Z.to_nat lo + k)%nat
      then Surface.double_of (nth (r - Z.to_nat lo) vs (VInt 0))
      else Surface.get z r c.
Proof.
  induction k as [| k IH]; intros lo z vs z' Hsh Hlo Hj; cbn [Np.iota Surface.writes].
  - intro H. inversion H; subst z'. split; [exact Hsh |].
    split; [left; reflexivity |].
    intros r c.
    destruct (Nat.leb_spec (Z.to_nat lo) r) as [H1 | H1];
      destruct (Nat.ltb_spec r (Z.to_nat lo + 0)) as [H2 | H2]; try lia;
      rewrite ?andb_false_r; reflexivity.
  - destruct vs as [| v vs]; [discriminate |].
    destruct (Surface.setitem z lo j v) as [e | z1] eqn:E1; [discriminate |].
    cbn [rbind]. intro H.
    destruct (grid_setitem_inv rows cols z lo j v z1 Hsh Hlo Hj E1)
      as (Hsh1 & Hr1 & Hc1 & G1).
    destruct (IH (lo + 1)%Z z1 vs z' Hsh1 ltac:(lia) Hj H)
      as (Hsh' & _ & G').
    split; [exact Hsh' |]. split; [right; exact Hc1 |].
    intros r c. rewrite G', G1.
    replace (Z.to_nat (lo + 1)) with (S (Z.to_nat lo)) by lia.
    destruct (Nat.eqb_spec c (Z.to_nat j)) as [-> | Hc]; cbn [andb];
      [| rewrite andb_false_r; reflexivity].
    destruct (Nat.eqb_spec r (Z.to_nat lo)) as [Heq | Hr];
      destruct (Nat.leb_spec (S (Z.to_nat lo)) r) as [H1 | H1];
      destruct (Nat.leb_spec (Z.to_nat lo) r) as [H2 | H2];
      destruct (Nat.ltb_spec r (S (Z.to_nat lo) + k)) as [H3 | H3];
      destruct (Nat.ltb_spec r (Z.to_nat lo + S k)) as [H4 | H4];
      try lia; cbn [andb]; try reflexivity.
    + rewrite Heq, Nat.sub_diag. reflexivity.
    + replace (r - Z.to_nat lo)%nat with (S (r - S (Z.to_nat lo))) by lia.
      reflexivity.
Qed.

End Grids.

(** ** The two loops of the surface *)

Section SurfaceLoops.

Context {libm : Np.Libm}.
Import Name.
Local Open Scope float_scope.

Variable bump : M unit.
Variable bumped : value -> res value.
Hypothesis bump_inv :
  forall s s1, bump s = (s1, inr tt) ->
    exists o o', vars s current_observers = Some o /\
                 bumped o = ok o' /\
                 s1 = bind_var current_observers o' s.

Lemma advance_chain interval influence i o fs m (b : bool) o' x f p q :
  Py.mod_ (VInt i) interval = ok m -> b = Py.eq m (VInt 0) ->
  (if b then bumped o else ok o) = ok o' ->
  Py.mul influence o' = ok x -> Py.ufunc Np.log1p x = ok f ->
  Py.mul fs f = ok p -> Py.ufunc Np.log1p p = ok q ->
  Surface.advance bumped interval influence i (o, fs) = ok (o', q).
Proof.
  intros H1 -> H2 H3 H4 H5 H6. unfold Surface.advance. cbn [fst snd].
  rewrite H1. cbn [rbind ok]. rewrite H2. cbn [rbind ok].
  rewrite H3. cbn [rbind ok]. rewrite H4. cbn [rbind ok].
  rewrite H5. cbn [rbind ok]. rewrite H6. reflexivity.
Qed.

Lemma value_at_inv i s s' v :
  Surface.value_at bump i s = (s', inr v) ->
  exists o fs interval influence o',
    vars s current_observers = Some o /\
    vars s field_strength = Some fs /\
    vars s observer_interval = Some interval /\
    vars s observer_influence_factor = Some influence /\
    Surface.advance bumped interval influence i (o, fs) = ok (o', v) /\
    vars s' current_observers = Some o' /\
    vars s' field_strength = Some v /\
    Surface.kept s s'.
Proof.
  unfold Surface.value_at. intro H.
  apply bind_inv in H as (s1 & [] & Hw & H).
  apply when_inv in Hw as (b & Eb & Hw); [| pure_tac].
  apply bind_inv in H as (s2 & [] & H1 & H).
  apply assign_inv in H1 as (v1 & E1 & ->); [| pure_tac].
  apply bind_inv in H as (s3 & [] & H2 & H).
  apply assign_inv in H2 as (v2 & E2 & ->); [| pure_tac].
  apply bind_inv in H as (s4 & [] & H3 & H).
  apply assign_inv in H3 as (v3 & E3 & ->); [| pure_tac].
  unfold load in H. look. inversion H; subst s' v3. clear H.
  inv_expr Eb. unfold Surface.np_log1p in E1, E3.
  inv_expr E1. inv_expr E2. inv_expr E3.
  destruct (Py.eq a (VInt 0)) eqn:Eq.
  - apply bump_inv in Hw as (o & o' & Ho & Hbv & ->).
    look. same_some.
    exists o, a2, b1, a1, b.
    repeat match goal with |- _ /\ _ => split end;
      try assumption; try reflexivity.
    + eapply advance_chain; try eassumption; [symmetry; exact Eq |].
      exact Hbv.
    + unfold Surface.kept. look. auto.
  - subst s1. look. same_some.
    exists b, a2, b1, a1, b.
    repeat match goal with |- _ /\ _ => split end;
      try assumption; try reflexivity.
    + eapply advance_chain; try eassumption; [symmetry; exact Eq |].
      reflexivity.
    + unfold Surface.kept. look. auto.
Qed.

Lemma kept_refl s : Surface.kept s s.
Proof. unfold Surface.kept. auto. Qed.

Lemma kept_trans s1 s2 s3 :
  Surface.kept s1 s2 -> Surface.kept s2 s3 -> Surface.kept s1 s3.
Proof.
  unfold Surface.kept. intros (A1 & A2 & A3 & A4) (B1 & B2 & B3 & B4).
  repeat split; congruence.
Qed.

(** The inner loop stores the values of [trace]. *)
Lemma cells_inv j l : forall z s s' z' o fs interval influence,
  Surface.for_each l (Surface.cell bump j) z s = (s', inr z') ->
  vars s current_observers = Some o ->
  vars s field_strength = Some fs ->
  vars s observer_interval = Some interval ->
  vars s observer_influence_factor = Some influence ->
  exists vs,
    Surface.trace bumped interval influence l (o, fs) = ok vs /\
    Surface.writes z j l vs = ok z' /\ Surface.kept s s'.
Proof.
  induction l as [| i l IH]; intros z s s' z' o fs interval influence H Ho Hfs Hi Hf;
    cbn [Surface.for_each Surface.trace Surface.writes] in *.
  - unfold ret in H. inversion H; subst. exists []. auto using kept_refl.
  - apply bind_inv in H as (s1 & z1 & Hc & H).
    unfold Surface.cell in Hc.
    apply bind_inv in Hc as (s2 & v & Hv & Hc).
    unfold lift in Hc.
    assert (Hset : Surface.setitem z i j v = ok z1 /\ s1 = s2)
      by (inversion Hc; split; [assumption | reflexivity]).
    destruct Hset as (Hset & <-). clear Hc.
    apply value_at_inv in Hv
      as (o0 & fs0 & i0 & f0 & o' & A1 & A2 & A3 & A4 & A5 & A6 & A7 & A8).
    rewrite Ho in A1. rewrite Hfs in A2. rewrite Hi in A3. rewrite Hf in A4.
    inversion A1; inversion A2; inversion A3; inversion A4; subst.
    destruct A8 as (K1 & K2 & K3 & K4).
    destruct (IH z1 s1 s' z' o' v i0 f0 H A6 A7) as (vs & Ht & Hw & Hk);
      [congruence | congruence |].
    exists (v :: vs). rewrite A5. cbn [rbind ok snd]. rewrite Ht.
    cbn [rbind ok]. rewrite Hset. cbn [rbind].
    split; [reflexivity |]. split; [exact Hw |].
    eapply kept_trans; [| exact Hk]. unfold Surface.kept. auto.
Qed.

Lemma range_from_1 n :
  range 1 (Z.of_nat n) = Np.iota 1 (n - 1).
Proof. unfold range. f_equal. lia. Qed.

(** One pass of the outer loop: it reads the names of [kept], and either
    the time axis has no second cell and nothing is stored, or the values
    of [trace] are stored in the column. *)
Lemma column_inv fs0 jf z s s' z' :
  Surface.column bump fs0 jf z s = (s', inr z') ->
  exists o ta,
    vars s initial_observers = Some o /\
    arrs s time_array = Some ta /\
    Surface.kept s s' /\
    ((length ta <= 1)%nat /\ z' = z \/
     (1 < length ta)%nat /\
     exists interval influence vs,
       vars s observer_interval = Some interval /\
       vars s observer_influence_factor = Some influence /\
       Surface.trace bumped interval influence
         (Np.iota 1 (length ta - 1)) (o, VFloat fs0) = ok vs /\
       Surface.writes z (fst jf) (Np.iota 1 (length ta - 1)) vs = ok z').
Proof.
  unfold Surface.column. intro H.
  apply bind_inv in H as (s1 & [] & H1 & H).
  apply assign_inv in H1 as (v1 & E1 & ->); [| pure_tac].
  apply bind_inv in H as (s2 & [] & H2 & H).
  apply assign_inv in H2 as (v2 & E2 & ->); [| pure_tac].
  apply bind_inv in H as (s3 & n & Hn & H).
  unfold len, bind, load_arr, ret in Hn. look.
  destruct (arrs s time_array) as [ta |] eqn:Hta; [| discriminate].
  inversion Hn; subst s3 n. clear Hn.
  apply load_inv in E1. apply ret_inv in E2. subst v2.
  rewrite range_from_1 in H.
  exists v1, ta. split; [exact E1 |]. split; [reflexivity |].
  destruct (length ta - 1)%nat as [| k] eqn:Hk.
  - cbn [Np.iota Surface.for_each] in H. unfold ret in H.
    inversion H; subst s' z'. split; [unfold Surface.kept; look; auto |].
    left. split; [lia | reflexivity].
  - assert (Hb : exists interval influence,
               vars s observer_interval = Some interval /\
               vars s observer_influence_factor = Some influence).
    { cbn [Np.iota Surface.for_each] in H.
      apply bind_inv in H as (s1 & z1 & Hc & _).
      unfold Surface.cell in Hc.
      apply bind_inv in Hc as (s2 & v & Hv & _).
      apply value_at_inv in Hv
        as (o0 & f0 & i0 & g0 & o' & _ & _ & A3 & A4 & _).
      look. eauto. }
    destruct Hb as (interval & influence & Hi & Hf).
    eapply cells_inv
      with (o := v1) (fs := VFloat fs0) (interval := interval)
           (influence := influence) in H; [| look; auto ..].
    destruct H as (vs & Ht & Hw & K1 & K2 & K3 & K4).
    split; [unfold Surface.kept; look; auto |].
    right. split; [lia |]. exists interval, influence, vs. auto.
Qed.

(** Without a second cell of the time axis the outer loop stores
    nothing. *)
Lemma columns_empty fs0 ta : forall l z s s' z',
  (length ta <= 1)%nat -> arrs s time_array = Some ta ->
  Surface.for_each l (Surface.column bump fs0) z s = (s', inr z') ->
  z' = z.
Proof.
  induction l as [| jf l IH]; intros z s s' z' Hn Hta H;
    cbn [Surface.for_each] in H.
  - unfold ret in H. inversion H. reflexivity.
  - apply bind_inv in H as (s1 & z1 & Hc & H).
    apply column_inv in Hc
      as (o & ta' & _ & Hta' & (_ & _ & _ & K) & [(_ & ->) | (Hlt & _)]).
    + apply (IH z s1 s' z' Hn); [congruence | exact H].
    + rewrite Hta in Hta'. inversion Hta'; subst ta'. lia.
Qed.

(** With one, every pass of the outer loop stores the same values. *)
Lemma columns_inv fs0 ta o interval influence vs m :
  (1 < length ta)%nat ->
  Surface.trace bumped interval influence
    (Np.iota 1 (length ta - 1)) (o, VFloat fs0) = ok vs ->
  forall fl lo z s s' z',
    Surface.for_each (combine (Np.iota lo (length fl)) fl)
      (Surface.column bump fs0) z s = (s', inr z') ->
    (0 <= lo)%Z ->
    vars s initial_observers = Some o ->
    vars s observer_interval = Some interval ->
    vars s observer_influence_factor = Some influence ->
    arrs s time_array = Some ta ->
    Surface.shaped (length ta) m z ->
    Surface.shaped (length ta) m z' /\
    forall r c,
      Surface.get z' r c
      = if (Z.to_nat lo <=? c)%nat && (c <? Z.to_nat lo + length fl)%nat
           && (1 <=? r)%nat && (r <? length ta)%nat
        then Surface.double_of (nth (r - 1) vs (VInt 0))
        else Surface.get z r c.
Proof.
  intros Hn Ht.
  induction fl as [| x fl IH]; intros lo z s s' z' H Hlo Ho Hi Hf Hta Hsh;
    cbn [length Np.iota combine Surface.for_each] in H.
  - unfold ret in H. inversion H; subst s' z'. split; [exact Hsh |].
    intros r c. cbn [length].
    destruct (Nat.leb_spec (Z.to_nat lo) c);
      destruct (Nat.ltb_spec c (Z.to_nat lo + 0)); try lia; reflexivity.
  - apply bind_inv in H as (s1 & z1 & Hc & H).
    apply column_inv in Hc
      as (o1 & ta1 & Ho1 & Hta1 & (K1 & K2 & K3 & K4) & [(Hle & _) | (_ & Hc)]).
    { rewrite Hta in Hta1. inversion Hta1; subst ta1. lia. }
    destruct Hc as (i1 & f1 & vs1 & Hi1 & Hf1 & Ht1 & Hw).
    rewrite Hta in Hta1. rewrite Ho in Ho1. rewrite Hi in Hi1.
    rewrite Hf in Hf1.
    inversion Hta1; inversion Ho1; inversion Hi1; inversion Hf1.
    subst ta1 o1 i1 f1. rewrite Ht in Ht1. inversion Ht1; subst vs1.
    cbn [fst] in Hw.
    destruct (writes_inv (length ta) m lo (length ta - 1) 1 z vs z1
                Hsh ltac:(lia) Hlo Hw) as (Hsh1 & _ & Hget1).
    destruct (IH (lo + 1)%Z z1 s1 s' z' H ltac:(lia)
                ltac:(congruence) ltac:(congruence) ltac:(congruence)
                ltac:(congruence) Hsh1) as (Hsh' & Hget').
    split; [exact Hsh' |].
    intros r c. rewrite Hget', Hget1. cbn [length].
    replace (Z.to_nat (lo + 1)) with (S (Z.to_nat lo)) by lia.
    replace (Z.to_nat 1) with 1%nat by reflexivity.
    destruct (Nat.leb_spec (S (Z.to_nat lo)) c);
      destruct (Nat.ltb_spec c (S (Z.to_nat lo) + length fl));
      destruct (Nat.leb_spec (Z.to_nat lo) c);
      destruct (Nat.ltb_spec c (Z.to_nat lo + S (length fl)));
      destruct (Nat.eqb_spec c (Z.to_nat lo));
      destruct (Nat.leb_spec 1 r);
      destruct (Nat.ltb_spec r (length ta));
      destruct (Nat.ltb_spec r (1 + (length ta - 1)));
      try lia; reflexivity.
Qed.

(** A grid whose cells do not depend on the column has flat rows. *)
Lemma flat_rows rows cols z (f : nat -> float) :
  Surface.shaped rows cols z ->
  (forall r c, (c < cols)%nat -> Surface.get z r c = f r) ->
  Forall Surface.flat z.
Proof.
  intros (Hlen & Hrows) Hget. apply Forall_forall. intros row Hin.
  apply In_nth with (d := []) in Hin as (r & Hr & <-).
  assert (Hc : length (nth r z []) = cols).
  { rewrite Forall_forall in Hrows. apply Hrows. apply nth_In. exact Hr. }
  intros x y Hx Hy.
  apply In_nth with (d := 0) in Hx as (c & Hc1 & <-).
  apply In_nth with (d := 0) in Hy as (c' & Hc2 & <-).
  fold (Surface.get z r c). fold (Surface.get z r c').
  rewrite !Hget by lia. reflexivity.
Qed.

Lemma factors_eq :
  Np.arange (VFloat 1.0) (VFloat 1.6) (VFloat 0.1)
  = ok (map (Np.arange_cell 1.0 0.1) (Np.iota 0 7)).
Proof. vm_compute. reflexivity. Qed.

(** The two loops leave an array of one row per cell of the time axis and
    seven columns, its rows flat and its first row zero. *)
Lemma surface_inv fs0 s s' z :
  Surface.surface bump fs0 s = (s', inr z) ->
  exists ta,
    arrs s time_array = Some ta /\
    Surface.shaped (length ta) 7 z /\
    Forall Surface.flat z /\
    forall c, Surface.get z 0 c = 0.
Proof.
  unfold Surface.surface. rewrite factors_eq. intro H.
  apply bind_inv in H as (s1 & fl & Hfl & H).
  unfold lift in Hfl.
  assert (E : fl = map (Np.arange_cell 1.0 0.1) (Np.iota 0 7) /\ s1 = s)
    by (inversion Hfl; split; reflexivity).
  destruct E as (Efl & ->). clear Hfl.
  apply bind_inv in H as (s2 & n & Hn & H).
  unfold len, bind, load_arr, ret in Hn.
  destruct (arrs s time_array) as [ta |] eqn:Hta; [| discriminate].
  inversion Hn; subst s2 n. clear Hn.
  exists ta. split; [reflexivity |].
  assert (Hlen : length fl = 7%nat) by (subst fl; reflexivity).
  clear Efl. unfold Surface.enumerate in H. rewrite <- Hlen.
  pose proof (shaped_zeros (length ta) (length fl)) as Hsh.
  destruct (Nat.le_gt_cases (length ta) 1) as [Hle | Hgt].
  - apply (columns_empty fs0 ta _ _ _ _ _ Hle Hta) in H. subst z.
    split; [exact Hsh |]. split.
    + apply (flat_rows (length ta) (length fl) _ (fun _ => 0) Hsh).
      intros r c _. apply get_zeros.
    + intro c. apply get_zeros.
  - assert (Hfirst : exists o interval influence vs,
               vars s initial_observers = Some o /\
               vars s observer_interval = Some interval /\
               vars s observer_influence_factor = Some influence /\
               Surface.trace bumped interval influence
                 (Np.iota 1 (length ta - 1)) (o, VFloat fs0) = ok vs).
    { destruct fl as [| x fl]; [discriminate |].
      cbn [length Np.iota combine Surface.for_each] in H.
      apply bind_inv in H as (s1 & z1 & Hc & _).
      apply column_inv in Hc
        as (o & ta1 & Ho & Hta1 & _ & [(Hle & _) | (_ & Hc)]).
      { rewrite Hta in Hta1. inversion Hta1; subst ta1. lia. }
      destruct Hc as (interval & influence & vs & Hi & Hf & Ht & _).
      rewrite Hta in Hta1. inversion Hta1; subst ta1.
      exists o, interval, influence, vs. auto. }
    destruct Hfirst as (o & interval & influence & vs & Ho & Hi & Hf & Ht).
    destruct (columns_inv fs0 ta o interval influence vs (length fl) Hgt Ht
                fl 0%Z _ s s' z H ltac:(lia) Ho Hi Hf Hta Hsh)
      as (Hsh' & Hget).
    split; [exact Hsh' |]. split.
    + apply (flat_rows (length ta) (length fl) _
               (fun r => if (1 <=? r)%nat && (r <? length ta)%nat
                         then Surface.double_of (nth (r - 1) vs (VInt 0))
                         else 0) Hsh').
      intros r c Hc. rewrite Hget, get_zeros.
      replace (Z.to_nat 0) with 0%nat by reflexivity.
      destruct (Nat.ltb_spec c (0 + length fl)); [| lia]. reflexivity.
    + intro c. rewrite Hget, get_zeros.
      destruct ((Z.to_nat 0 <=? c)%nat && (c <? Z.to_nat 0 + length fl)%nat);
        reflexivity.
Qed.

End SurfaceLoops.

Section SurfaceBumps.

Context {libm : Np.Libm}.
Import Name.

Lemma copy_bump_inv s s1 :
  (current_observers ::= $current_observers .* int_ 1) s = (s1, inr tt) ->
  exists o o', vars s current_observers = Some o /\
               Py.mul o (VInt 1) = ok o' /\
               s1 = bind_var current_observers o' s.
Proof.
  intro H. apply assign_inv in H as (v & E & ->); [| pure_tac].
  inv_expr E. eauto.
Qed.

Lemma alien_bump_inv s s1 :
  (current_observers ::= $current_observers .+ int_ 1) s = (s1, inr tt) ->
  exists o o', vars s current_observers = Some o /\
               Py.add o (VInt 1) = ok o' /\
               s1 = bind_var current_observers o' s.
Proof.
  intro H. apply assign_inv in H as (v & E & ->); [| pure_tac].
  inv_expr E. eauto.
Qed.

End SurfaceBumps.

(** X8.  The array [Z] of the surface plot does not depend on the observer
    factor: when the two loops that fill it have run, in either script and
    from any store, [Z] has one row per cell of [time_array] and seven
    columns, the cells of a row are all the same double, and the first row
    is zero. *)
Theorem surface_columns_are_equal (libm : Np.Libm) (s s' : state)
    (z : Surface.grid) :
  Surface.copy_surface s = (s', inr z) \/
  Surface.alien_surface s = (s', inr z) ->
  exists ta,
    arrs s Name.time_array = Some ta /\
    Surface.shaped (length ta) 7 z /\
    Forall Surface.flat z /\
    forall c, Surface.get z 0 c = 0%float.
Proof.
  intros [H | H].
  - exact (surface_inv _ _ copy_bump_inv _ _ _ _ H).
  - exact (surface_inv _ _ alien_bump_inv _ _ _ _ H).
Qed.

Lemma surface_columns_are_equal_witness :
  let r := Surface.copy_surface (libm := Demo.staircase) Demo.store in
  let z := match snd r with inr z => z | inl _ => [] end in
  exists ta,
    arrs Demo.store Name.time_array = Some ta /\
    Surface.shaped (length ta) 7 z /\
    Forall Surface.flat z /\
    forall c, Surface.get z 0 c = 0%float.
Proof.
  intros r z.
  apply (surface_columns_are_equal Demo.staircase Demo.store (fst r) z).
  left. vm_compute. reflexivity.
Defined.

(** ** The surface loops on the stores the two runs leave *)

Lemma In_iota n : forall lo k,
  (lo <= k < lo + Z.of_nat n)%Z -> In k (Np.iota lo n).
Proof.
  induction n as [| n IH]; intros lo k H; cbn [Np.iota]; [lia |].
  destruct (Z.eq_dec k lo) as [-> | Hne]; [left; reflexivity |].
  right. apply IH. lia.
Qed.

Lemma of_int_sweep :
  forallb (fun k => match Double.of_int k with inr _ => true | inl _ => false end)
          (Np.iota 0 (Z.to_nat 100000)) = true.
Proof. vm_compute. reflexivity. Qed.

Lemma of_int_small k :
  (0 <= k < 100000)%Z -> exists x, Double.of_int k = ok x.
Proof.
  intro H. pose proof of_int_sweep as Hs.
  rewrite forallb_forall in Hs.
  assert (Hin : In k (Np.iota 0 (Z.to_nat 100000)))
    by (apply In_iota; rewrite Z2Nat.id; lia).
  specialize (Hs k Hin).
  destruct (Double.of_int k) as [e | x]; [discriminate |]. exists x. reflexivity.
Qed.

Lemma when_run_val {A} (cond : M bool) (body : M unit) (k : unit -> M A)
    (s : state) (b : bool) :
  pure cond -> eval cond s = ok b ->
  bind (when cond body) k s = if b then bind body k s else k tt s.
Proof.
  intros Hc Hb. unfold when, bind. rewrite (pure_run cond s Hc), Hb.
  destruct b; reflexivity.
Qed.

Lemma grid_setitem_run rows cols z i j q :
  Surface.shaped rows cols z ->
  (0 <= i < Z.of_nat rows)%Z -> (0 <= j < Z.of_nat cols)%Z ->
  exists z', Surface.setitem z i j (VNp q) = ok z' /\
             Surface.shaped rows cols z'.
Proof.
  intros Hsh Hi Hj.
  assert (H : exists z', Surface.setitem z i j (VNp q) = ok z').
  { destruct Hsh as (Hlen & Hrows).
    unfold Surface.setitem. cbn [Py.to_double rbind ok].
    unfold Np.index at 1. rewrite Hlen.
    replace ((0 <=? i)%Z && (i <? Z.of_nat rows)%Z) with true
      by (symmetry; apply andb_true_intro;
          split; [apply Z.leb_le | apply Z.ltb_lt]; lia).
    cbn [rbind ok].
    assert (Hrow : length (nth (Z.to_nat i) z []) = cols).
    { rewrite Forall_forall in Hrows. apply Hrows. apply nth_In. lia. }
    unfold Np.index. rewrite Hrow.
    replace ((0 <=? j)%Z && (j <? Z.of_nat cols)%Z) with true
      by (symmetry; apply andb_true_intro;
          split; [apply Z.leb_le | apply Z.ltb_lt]; lia).
    cbn [rbind ok]. eexists. reflexivity. }
  destruct H as (z' & H). exists z'. split; [exact H |].
  apply (grid_setitem_inv rows cols z i j (VNp q) z' Hsh); [lia | lia | exact H].
Qed.

Section SurfaceRuns.

Context {libm : Np.Libm}.
Import Name.
Local Open Scope float_scope.

Variable bump : M unit.
Variable step : Z -> Z.
Hypothesis bump_run :
  forall s k, vars s current_observers = Some (VInt k) ->
              bump s = (bind_var current_observers (VInt (step k)) s, inr tt).
Hypothesis step_le : forall k, (k <= step k <= k + 1)%Z.

Lemma rest_run s k x fs y f :
  vars s current_observers = Some (VInt k) -> Double.of_int k = ok x ->
  vars s field_strength = Some fs -> (fs = VFloat y \/ fs = VNp y) ->
  vars s observer_influence_factor = Some (VFloat f) ->
  exists s',
    (observer_factor
       ::= Surface.np_log1p ($observer_influence_factor .* $current_observers) ;;
     field_strength ::= $field_strength .* $observer_factor ;;
     field_strength ::= Surface.np_log1p $field_strength ;;
     $field_strength) s
    = (s', inr (VNp (Np.log1p (y * Np.log1p (f * x))))) /\
    s' = bind_var field_strength (VNp (Np.log1p (y * Np.log1p (f * x))))
           (bind_var field_strength (VNp (y * Np.log1p (f * x)))
              (bind_var observer_factor (VNp (Np.log1p (f * x))) s)).
Proof.
  intros Ho Hx Hfs Hy Hf.
  assert (Hmul : Py.mul (VFloat f) (VInt k) = ok (VFloat (f * x))).
  { unfold Py.mul, Py.binop, Py.to_double. rewrite Hx. reflexivity. }
  assert (Hmul2 : Py.mul fs (VNp (Np.log1p (f * x)))
                  = ok (VNp (y * Np.log1p (f * x)))).
  { destruct Hy as [-> | ->]; reflexivity. }
  unfold Surface.np_log1p.
  run_assign_as (VNp (Np.log1p (f * x))).
  run_assign.
  run_assign_as (VNp (Np.log1p (y * Np.log1p (f * x)))).
  eexists. split; [| reflexivity]. unfold load. look. reflexivity.
Qed.

Lemma value_at_run i s k fs p f :
  vars s current_observers = Some (VInt k) -> (0 <= k < 99999)%Z ->
  vars s field_strength = Some fs -> is_float fs = true ->
  vars s observer_interval = Some (VInt p) -> p <> 0%Z ->
  vars s observer_influence_factor = Some (VFloat f) ->
  exists s' q k',
    Surface.value_at bump i s = (s', inr (VNp q)) /\
    (k <= k' <= k + 1)%Z /\
    vars s' current_observers = Some (VInt k') /\
    vars s' field_strength = Some (VNp q) /\
    Surface.kept s s'.
Proof.
  intros Ho Hk Hfs Hfl Hi Hp Hf.
  assert (Hm : Py.mod_ (VInt i) (VInt p) = ok (VInt (i mod p))).
  { unfold Py.mod_. destruct (Z.eqb_spec p 0); [contradiction | reflexivity]. }
  destruct (float_value fs Hfl) as [y Hy].
  unfold Surface.value_at.
  rewrite (when_run_val _ _ _ s (Py.eq (VInt (i mod p)) (VInt 0)));
    [| pure_tac | ev; pyop].
  destruct (Py.eq (VInt (i mod p)) (VInt 0)).
  - pose proof (step_le k) as Hst.
    destruct (of_int_small (step k) ltac:(lia)) as [x Hx].
    unfold bind at 1. rewrite (bump_run s k Ho).
    destruct (rest_run (bind_var current_observers (VInt (step k)) s)
                (step k) x fs y f) as (s' & Hrun & ->);
      [look; reflexivity | exact Hx | look; exact Hfs | exact Hy
      | look; exact Hf |].
    eexists _, _, (step k). split; [exact Hrun |].
    split; [lia |]. unfold Surface.kept. look.
    repeat split; first [reflexivity | assumption].
  - destruct (of_int_small k ltac:(lia)) as [x Hx].
    destruct (rest_run s k x fs y f Ho Hx Hfs Hy Hf) as (s' & Hrun & ->).
    eexists _, _, k. split; [exact Hrun |].
    split; [lia |]. unfold Surface.kept. look.
    repeat split; first [reflexivity | assumption].
Qed.

(** The inner loop runs to its end. *)
Lemma cells_run rows cols j p f m : forall lo z s k fs,
  vars s current_observers = Some (VInt k) ->
  (0 <= k)%Z -> (k + Z.of_nat m < 99999)%Z ->
  vars s field_strength = Some fs -> is_float fs = true ->
  vars s observer_interval = Some (VInt p) -> p <> 0%Z ->
  vars s observer_influence_factor = Some (VFloat f) ->
  Surface.shaped rows cols z ->
  (0 <= lo)%Z -> (lo + Z.of_nat m <= Z.of_nat rows)%Z ->
  (0 <= j < Z.of_nat cols)%Z ->
  exists s' z',
    Surface.for_each (Np.iota lo m) (Surface.cell bump j) z s = (s', inr z') /\
    Surface.shaped rows cols z' /\ Surface.kept s s'.
Proof.
  induction m as [| m IH];
    intros lo z s k fs Ho Hk0 Hk Hfs Hfl Hi Hp Hf Hsh Hlo Hhi Hj;
    cbn [Np.iota Surface.for_each].
  - exists s, z. split; [reflexivity |]. split; [exact Hsh |].
    unfold Surface.kept. auto.
  - destruct (value_at_run lo s k fs p f Ho ltac:(lia) Hfs Hfl Hi Hp Hf)
      as (s1 & q & k' & Hv & Hk' & Ho1 & Hfs1 & K1 & K2 & K3 & K4).
    destruct (grid_setitem_run rows cols z lo j q Hsh ltac:(lia) Hj)
      as (z1 & Hset & Hsh1).
    assert (Hc : Surface.cell bump j lo z s = (s1, inr z1)).
    { unfold Surface.cell. rewrite (bind_run _ _ _ _ _ Hv).
      unfold lift. rewrite Hset. reflexivity. }
    rewrite (bind_run _ _ _ _ _ Hc).
    destruct (IH (lo + 1)%Z z1 s1 k' (VNp q) Ho1 ltac:(lia) ltac:(lia)
                Hfs1 eq_refl ltac:(congruence) Hp ltac:(congruence)
                Hsh1 ltac:(lia) ltac:(lia) Hj)
      as (s' & z' & Hrun & Hsh' & K1' & K2' & K3' & K4').
    exists s', z'. split; [exact Hrun |]. split; [exact Hsh' |].
    unfold Surface.kept. repeat split; congruence.
Qed.

(** One pass of the outer loop runs to its end. *)
Lemma column_run cols fs0 jf z s k p f ta :
  vars s initial_observers = Some (VInt k) ->
  (0 <= k)%Z -> (k + Z.of_nat (length ta) < 99999)%Z ->
  vars s observer_interval = Some (VInt p) -> p <> 0%Z ->
  vars s observer_influence_factor = Some (VFloat f) ->
  arrs s time_array = Some ta ->
  Surface.shaped (length ta) cols z ->
  (0 <= fst jf < Z.of_nat cols)%Z ->
  exists s' z',
    Surface.column bump fs0 jf z s = (s', inr z') /\
    Surface.shaped (length ta) cols z' /\ Surface.kept s s'.
Proof.
  intros Ho Hk0 Hk Hi Hp Hf Hta Hsh Hj. unfold Surface.column.
  erewrite bind_run by (apply assign_run; [pure_tac | ev; pyop]).
  erewrite bind_run by (apply assign_run; [pure_tac | ev; pyop]).
  erewrite bind_run
    by (unfold len, bind, load_arr, ret; look; rewrite Hta; reflexivity).
  rewrite range_from_1.
  destruct (Nat.eq_dec (length ta - 1) 0) as [Hz | Hnz].
  { rewrite Hz. cbn [Np.iota Surface.for_each]. eexists _, z.
    split; [reflexivity |]. split; [exact Hsh |].
    unfold Surface.kept. look. auto. }
  destruct (cells_run (length ta) cols (fst jf) p f (length ta - 1) 1 z
              (bind_var field_strength (VFloat fs0)
                 (bind_var current_observers (VInt k) s))
              k (VFloat fs0))
    as (s' & z' & Hrun & Hsh' & K1 & K2 & K3 & K4);
    try (look; first [reflexivity | assumption]); try lia.
  exists s', z'. split; [exact Hrun |]. split; [exact Hsh' |].
  unfold Surface.kept. look. auto.
Qed.

(** The outer loop runs to its end. *)
Lemma columns_run cols fs0 p f ta k : forall fl lo z s,
  vars s initial_observers = Some (VInt k) ->
  (0 <= k)%Z -> (k + Z.of_nat (length ta) < 99999)%Z ->
  vars s observer_interval = Some (VInt p) -> p <> 0%Z ->
  vars s observer_influence_factor = Some (VFloat f) ->
  arrs s time_array = Some ta ->
  Surface.shaped (length ta) cols z ->
  (0 <= lo)%Z -> (lo + Z.of_nat (length fl) <= Z.of_nat cols)%Z ->
  exists s' z',
    Surface.for_each (combine (Np.iota lo (length fl)) fl)
      (Surface.column bump fs0) z s = (s', inr z') /\
    Surface.shaped (length ta) cols z'.
Proof.
  induction fl as [| x fl IH]; intros lo z s Ho Hk0 Hk Hi Hp Hf Hta Hsh Hlo Hhi;
    cbn [length Np.iota combine Surface.for_each] in *.
  - exists s, z. split; [reflexivity | exact Hsh].
  - destruct (column_run cols fs0 (lo, x) z s k p f ta Ho Hk0 Hk Hi Hp Hf
                Hta Hsh ltac:(cbn [fst]; lia))
      as (s1 & z1 & Hc & Hsh1 & K1 & K2 & K3 & K4).
    rewrite (bind_run _ _ _ _ _ Hc).
    apply IH; try congruence; try assumption; lia.
Qed.

Lemma surface_run fs0 s k p f ta :
  vars s initial_observers = Some (VInt k) ->
  (0 <= k)%Z -> (k + Z.of_nat (length ta) < 99999)%Z ->
  vars s observer_interval = Some (VInt p) -> p <> 0%Z ->
  vars s observer_influence_factor = Some (VFloat f) ->
  arrs s time_array = Some ta ->
  exists s' z,
    Surface.surface bump fs0 s = (s', inr z) /\
    Surface.shaped (length ta) 7 z.
Proof.
  intros Ho Hk0 Hk Hi Hp Hf Hta. unfold Surface.surface.
  rewrite factors_eq. unfold lift at 1.
  erewrite bind_run by reflexivity.
  erewrite bind_run
    by (unfold len, bind, load_arr, ret; rewrite Hta; reflexivity).
  unfold Surface.enumerate.
  apply (columns_run _ fs0 p f ta k); try assumption.
  - apply shaped_zeros.
  - lia.
  - cbn. lia.
Qed.

End SurfaceRuns.

Section SurfaceOnRuns.

Context {libm : Np.Libm}.
Import Name.
Local Open Scope float_scope.

Lemma copy_bump_run s k :
  vars s current_observers = Some (VInt k) ->
  (current_observers ::= $current_observers .* int_ 1) s
  = (bind_var current_observers (VInt (k * 1)) s, inr tt).
Proof. intro H. apply assign_run; [pure_tac | ev; reflexivity]. Qed.

Lemma alien_bump_run s k :
  vars s current_observers = Some (VInt k) ->
  (current_observers ::= $current_observers .+ int_ 1) s
  = (bind_var current_observers (VInt (k + 1)) s, inr tt).
Proof. intro H. apply assign_run; [pure_tac | ev; reflexivity]. Qed.

(** An iteration of either loop leaves [initial_observers] alone. *)
Lemma copy_body_keeps i s s' :
  Copy.body i s = (s', inr tt) ->
  vars s' initial_observers = vars s initial_observers.
Proof. unfold Copy.body. intro H. inv_seq H; look; reflexivity. Qed.

Lemma alien_body_keeps i s s' :
  Alien.body i s = (s', inr tt) ->
  vars s' initial_observers = vars s initial_observers.
Proof. unfold Alien.body. intro H. inv_seq H; look; reflexivity. Qed.

Lemma copy_initial_observers :
  vars CopyRun.initial initial_observers = Some (VInt 1).
Proof.
  assert (H : exists s', Copy.prelude empty = (s', inr tt) /\
                         vars s' initial_observers = Some (VInt 1)).
  { unfold Copy.prelude.
    do 13 run_assign.
    run_assign_as (VFloat 0.1).
    eapply bind_ex.
    { unfold bind, load, lift, store_arr, ok. look.
      rewrite copy_arange. reflexivity. }
    cbv beta.
    do 9 run_zeros.
    do 8 run_assign.
    eexists. split; [apply assign_run; [pure_tac | ev] |].
    look. reflexivity. }
  destruct H as (s' & Hp & Hf).
  destruct copy_prelude as [Hp' _]. rewrite Hp' in Hp.
  inversion Hp; subst s'. exact Hf.
Qed.

Lemma alien_initial_observers :
  vars AlienRun.initial initial_observers = Some (VInt 1).
Proof.
  assert (H : exists s', Alien.prelude empty = (s', inr tt) /\
                         vars s' initial_observers = Some (VInt 1)).
  { unfold Alien.prelude.
    do 14 run_assign.
    run_assign_as (VFloat 0.1).
    eapply bind_ex.
    { unfold bind, load, lift, store_arr, ok. look.
      rewrite alien_arange. reflexivity. }
    cbv beta.
    do 11 run_zeros.
    do 9 run_assign.
    eexists. split;
      [apply (assign_run _ _ _ (VFloat 1.2566370614359173e-06));
       [pure_tac | ev; pyop] |].
    look. reflexivity. }
  destruct H as (s' & Hp & Hf).
  destruct alien_prelude as [Hp' _]. rewrite Hp' in Hp.
  inversion Hp; subst s'. exact Hf.
Qed.

Lemma copy_observers_kept k :
  (k <= CopyLoop.steps)%nat ->
  exists s, CopyLoop.reached k s /\
            vars s initial_observers = Some (VInt 1).
Proof.
  induction k as [| k IH]; intro Hk.
  - exists CopyRun.initial.
    split; [apply copy_start | apply copy_initial_observers].
  - destruct IH as (s & Hs & Ho); [lia |].
    destruct (copy_advance k s ltac:(lia) Hs) as (s' & Hb & Hs').
    exists s'. split; [exact Hs' |].
    rewrite (copy_body_keeps _ _ _ Hb). exact Ho.
Qed.

Lemma alien_observers_kept k :
  (k <= AlienLoop.steps)%nat ->
  exists s, AlienLoop.reached k s /\
            vars s initial_observers = Some (VInt 1).
Proof.
  induction k as [| k IH]; intro Hk.
  - exists AlienRun.initial.
    split; [apply alien_start | apply alien_initial_observers].
  - destruct IH as (s & Hs & Ho); [lia |].
    destruct (alien_advance k s ltac:(lia) Hs) as (s' & Hb & Hs').
    exists s'. split; [exact Hs' |].
    rewrite (alien_body_keeps _ _ _ Hb). exact Ho.
Qed.

Lemma copy_surface_completes :
  exists s n s' z,
    bind Copy.prelude (fun _ => Copy.loop) empty = (s, inr n) /\
    Surface.copy_surface s = (s', inr z) /\
    Surface.shaped (Z.to_nat 96000) 7 z.
Proof.
  destruct (copy_observers_kept CopyLoop.steps (le_n _))
    as (s & (lT & Hrun & HI & _) & Ho).
  destruct (CopyRun.inv_time_array _ _ _ _ _ _ HI) as (ta & Hta & Hn).
  destruct (surface_run _ (fun k => (k * 1)%Z) copy_bump_run
              ltac:(intro; cbv beta; lia) 1e20 s 1 45 1.1 ta Ho ltac:(lia)
              ltac:(rewrite Hn, copy_cells; lia)
              (CopyRun.inv_interval _ _ _ _ _ _ HI) ltac:(lia)
              (CopyRun.inv_influence _ _ _ _ _ _ HI) Hta)
    as (s' & z & Hz & Hsh).
  exists s, CopyLoop.steps, s', z. split; [| split; [exact Hz |]].
  - eapply bind_prelude; [apply copy_prelude |].
    rewrite copy_first_eq in Hrun.
    destruct copy_prelude as [_ H0].
    destruct (CopyRun.inv_time_array _ _ _ _ _ _ H0) as (l & Hl & Hnl).
    rewrite (copy_loop_from _ _ Hl).
    rewrite (range_all (length l) CopyLoop.steps);
      [| rewrite Hnl, copy_cells, copy_steps; reflexivity].
    exact Hrun.
  - rewrite Hn in Hsh. exact Hsh.
Qed.

Lemma alien_surface_completes :
  exists s n s' z,
    bind Alien.prelude (fun _ => Alien.loop) empty = (s, inr n) /\
    Surface.alien_surface s = (s', inr z) /\
    Surface.shaped (Z.to_nat 69000) 7 z.
Proof.
  destruct (alien_observers_kept AlienLoop.steps (le_n _))
    as (s & (lT & Hrun & HI & _) & Ho).
  pose proof (AlienRun.inv_time_array _ _ _ _ _ _ HI) as Hta.
  destruct (surface_run _ (fun k => (k + 1)%Z) alien_bump_run
              ltac:(intro; cbv beta; lia) 1e-20 s 1 100 1.1 AlienRun.times Ho
              ltac:(lia)
              ltac:(rewrite alien_length_times, alien_cells; lia)
              (AlienRun.inv_interval _ _ _ _ _ _ HI) ltac:(lia)
              (AlienRun.inv_influence _ _ _ _ _ _ HI) Hta)
    as (s' & z & Hz & Hsh).
  exists s, AlienLoop.steps, s', z. split; [| split; [exact Hz |]].
  - eapply bind_prelude; [apply alien_prelude |].
    rewrite alien_first_eq in Hrun.
    destruct alien_prelude as [_ H0].
    pose proof (AlienRun.inv_time_array _ _ _ _ _ _ H0) as Hl.
    rewrite (alien_loop_from _ _ Hl).
    rewrite (range_all (length AlienRun.times) AlienLoop.steps);
      [| rewrite alien_length_times, alien_cells, alien_steps; reflexivity].
    exact Hrun.
  - rewrite alien_length_times in Hsh. exact Hsh.
Qed.

End SurfaceOnRuns.

(** X9.  The two loops that fill [Z] for the surface plot run to
    completion in both scripts, whatever the C library computes: from the
    store the main loop leaves, they raise no exception and leave an array
    of 69,000 rows ([alien_weaponry.py]) or 96,000 rows
    ([copyandpaste.py]) and seven columns. *)
Theorem surface_loops_run_to_completion (libm : Np.Libm) :
  (exists s n s' z,
     bind Alien.prelude (fun _ => Alien.loop) empty = (s, inr n) /\
     Surface.alien_surface s = (s', inr z) /\
     Surface.shaped (Z.to_nat 69000) 7 z) /\
  (exists s n s' z,
     bind Copy.prelude (fun _ => Copy.loop) empty = (s, inr n) /\
     Surface.copy_surface s = (s', inr z) /\
     Surface.shaped (Z.to_nat 96000) 7 z).
Proof.
  split; [apply alien_surface_completes | apply copy_surface_completes].
Qed.
